(** * Buyback strategy back-tester: a shallow embedding and its properties

    The development follows the four modules of the repository:
    [benchmarks.py], [strategies.py], [metrics.py] and [gbm.py].

    Modelling conventions.
    - A Python [float] (and a numpy [float64] cell) is an exact rational
      of type [Q]: rounding is not modelled, so every equation between
      amounts is an equation of exact arithmetic, written with [==]
      wherever two different computations are compared.
    - A Python [int] (durations, day counts, end days) is a [Z]; a loop
      index produced by [range] is a [nat].
    - A one-dimensional numpy array is a [list]; a two-dimensional one is
      a list of rows together with its number of columns.  A cell
      assignment [a[i] = x] is stdpp's [<[i:=x]> a].
    - A Python exception is the [Raise] case of the [result] type.
    - numpy's float division does not raise on a zero divisor; where the
      source divides by a cell that may be zero without a guard
      ([calculate_execution_performance_bps]) the quotient lives in
      [npfloat], which adds the two infinities and NaN to [Q]. *)

From Stdlib Require Import QArith Qminmax Qround Qabs Lqa ZArith Sorted.
From stdpp Require Import gmap strings list fin_maps pretty.

Local Open Scope Q_scope.

(** ** Python and numpy primitives *)

Inductive pyerror : Set := ZeroDivisionError | IndexError | ValueError.

Inductive result (A : Type) : Type :=
| Ok (a : A)
| Raise (e : pyerror).
Arguments Ok {A} a.
Arguments Raise {A} e.

#[export] Instance result_ret : MRet result := λ A a, Ok a.
#[export] Instance result_bind : MBind result := λ A B f m,
  match m with Ok a => f a | Raise e => Raise e end.

#[export] Instance result_fmap : FMap result := λ A B f m,
  match m with Ok a => Ok (f a) | Raise e => Raise e end.

Definition raises {A} (m : result A) : Prop := ∃ e, m = Raise e.

#[export] Instance Q_inhabited : Inhabited Q := populate 0.

(** [x < y] on floats, as a boolean. *)
Definition Qltb (x y : Q) : bool := negb (Qle_bool y x).

(** Python's builtin [min(a, b)]: the first argument unless the second is
    strictly smaller. *)
Definition py_min (a b : Q) : Q := if Qltb b a then b else a.

(** [range(n)] for a Python integer [n]. *)
Definition py_range (n : Z) : list nat := seq 0 (Z.to_nat n).

(** [a[:e]] for a Python integer [e]: a negative bound counts from the
    end, and the bound is clipped to the length. *)
Definition slice_to {A} (e : Z) (a : list A) : list A :=
  if (e <? 0)%Z then take (length a - Z.to_nat (- e)) a else take (Z.to_nat e) a.

(** [np.zeros(n)]. *)
Definition np_zeros (n : nat) : list Q := replicate n 0.

(** [np.sum] over a one-dimensional array. *)
Definition np_sum (a : list Q) : Q := foldr Qplus 0 a.

(** [np.mean]: the sum over the number of elements.  numpy's mean of an
    empty array is NaN; that case is not modelled ([np_mean []] is [0]), and
    the theorems take means of non-empty arrays only. *)
Definition np_mean (a : list Q) : Q := np_sum a / inject_Z (Z.of_nat (length a)).

(** A price batch: [prices.shape = (length price_rows, num_days)]. *)
Record Prices : Type := mkPrices {
  num_days : nat;
  price_rows : list (list Q)
}.

Definition num_simulations (prices : Prices) : nat := length (price_rows prices).

Definition prices_wf (prices : Prices) : Prop :=
  Forall (λ row, length row = num_days prices) (price_rows prices).

(** [prices[:, :k]], flattened in row-major order. *)
Definition columns_upto (k : nat) (prices : Prices) : list Q :=
  concat (map (take k) (price_rows prices)).

(** ** benchmarks.py *)

Definition calculate_arithmetic_mean_benchmark
    (prices : Prices) (discount_bps : Q) : list Q :=
  let benchmark :=
    foldl (λ benchmark day, <[day := np_mean (columns_upto (S day) prices)]> benchmark)
          (np_zeros (num_days prices)) (seq 0 (num_days prices)) in
  if Qltb 0 discount_bps then
    let discount_factor := 1 - discount_bps / 10000 in
    map (λ b, b * discount_factor) benchmark
  else benchmark.

(** ** strategies.py *)

(** The three result arrays of one simulation row of strategy 1. *)
Record FixedRow : Type := mkFixedRow {
  fixed_usd : list Q;
  fixed_shares : list Q;
  fixed_cum : list Q
}.

(** The body of the inner loop of strategy 1.  A price is positive; at a
    zero price numpy's quotient is an infinity, which the rational model
    does not represent, and no theorem below depends on the shares
    acquired on a traded day. *)
Definition strategy_1_day (row : list Q) (daily_usd : Q) (a : FixedRow) (day : nat)
    : FixedRow :=
  let usd := <[day := daily_usd]> (fixed_usd a) in
  let shares := <[day := daily_usd / (row !!! day)]> (fixed_shares a) in
  let cum :=
    if (day =? 0)%nat then <[day := shares !!! day]> (fixed_cum a)
    else <[day := (fixed_cum a !!! (day - 1)%nat) + (shares !!! day)]> (fixed_cum a) in
  {| fixed_usd := usd; fixed_shares := shares; fixed_cum := cum |}.

(** Strategy 1, one simulation row: the inner [for day] loop. *)
Definition strategy_1_row (daily_usd : Q) (target_duration : Z) (num_days : nat)
    (row : list Q) : FixedRow :=
  foldl (strategy_1_day row daily_usd)
        (mkFixedRow (np_zeros num_days) (np_zeros num_days) (np_zeros num_days))
        (py_range (Z.min target_duration (Z.of_nat num_days))).

Definition execute_strategy_1 (prices : Prices) (total_usd : Q) (target_duration : Z)
    : result (list (list Q) * list (list Q) * list (list Q) * Z) :=
  if (target_duration =? 0)%Z then Raise ZeroDivisionError else
  let daily_usd := total_usd / inject_Z target_duration in
  let rows := map (strategy_1_row daily_usd target_duration (num_days prices))
                  (price_rows prices) in
  let actual_end_day := Z.min target_duration (Z.of_nat (num_days prices)) in
  Ok (map fixed_usd rows, map fixed_shares rows, map fixed_cum rows, actual_end_day).

(** The state of one simulation row of strategy 2: the budget left, the
    row's three result arrays and its entry of [actual_end_days]. *)
Record RowState : Type := mkRowState {
  remaining_usd : Q;
  usd_row : list Q;
  shares_row : list Q;
  cum_row : list Q;
  end_day : Z
}.

(** The "Execute trade" block of strategy 2: the writes of one day into
    the row's arrays and the decrement of the budget. *)
Definition record_trade (row : list Q) (day : nat) (daily_trade : Q) (st : RowState) : RowState :=
  let usd := <[day := daily_trade]> (usd_row st) in
  let shares := <[day := daily_trade / (row !!! day)]> (shares_row st) in
  let cum :=
    if (day =? 0)%nat then <[day := shares !!! day]> (cum_row st)
    else <[day := (cum_row st !!! (day - 1)%nat) + (shares !!! day)]> (cum_row st) in
  {| remaining_usd := remaining_usd st - daily_trade;
     usd_row := usd; shares_row := shares; cum_row := cum;
     end_day := end_day st |}.

Definition fresh_row (total_usd : Q) (num_days : nat) : RowState :=
  {| remaining_usd := total_usd;
     usd_row := np_zeros num_days; shares_row := np_zeros num_days;
     cum_row := np_zeros num_days; end_day := 0%Z |}.

(** The configuration of the adaptive loop. *)
Record Config : Type := mkConfig {
  total_usd : Q;
  target_duration : Z;
  min_duration : Z;
  max_duration : Z
}.

(** [benchmark[day] if day < len(benchmark) else benchmark[-1]]. *)
Definition current_benchmark_at (benchmark : list Q) (day : nat) : result Q :=
  if (day <? length benchmark)%nat then Ok (benchmark !!! day)
  else match last benchmark with
       | Some b => Ok b
       | None => Raise IndexError
       end.

(** The amount chosen on one day, before it is clamped to the remaining
    budget: the body of the loop between the stop test and the
    "Execute trade" block. *)
Definition choose_daily_trade (cfg : Config) (first_day_value : Q)
    (benchmark row : list Q) (day : nat) (remaining_usd : Q) : result Q :=
  if (Z.of_nat day =? max_duration cfg - 1)%Z then Ok remaining_usd
  else
    let current_price := row !!! day in
    current_benchmark ← current_benchmark_at benchmark day;
    if (Z.of_nat day <? Z.min 10 (min_duration cfg))%Z then Ok first_day_value
    else
      let days_left := (max_duration cfg - Z.of_nat day)%Z in
      if Qltb current_price current_benchmark then
        if (Z.of_nat day >=? min_duration cfg)%Z then
          Ok (py_min remaining_usd (first_day_value * 5))
        else
          let days_to_min := Z.max 1 (min_duration cfg - Z.of_nat day) in
          Ok (remaining_usd / inject_Z days_to_min)
      else
        let days_to_max := Z.max 1 (max_duration cfg - Z.of_nat day) in
        let base_daily_trade := remaining_usd / inject_Z days_to_max in
        if Qltb remaining_usd (5 * first_day_value) && (days_left >? 5)%Z then
          Ok (py_min base_daily_trade (0.1 * first_day_value))
        else Ok base_daily_trade.

(** The [for day in range(min(num_days, max_duration))] loop of strategy 2
    over the days still to visit; the first case of the body is the
    [break]. *)
Fixpoint strategy_2_loop (cfg : Config) (first_day_value : Q)
    (benchmark row : list Q) (days : list nat) (st : RowState) : result RowState :=
  match days with
  | [] => Ok st
  | day :: days' =>
    if Qle_bool (remaining_usd st) 0.01 then
      Ok {| remaining_usd := remaining_usd st;
            usd_row := usd_row st; shares_row := shares_row st; cum_row := cum_row st;
            end_day := Z.of_nat day |}
    else
      daily_trade ← choose_daily_trade cfg first_day_value benchmark row day (remaining_usd st);
      let daily_trade := py_min daily_trade (remaining_usd st) in
      strategy_2_loop cfg first_day_value benchmark row days'
                      (record_trade row day daily_trade st)
  end.

(** Strategy 2, one simulation row: the loop and the end-day fix-up after it. *)
Definition strategy_2_row (cfg : Config) (initial_daily_usd : Q) (num_days : nat)
    (benchmark row : list Q) : result RowState :=
  st ← strategy_2_loop cfg initial_daily_usd benchmark row
         (py_range (Z.min (Z.of_nat num_days) (max_duration cfg)))
         (fresh_row (total_usd cfg) num_days);
  if (end_day st =? 0)%Z then
    Ok {| remaining_usd := remaining_usd st;
          usd_row := usd_row st; shares_row := shares_row st; cum_row := cum_row st;
          end_day := Z.min (max_duration cfg) (Z.of_nat num_days) |}
  else Ok st.

(** The sequential composition of the per-row runs: the first exception
    aborts the whole call. *)
Fixpoint for_each_row {A B} (f : A → result B) (l : list A) : result (list B) :=
  match l with
  | [] => Ok []
  | x :: l' => y ← f x; ys ← for_each_row f l'; Ok (y :: ys)
  end.

Definition execute_strategy_2 (prices : Prices) (total_usd : Q)
    (target_duration min_duration max_duration : Z) (benchmark : option (list Q))
    : result (list (list Q) * list (list Q) * list (list Q) * list Z) :=
  let benchmark :=
    match benchmark with
    | None => calculate_arithmetic_mean_benchmark prices 0
    | Some b => b
    end in
  if (target_duration =? 0)%Z then Raise ZeroDivisionError else
  let initial_daily_usd := total_usd / inject_Z target_duration in
  let cfg := mkConfig total_usd target_duration min_duration max_duration in
  rows ← for_each_row (strategy_2_row cfg initial_daily_usd (num_days prices) benchmark)
                      (price_rows prices);
  Ok (map usd_row rows, map shares_row rows, map cum_row rows, map end_day rows).

Definition execute_strategy_3 (prices : Prices) (total_usd : Q)
    (target_duration min_duration max_duration : Z) (benchmark_discount_bps : Q)
    : result (list (list Q) * list (list Q) * list (list Q) * list Z) :=
  let benchmark := calculate_arithmetic_mean_benchmark prices benchmark_discount_bps in
  execute_strategy_2 prices total_usd target_duration min_duration max_duration
                     (Some benchmark).

(** One entry of the dictionary returned by [execute_all_strategies]. *)
Record StrategyResult : Type := mkStrategyResult {
  usd_executed : list (list Q);
  shares_acquired : list (list Q);
  cumulative_shares : list (list Q);
  actual_end_days : list Z
}.

Definition execute_all_strategies (prices : Prices) (total_usd : Q)
    (target_duration min_duration max_duration : Z) (benchmark_discount_bps : Q)
    : result (gmap string StrategyResult) :=
  '(usd1, shares1, cum_shares1, end_day1) ←
     execute_strategy_1 prices total_usd target_duration;
  let results : gmap string StrategyResult :=
    <["strategy_1" := mkStrategyResult usd1 shares1 cum_shares1
                        (replicate (num_simulations prices) end_day1)]> ∅ in
  '(usd2, shares2, cum_shares2, end_days2) ←
     execute_strategy_2 prices total_usd target_duration min_duration max_duration None;
  let results :=
    <["strategy_2" := mkStrategyResult usd2 shares2 cum_shares2 end_days2]> results in
  '(usd3, shares3, cum_shares3, end_days3) ←
     execute_strategy_3 prices total_usd target_duration min_duration max_duration
                        benchmark_discount_bps;
  let results :=
    <["strategy_3" := mkStrategyResult usd3 shares3 cum_shares3 end_days3]> results in
  Ok results.

(** ** metrics.py *)

(** The metrics module indexes the arrays of one execution record by the
    simulation number; the arrays share their first dimension, and the
    lookups below are total. *)
Definition calculate_vwap (usd_executed shares_acquired : list (list Q))
    (actual_end_days : option (list Z)) : list Q :=
  map (λ sim,
         let '(total_usd, total_shares) :=
           match actual_end_days with
           | Some ends =>
             let end_day := ends !!! sim in
             (np_sum (slice_to end_day (usd_executed !!! sim)),
              np_sum (slice_to end_day (shares_acquired !!! sim)))
           | None =>
             (np_sum (usd_executed !!! sim), np_sum (shares_acquired !!! sim))
           end in
         if Qltb 0 total_shares then total_usd / total_shares else 0)
      (seq 0 (length usd_executed)).

Definition calculate_benchmark_price (prices : Prices)
    (actual_end_days : option (list Z)) (discount_bps : Q) : list Q :=
  let benchmark_prices :=
    map (λ sim,
           match actual_end_days with
           | Some ends =>
             let end_day := ends !!! sim in
             np_mean (slice_to end_day (price_rows prices !!! sim))
           | None => np_mean (price_rows prices !!! sim)
           end)
        (seq 0 (num_simulations prices)) in
  if Qltb 0 discount_bps then
    let discount_factor := 1 - discount_bps / 10000 in
    map (λ b, b * discount_factor) benchmark_prices
  else benchmark_prices.

(** A numpy [float64] that may have left the rationals. *)
Inductive npfloat : Type :=
| Finite (q : Q)
| PosInf
| NegInf
| NaN.

(** numpy's [/] on two finite cells: a zero divisor gives an infinity
    with the sign of the dividend, or NaN for [0 / 0]; nothing is raised.
    The sign of a zero is not tracked: a zero divisor is [+0.0]. *)
Definition np_divide (a b : Q) : npfloat :=
  if Qeq_bool b 0 then
    if Qeq_bool a 0 then NaN else if Qltb 0 a then PosInf else NegInf
  else Finite (a / b).

(** [x * k] for a finite scalar [k]. *)
Definition np_scale (x : npfloat) (k : Q) : npfloat :=
  match x with
  | Finite q => Finite (q * k)
  | PosInf => if Qeq_bool k 0 then NaN else if Qltb 0 k then PosInf else NegInf
  | NegInf => if Qeq_bool k 0 then NaN else if Qltb 0 k then NegInf else PosInf
  | NaN => NaN
  end.

Definition np_negative (x : npfloat) : npfloat :=
  match x with
  | Finite q => Finite (- q)
  | PosInf => NegInf
  | NegInf => PosInf
  | NaN => NaN
  end.

Definition finite_value (x : npfloat) : option Q :=
  match x with Finite q => Some q | _ => None end.

Definition calculate_execution_performance_bps (vwap benchmark_prices : list Q)
    : list npfloat :=
  let performance_bps :=
    zip_with (λ v b, np_scale (np_divide (v - b) b) 10000) vwap benchmark_prices in
  map np_negative performance_bps.

(** Sorting, for [np.median] and [np.percentile]. *)
Fixpoint insert_sorted (x : Q) (l : list Q) : list Q :=
  match l with
  | [] => [x]
  | y :: l' => if Qle_bool x y then x :: l else y :: insert_sorted x l'
  end.

Definition np_sort (a : list Q) : list Q := foldr insert_sorted [] a.

(** [np.median]: the mean of the middle element, or of the two middle
    elements, of the sorted array. *)
Definition np_median (a : list Q) : Q :=
  let s := np_sort a in
  let n := length s in
  if Nat.even n then np_mean (take 2 (drop (n / 2 - 1) s))
  else np_mean (take 1 (drop (n / 2) s)).

(** [np.percentile(a, q)] with the default linear interpolation: the
    virtual index [(n - 1) * q / 100] is split into its floor and its
    fractional part, and the two neighbours are interpolated. *)
Definition np_percentile (a : list Q) (q : Q) : Q :=
  let s := np_sort a in
  let n := length s in
  let virtual_index := inject_Z (Z.of_nat (n - 1)) * (q / 100) in
  let previous := Z.to_nat (Qfloor virtual_index) in
  let next := Nat.min (S previous) (n - 1) in
  let gamma := virtual_index - inject_Z (Z.of_nat previous) in
  let lo := s !!! previous in
  let hi := s !!! next in
  lo + (hi - lo) * gamma.

(** [np.min] and [np.max]: the reduction of an empty array raises. *)
Definition np_min (a : list Q) : result Q :=
  match a with
  | [] => Raise ValueError
  | x :: a' => Ok (foldl Qmin x a')
  end.

Definition np_max (a : list Q) : result Q :=
  match a with
  | [] => Raise ValueError
  | x :: a' => Ok (foldl Qmax x a')
  end.

Record Statistics : Type := mkStatistics {
  stat_mean : Q;
  stat_std : Q;
  stat_std_error : Q;
  stat_median : Q;
  stat_p25 : Q;
  stat_p75 : Q;
  stat_min : Q;
  stat_max : Q
}.

(** One entry of the dictionary returned by [calculate_all_metrics].  The
    statistics of a score vector with a non-finite entry are not
    modelled: the field is [None] there. *)
Record StrategyMetrics : Type := mkStrategyMetrics {
  vwap : list Q;
  benchmark_prices : list Q;
  performance_bps : list npfloat;
  statistics : option Statistics;
  metrics_end_days : list Z
}.

Section NumpyFunctions.

(** [np.sqrt] and [np.exp] on floats: two functions of the argument. *)
Variable np_sqrt : Q → Q.
Variable np_exp : Q → Q.

(** [np.std] with the default [ddof = 0]. *)
Definition np_std (a : list Q) : Q :=
  let m := np_mean a in
  np_sqrt (np_mean (map (λ x, (x - m) * (x - m)) a)).

(** The dictionary literal evaluates its entries in order; the first
    reduction that raises on an empty vector is modelled at [np_min]. *)
Definition calculate_performance_statistics (performance_bps : list Q)
    : result Statistics :=
  let mean := np_mean performance_bps in
  let std := np_std performance_bps in
  let std_error :=
    np_std performance_bps / np_sqrt (inject_Z (Z.of_nat (length performance_bps))) in
  let median := np_median performance_bps in
  let p25 := np_percentile performance_bps 25 in
  let p75 := np_percentile performance_bps 75 in
  min ← np_min performance_bps;
  max ← np_max performance_bps;
  Ok {| stat_mean := mean; stat_std := std; stat_std_error := std_error;
        stat_median := median; stat_p25 := p25; stat_p75 := p75;
        stat_min := min; stat_max := max |}.

(** The body of the loop of [calculate_all_metrics] for one strategy. *)
Definition strategy_metrics (prices : Prices) (benchmark_discount_bps : Q)
    (strategy_name : string) (results : StrategyResult) : result StrategyMetrics :=
  let vwap :=
    calculate_vwap (usd_executed results) (shares_acquired results)
                   (Some (actual_end_days results)) in
  let benchmark_prices :=
    if String.eqb strategy_name "strategy_3" then
      calculate_benchmark_price prices (Some (actual_end_days results))
                                benchmark_discount_bps
    else
      calculate_benchmark_price prices (Some (actual_end_days results)) 0 in
  let performance_bps := calculate_execution_performance_bps vwap benchmark_prices in
  stats ← match mapM finite_value performance_bps with
          | Some scores => Some <$> calculate_performance_statistics scores
          | None => Ok None
          end;
  Ok {| vwap := vwap;
        benchmark_prices := benchmark_prices;
        performance_bps := performance_bps;
        statistics := stats;
        metrics_end_days := actual_end_days results |}.

(** The loop over the items of [strategy_results]: the first exception
    aborts the call. *)
Definition calculate_all_metrics (strategy_results : gmap string StrategyResult)
    (prices : Prices) (benchmark_discount_bps : Q)
    : result (gmap string StrategyMetrics) :=
  map_fold (λ strategy_name results acc,
              metrics ← acc;
              entry ← strategy_metrics prices benchmark_discount_bps strategy_name results;
              Ok (<[strategy_name := entry]> metrics))
           (Ok ∅) strategy_results.

(** ** gbm.py *)

Section RandomState.

(** The process-wide generator of [np.random]: [np.random.seed] replaces
    its state, [np.random.standard_normal] draws a matrix and advances
    it. *)
Variable rng_state : Type.
Variable np_random_seed : Z → rng_state.
Variable np_random_standard_normal : rng_state → nat → nat → list (list Q) * rng_state.

(** [np.zeros((n, d))]: a negative dimension is an error. *)
Definition np_zeros2 (n d : Z) : result (list (list Q)) :=
  if (n <? 0)%Z || (d <? 0)%Z then Raise ValueError
  else Ok (replicate (Z.to_nat n) (np_zeros (Z.to_nat d))).

(** One step of the GBM loop: [prices[:, t] = prices[:, t-1] * np.exp(...)]. *)
Definition gbm_step (mu sigma dt : Q) (shocks : list (list Q))
    (prices : list (list Q)) (t : nat) : list (list Q) :=
  zip_with (λ row z,
              <[t := (row !!! (t - 1)%nat) *
                     np_exp ((mu - 0.5 * sigma ^ 2) * dt
                             + sigma * np_sqrt dt * (z !!! (t - 1)%nat))]> row)
           prices shocks.

(** [simulate_gbm_paths], threaded through the state of the generator it
    finds ([g]) and returning the state it leaves. *)
Definition simulate_gbm_paths (g : rng_state) (S0 : Q) (num_days : Z)
    (drift_pct volatility_pct : Q) (num_simulations : Z) (random_seed : option Z)
    : result (list (list Q)) * rng_state :=
  let seeded :=
    match random_seed with
    | Some seed =>
      if (0 <=? seed)%Z && (seed <? 2 ^ 32)%Z then Ok (np_random_seed seed)
      else Raise ValueError
    | None => Ok g
    end in
  match seeded with
  | Raise e => (Raise e, g)
  | Ok g =>
    let mu := drift_pct / 100 in
    let sigma := volatility_pct / 100 in
    let dt := 1 / 252 in
    match np_zeros2 num_simulations num_days with
    | Raise e => (Raise e, g)
    | Ok prices =>
      if (num_days =? 0)%Z then (Raise IndexError, g) else
      let prices := map (λ row, <[0%nat := S0]> row) prices in
      let '(shocks, g') :=
        np_random_standard_normal g (Z.to_nat num_simulations) (Z.to_nat (num_days - 1)) in
      let prices :=
        foldl (gbm_step mu sigma dt shocks) prices (seq 1 (Z.to_nat num_days - 1)) in
      (Ok prices, g')
    end
  end.

End RandomState.

End NumpyFunctions.

(** ** The specification's own formulations

    The definitions of this part follow the words of the specification,
    not the code; the theorems compare them with the embedding above. *)

(** The sum of [f 0 .. f (n - 1)]. *)
Definition sum_over (n : nat) (f : nat → Q) : Q := np_sum (map f (seq 0 n)).

(** The arithmetic mean of all [N * (d + 1)] prices in rows [0 .. N-1] and
    columns [0 .. d] of the batch. *)
Definition expanding_mean (prices : Prices) (d : nat) : Q :=
  sum_over (num_simulations prices)
           (λ i, sum_over (S d) (λ j, (price_rows prices !!! i) !!! j))
  / inject_Z (Z.of_nat (num_simulations prices * S d)).

(** [x] equals [y] to within the absolute tolerance [tol]. *)
Definition within (tol x y : Q) : Prop := Qabs (x - y) <= tol.

(** The decision-benchmark value consulted on a day: the series' entry
    for that day, clamped to the last available entry. *)
Definition decision_benchmark_value (series : list Q) (day : nat) : Q :=
  series !!! Nat.min day (length series - 1).

(** The outcome of the Adaptive strategy's per-day decision. *)
Inductive decision : Type :=
| Stop
| Trade (amount : Q).

Definition trade_of (d : decision) : Q :=
  match d with Stop => 0 | Trade amount => amount end.

(** The decision tree of the Adaptive strategy, in the order in which the
    specification lists its branches. *)
Definition adaptive_decision (cfg : Config) (day : nat)
    (remaining_budget price benchmark : Q) : decision :=
  let first_day_value := total_usd cfg / inject_Z (target_duration cfg) in
  let day_index := Z.of_nat day in
  if Qlt_le_dec 0.01 remaining_budget then
    let trade :=
      if decide (day_index = max_duration cfg - 1)%Z then remaining_budget
      else if decide (day_index < Z.min 10 (min_duration cfg))%Z then first_day_value
      else if Qlt_le_dec price benchmark then
        if decide (min_duration cfg ≤ day_index)%Z then
          Qmin remaining_budget (5 * first_day_value)
        else remaining_budget / inject_Z (Z.max 1 (min_duration cfg - day_index))
      else
        let base_trade :=
          remaining_budget / inject_Z (Z.max 1 (max_duration cfg - day_index)) in
        if Qlt_le_dec remaining_budget (5 * first_day_value) then
          if decide (5 < max_duration cfg - day_index)%Z then
            Qmin base_trade (0.1 * first_day_value)
          else base_trade
        else base_trade in
    Trade (Qmin trade remaining_budget)
  else Stop.

(** The benchmark strategy 2 trades against: the one it is given, or the
    undiscounted expanding mean. *)
Definition benchmark_used (prices : Prices) (benchmark : option (list Q)) : list Q :=
  match benchmark with
  | None => calculate_arithmetic_mean_benchmark prices 0
  | Some b => b
  end.

(** ** Loop invariants *)

(** What holds of a row's arrays when the loop is about to visit [day]:
    the arrays have their length, the cells from [day] on are still zero,
    and the budget is split between what is left and what was spent. *)
Definition row_inv (total : Q) (D day : nat) (st : RowState) : Prop :=
  length (usd_row st) = D
  ∧ length (shares_row st) = D
  ∧ (∀ d, (day ≤ d)%nat → (d < D)%nat →
          usd_row st !! d = Some 0 ∧ shares_row st !! d = Some 0)
  ∧ remaining_usd st + np_sum (take day (usd_row st)) == total.

(** The number of days the adaptive loop may visit:
    [min(num_days, max_duration)]. *)
Definition processed_days (cfg : Config) (D : nat) : nat :=
  Z.to_nat (Z.min (Z.of_nat D) (max_duration cfg)).

(** The amount traded on each processed day of a finished row is the
    value of the decision tree at the budget that was left that day: the
    total budget less what the earlier days spent. *)
Definition follows_decision_tree (cfg : Config) (D : nat) (benchmark row usd : list Q) : Prop :=
  ∀ day, (day < processed_days cfg D)%nat →
    ∃ trade,
      usd !! day = Some trade
      ∧ trade == trade_of (adaptive_decision cfg day
                             (total_usd cfg - np_sum (take day usd))
                             (row !!! day)
                             (decision_benchmark_value benchmark day)).

(** The cells of a row from the end day on are zero. *)
Definition idle_from (D : nat) (e : Z) (usd shares : list Q) : Prop :=
  ∀ day, (e ≤ Z.of_nat day)%Z → (day < D)%nat →
    usd !! day = Some 0 ∧ shares !! day = Some 0.

(** What a finished row of the adaptive loop satisfies. *)
Definition adaptive_row_facts (cfg : Config) (D : nat) (lo : Q) (benchmark row : list Q)
    (st : RowState) : Prop :=
  length (usd_row st) = D
  ∧ length (shares_row st) = D
  ∧ follows_decision_tree cfg D benchmark row (usd_row st)
  ∧ ((1 ≤ max_duration cfg)%Z → (max_duration cfg ≤ Z.of_nat D)%Z →
     (1 ≤ end_day st)%Z ∧ (end_day st ≤ max_duration cfg)%Z
     ∧ idle_from D (end_day st) (usd_row st) (shares_row st)
     ∧ remaining_usd st + np_sum (slice_to (end_day st) (usd_row st)) == total_usd cfg
     ∧ remaining_usd st <= 0.01
     ∧ (lo <= total_usd cfg → lo <= remaining_usd st)).

(** The budget invariant of an execution record, for every simulation
    row: the spend up to the end day is the total budget to within 0.01,
    and nothing is spent or acquired from the end day on. *)
Definition budget_conserved (D : nat) (total : Q) (r : StrategyResult) : Prop :=
  ∀ sim, (sim < length (usd_executed r))%nat →
    ∃ usd shares e,
      usd_executed r !! sim = Some usd
      ∧ shares_acquired r !! sim = Some shares
      ∧ actual_end_days r !! sim = Some e
      ∧ within 0.01 (np_sum (slice_to e usd)) total
      ∧ idle_from D e usd shares.

(** The arithmetic mean of a simulation's own prices over days
    [0 .. end_day - 1]. *)
Definition path_mean (row : list Q) (end_day : Z) : Q :=
  sum_over (Z.to_nat end_day) (λ day, row !!! day) / inject_Z end_day.

(** The performance score in basis points. *)
Definition performance_score (vwap evaluation_benchmark : Q) : Q :=
  - ((vwap - evaluation_benchmark) / evaluation_benchmark) * 10000.

(** The mean and the population variance of a score vector, written as
    sums over its indices. *)
Definition vector_mean (v : list Q) : Q :=
  sum_over (length v) (λ i, v !!! i) / inject_Z (Z.of_nat (length v)).

Definition population_variance (v : list Q) : Q :=
  sum_over (length v) (λ i, (v !!! i - vector_mean v) * (v !!! i - vector_mean v))
  / inject_Z (Z.of_nat (length v)).

(** The value at the fractional position [h = (N - 1) * q / 100] of a
    sorted vector: the weighted average of the two entries around [h], with
    the weight of the upper one equal to the fractional part of [h]. *)
Definition interpolated_percentile (sorted : list Q) (q : Q) : Q :=
  let h := inject_Z (Z.of_nat (length sorted - 1)) * (q / 100) in
  let k := Z.to_nat (Qfloor h) in
  let weight := h - inject_Z (Z.of_nat k) in
  (1 - weight) * sorted !!! k
  + weight * sorted !!! Nat.min (S k) (length sorted - 1).

(** ** The remaining functions of the modules *)

(** *** benchmarks.py *)

Definition apply_discount_to_benchmark (benchmark : list Q) (discount_bps : Q) : list Q :=
  if Qeq_bool discount_bps 0 then benchmark
  else
    let discount_factor := 1 - discount_bps / 10000 in
    map (λ b, b * discount_factor) benchmark.

(** The benchmark of a strategy number; [None] is Python's [None]. *)
Definition calculate_benchmark_for_strategy (prices : Prices) (strategy : Z)
    (discount_bps : Q) : result (option (list Q)) :=
  if (strategy =? 1)%Z then Ok None
  else if (strategy =? 2)%Z then Ok (Some (calculate_arithmetic_mean_benchmark prices 0))
  else if (strategy =? 3)%Z then
    Ok (Some (calculate_arithmetic_mean_benchmark prices discount_bps))
  else Raise ValueError.

(** *** Execution records *)

(** The three arrays of one simulation row agree with each other up to
    the end day [e]: the shares of a day are its spend over its price, the
    cumulative shares of a day before [e] are the shares acquired so far,
    and all three arrays are zero from [e] on. *)
Definition row_consistent (D : nat) (row usd shares cum : list Q) (e : Z) : Prop :=
  (∀ d u s, usd !! d = Some u → shares !! d = Some s → s == u / (row !!! d))
  ∧ (∀ d c, (Z.of_nat d < e)%Z → cum !! d = Some c →
            c == np_sum (take (S d) shares))
  ∧ (∀ d, (e ≤ Z.of_nat d)%Z → (d < D)%nat →
          usd !! d = Some 0 ∧ shares !! d = Some 0 ∧ cum !! d = Some 0).

(** What the adaptive loop has written when it is about to visit [day]. *)
Definition shares_inv (D : nat) (row : list Q) (day : nat) (st : RowState) : Prop :=
  length (usd_row st) = D
  ∧ length (shares_row st) = D
  ∧ length (cum_row st) = D
  ∧ (∀ d, (d < day)%nat →
       ∃ u, usd_row st !! d = Some u
            ∧ shares_row st !! d = Some (u / (row !!! d))
            ∧ ∃ c, cum_row st !! d = Some c
                   ∧ c == np_sum (take (S d) (shares_row st)))
  ∧ (∀ d, (day ≤ d)%nat → (d < D)%nat →
       usd_row st !! d = Some 0 ∧ shares_row st !! d = Some 0
       ∧ cum_row st !! d = Some 0).

(** The same for the loop of strategy 1. *)
Definition fixed_inv (D : nat) (row : list Q) (daily_usd : Q) (day : nat) (a : FixedRow)
    : Prop :=
  length (fixed_usd a) = D
  ∧ length (fixed_shares a) = D
  ∧ length (fixed_cum a) = D
  ∧ (∀ d, (d < day)%nat →
       fixed_usd a !! d = Some daily_usd
       ∧ fixed_shares a !! d = Some (daily_usd / (row !!! d))
       ∧ ∃ c, fixed_cum a !! d = Some c
              ∧ c == np_sum (take (S d) (fixed_shares a)))
  ∧ (∀ d, (day ≤ d)%nat → (d < D)%nat →
       fixed_usd a !! d = Some 0 ∧ fixed_shares a !! d = Some 0
       ∧ fixed_cum a !! d = Some 0).

(** *** metrics.py *)

(** The arrays of an execution record have one entry per simulation of the
    price batch. *)
Definition record_shaped (prices : Prices) (r : StrategyResult) : Prop :=
  length (usd_executed r) = num_simulations prices
  ∧ length (shares_acquired r) = num_simulations prices
  ∧ length (actual_end_days r) = num_simulations prices.

(** *** gbm.py *)

(** The factor by which a path moves from day [t - 1] to day [t], for the
    row [z] of shocks of its simulation. *)
Definition gbm_factor (np_sqrt np_exp : Q → Q) (mu sigma dt : Q) (z : list Q) (t : nat) : Q :=
  np_exp ((mu - 0.5 * sigma ^ 2) * dt + sigma * np_sqrt dt * (z !!! (t - 1)%nat)).

(** A row of the price array after the loop of [simulate_gbm_paths] has
    filled the days up to [k]: day 0 holds [S0], each later day up to [k]
    is the day before times the factor, the days after [k] are still 0. *)
Definition gbm_row_upto (np_sqrt np_exp : Q → Q) (mu sigma dt S0 : Q) (D k : nat)
    (z row : list Q) : Prop :=
  length row = D
  ∧ row !! 0%nat = Some S0
  ∧ (∀ t, (1 ≤ t)%nat → (t ≤ k)%nat →
          row !!! t = row !!! (t - 1)%nat * gbm_factor np_sqrt np_exp mu sigma dt z t)
  ∧ (∀ t, (k < t)%nat → (t < D)%nat → row !! t = Some 0).

(** [calculate_price_statistics]: [np.mean] and [np.std] along axis 0,
    one entry per day, each over the column of that day. *)
Definition calculate_price_statistics (np_sqrt : Q → Q) (prices : Prices)
    : list Q * list Q :=
  let column day := map (λ row : list Q, row !!! day) (price_rows prices) in
  let mean_prices := map (λ day, np_mean (column day)) (seq 0 (num_days prices)) in
  let std_prices := map (λ day, np_std np_sqrt (column day)) (seq 0 (num_days prices)) in
  (mean_prices, std_prices).

(** The key [f'{sign}{n}σ'] of an envelope, for an integer level [n]. *)
Definition envelope_key (sign : string) (n : Z) : string := sign +:+ pretty n +:+ "σ".

(** [calculate_envelopes] for integer levels: the loop assigns the upper
    and then the lower band of each level. *)
Definition calculate_envelopes (mean_prices std_prices : list Q) (n_sigma_levels : list Z)
    : gmap string (list Q) :=
  foldl (λ envelopes n,
           let envelopes :=
             <[envelope_key "+" n :=
                 zip_with (λ m s, m + inject_Z n * s) mean_prices std_prices]> envelopes in
           <[envelope_key "-" n :=
               zip_with (λ m s, m - inject_Z n * s) mean_prices std_prices]> envelopes)
        ∅ n_sigma_levels.
(** * Properties *)

(** ** Comparisons and sums *)

Lemma Qltb_lt (x y : Q) : Qltb x y = true ↔ x < y.
Proof.
  unfold Qltb. rewrite negb_true_iff, <- not_true_iff_false, Qle_bool_iff.
  split; [apply Qnot_le_lt | apply Qlt_not_le].
Qed.

Lemma Qltb_ge (x y : Q) : Qltb x y = false ↔ y <= x.
Proof. unfold Qltb. rewrite negb_false_iff. apply Qle_bool_iff. Qed.

Lemma py_min_Qmin (a b : Q) : py_min a b = Qmin a b.
Proof.
  unfold py_min, Qmin, GenericMinMax.gmin.
  destruct (Qltb b a) eqn:E.
  - apply Qltb_lt in E. apply Qgt_alt in E. by rewrite E.
  - apply Qltb_ge in E. pose proof (proj1 (Qle_alt a b) E) as C.
    destruct (a ?= b); congruence.
Qed.

Lemma py_min_le_r (a b : Q) : py_min a b <= b.
Proof.
  unfold py_min. destruct (Qltb b a) eqn:E; [lra|]. by apply Qltb_ge in E.
Qed.

Lemma inject_Z_nat_nonzero (n : nat) : (0 < n)%nat → ¬ inject_Z (Z.of_nat n) == 0.
Proof. intros Hn H. unfold Qeq in H. simpl in H. lia. Qed.

Lemma np_sum_app (a b : list Q) : np_sum (a ++ b) == np_sum a + np_sum b.
Proof. induction a as [|x a IH]; simpl; [|rewrite IH]; lra. Qed.

Lemma np_sum_replicate_zero (n : nat) : np_sum (replicate n 0) == 0.
Proof. induction n as [|n IH]; simpl; [|rewrite IH]; lra. Qed.

Lemma np_sum_replicate (n : nat) (x : Q) :
  np_sum (replicate n x) == inject_Z (Z.of_nat n) * x.
Proof.
  induction n as [|n IH]; [change (0 == 0 * x); lra|].
  change (np_sum (replicate (S n) x)) with (x + np_sum (replicate n x)).
  rewrite IH, Nat2Z.inj_succ. unfold Z.succ. rewrite inject_Z_plus.
  change (inject_Z 1) with 1. lra.
Qed.

Lemma np_sum_ext (a b : list Q) : Forall2 Qeq a b → np_sum a == np_sum b.
Proof. induction 1 as [|x y a b Hxy _ IH]; simpl; [|rewrite Hxy, IH]; lra. Qed.

Lemma np_sum_concat (ls : list (list Q)) : np_sum (concat ls) == np_sum (map np_sum ls).
Proof.
  induction ls as [|l ls IH]; simpl; [lra|]. by rewrite np_sum_app, IH.
Qed.

(** ** Arrays filled by a loop *)

(** A loop that assigns cell [day] on day [day] leaves the computed
    prefix followed by the untouched cells. *)
Lemma fill_loop {A} (f : nat → A) (a : list A) (k : nat) :
  (k ≤ length a)%nat →
  foldl (λ a day, <[day := f day]> a) a (seq 0 k) = map f (seq 0 k) ++ drop k a.
Proof.
  induction k as [|k IH]; intros Hk; [done|].
  rewrite seq_S, foldl_app, map_app, IH by lia. simpl.
  destruct (lookup_lt_is_Some_2 a k) as [x Hx]; [lia|].
  rewrite (drop_S a x k) by done.
  replace k with (length (map f (seq 0 k)) + 0)%nat at 1
    by (rewrite length_map, length_seq; lia).
  rewrite insert_app_r. simpl. by rewrite <- app_assoc.
Qed.

Lemma list_as_map `{!Inhabited A} (a : list A) :
  a = map (λ i, a !!! i) (seq 0 (length a)).
Proof.
  apply list_eq. intros i. rewrite list_lookup_fmap.
  destruct (decide (i < length a)%nat) as [Hi|Hi].
  - rewrite lookup_seq_lt by done. simpl.
    destruct (lookup_lt_is_Some_2 a i Hi) as [x Hx].
    by rewrite (list_lookup_total_correct _ _ _ Hx).
  - rewrite lookup_seq_ge, lookup_ge_None_2 by lia. done.
Qed.

Lemma take_as_map `{!Inhabited A} (a : list A) (k : nat) :
  (k ≤ length a)%nat → take k a = map (λ i, a !!! i) (seq 0 k).
Proof.
  intros Hk. rewrite (list_as_map (take k a)), length_take_le by done.
  apply map_ext_in. intros i Hi%in_seq.
  apply list_lookup_total_correct. rewrite lookup_take_lt by lia.
  apply list_lookup_lookup_total_lt. lia.
Qed.

(** ** The decision benchmark ([benchmarks.py]) *)

Lemma benchmark_loop_cells (prices : Prices) :
  foldl (λ benchmark day, <[day := np_mean (columns_upto (S day) prices)]> benchmark)
        (np_zeros (num_days prices)) (seq 0 (num_days prices))
  = map (λ day, np_mean (columns_upto (S day) prices)) (seq 0 (num_days prices)).
Proof.
  rewrite fill_loop by (unfold np_zeros; rewrite length_replicate; lia).
  unfold np_zeros. rewrite drop_replicate, Nat.sub_diag. apply app_nil_r.
Qed.

Lemma columns_upto_length (prices : Prices) (k : nat) :
  prices_wf prices → (k ≤ num_days prices)%nat →
  length (columns_upto k prices) = (num_simulations prices * k)%nat.
Proof.
  unfold prices_wf, columns_upto, num_simulations. intros Hwf Hk.
  induction Hwf as [|row rows Hrow _ IH]; [done|].
  simpl. rewrite length_app, IH, length_take_le by lia. done.
Qed.

Lemma columns_upto_sum (prices : Prices) (k : nat) :
  prices_wf prices → (k ≤ num_days prices)%nat →
  np_sum (columns_upto k prices)
  == sum_over (num_simulations prices)
              (λ i, sum_over k (λ j, (price_rows prices !!! i) !!! j)).
Proof.
  unfold prices_wf, columns_upto, num_simulations, sum_over. intros Hwf Hk.
  rewrite np_sum_concat, map_map.
  rewrite (list_as_map (price_rows prices)) at 1. rewrite map_map.
  apply np_sum_ext, Forall2_fmap, Forall_Forall2_diag, Forall_forall.
  intros i Hi%elem_of_seq.
  rewrite take_as_map; [done|].
  destruct (lookup_lt_is_Some_2 (price_rows prices) i) as [row Hrow]; [lia|].
  rewrite (list_lookup_total_correct _ _ _ Hrow).
  by rewrite (Forall_lookup_1 _ _ _ _ Hwf Hrow).
Qed.

Lemma np_mean_columns_upto (prices : Prices) (d : nat) :
  prices_wf prices → (d < num_days prices)%nat →
  np_mean (columns_upto (S d) prices) == expanding_mean prices d.
Proof.
  intros Hwf Hd. unfold np_mean, expanding_mean.
  rewrite columns_upto_length, columns_upto_sum by (done || lia). done.
Qed.

Lemma sum_over_const (n : nat) (f : nat → Q) (c : Q) :
  (∀ i, (i < n)%nat → f i == c) → sum_over n f == inject_Z (Z.of_nat n) * c.
Proof.
  intros Hf. unfold sum_over. rewrite <- np_sum_replicate.
  apply np_sum_ext, Forall2_same_length_lookup. split.
  - by rewrite length_map, length_seq, length_replicate.
  - intros i x y Hx Hy. apply lookup_replicate in Hy as [-> Hi].
    rewrite list_lookup_fmap, lookup_seq_lt in Hx by done.
    injection Hx as <-. by apply Hf.
Qed.

Lemma expanding_mean_const (prices : Prices) (d : nat) (c : Q) :
  (0 < num_simulations prices)%nat →
  (∀ i j, (i < num_simulations prices)%nat → (j < S d)%nat →
          (price_rows prices !!! i) !!! j == c) →
  expanding_mean prices d == c.
Proof.
  intros HN Hcells. unfold expanding_mean.
  rewrite (sum_over_const _ _ (inject_Z (Z.of_nat (S d)) * c)).
  - rewrite Nat2Z.inj_mul, inject_Z_mult. field.
    split; apply inject_Z_nat_nonzero; lia.
  - intros i Hi. apply sum_over_const. intros j Hj. by apply Hcells.
Qed.

(** C4. The decision-benchmark series of a batch of shape (N, D) has
    length D; its day-d entry is the arithmetic mean of the N*(d+1) prices
    of rows 0..N-1 and columns 0..d, multiplied by (1 - discount_bps/10000)
    when the discount is positive and left as it is when the discount is
    zero; a batch of prices all equal to 100 with a discount of 100 bps
    gives the constant series 99. *)
Theorem decision_benchmark_is_expanding_mean (prices : Prices) (discount_bps : Q) :
  prices_wf prices →
  (0 < num_simulations prices)%nat →
  0 <= discount_bps →
  let benchmark := calculate_arithmetic_mean_benchmark prices discount_bps in
  length benchmark = num_days prices
  ∧ (∀ d, (d < num_days prices)%nat →
       ∃ b, benchmark !! d = Some b
            ∧ (0 < discount_bps →
               b == expanding_mean prices d * (1 - discount_bps / 10000))
            ∧ (discount_bps == 0 → b == expanding_mean prices d))
  ∧ (discount_bps == 0 →
     benchmark = calculate_arithmetic_mean_benchmark prices 0)
  ∧ (Forall (Forall (λ p, p == 100)) (price_rows prices) → discount_bps == 100 →
     Forall (λ b, b == 99) benchmark).
Proof.
  intros Hwf HN Hdisc benchmark.
  assert (Hcell : ∀ d, (d < num_days prices)%nat →
            ∃ b, benchmark !! d = Some b
                 ∧ (0 < discount_bps →
                    b == expanding_mean prices d * (1 - discount_bps / 10000))
                 ∧ (discount_bps == 0 → b == expanding_mean prices d)).
  { intros d Hd. subst benchmark. unfold calculate_arithmetic_mean_benchmark.
    rewrite benchmark_loop_cells.
    destruct (Qltb 0 discount_bps) eqn:E.
    - apply Qltb_lt in E. eexists. split.
      + rewrite !list_lookup_fmap, lookup_seq_lt by done. simpl. done.
      + split; [intros _|intros H0; lra].
        by rewrite np_mean_columns_upto.
    - apply Qltb_ge in E. eexists. split.
      + rewrite list_lookup_fmap, lookup_seq_lt by done. simpl. done.
      + split; [intros H0; lra|intros _]. by apply np_mean_columns_upto. }
  assert (Hlen : length benchmark = num_days prices).
  { subst benchmark. unfold calculate_arithmetic_mean_benchmark.
    rewrite benchmark_loop_cells.
    destruct (Qltb 0 discount_bps); rewrite ?length_map, length_seq; done. }
  split; [done|]. split; [done|]. split.
  - intros H0. subst benchmark. unfold calculate_arithmetic_mean_benchmark.
    assert (Qltb 0 discount_bps = false) as -> by (apply Qltb_ge; lra).
    assert (Qltb 0 0 = false) as -> by (apply Qltb_ge; lra). done.
  - intros Hall H100. apply Forall_lookup. intros d b Hb.
    assert (Hd : (d < num_days prices)%nat)
      by (rewrite <- Hlen; by eapply lookup_lt_Some).
    destruct (Hcell d Hd) as (b' & Hb' & Hpos & _).
    rewrite Hb in Hb'. injection Hb' as <-.
    rewrite Hpos by lra. rewrite H100.
    assert (Hmean : expanding_mean prices d == 100).
    { apply expanding_mean_const; [done..|].
      intros i j Hi Hj.
      destruct (lookup_lt_is_Some_2 (price_rows prices) i Hi) as [row Hrow].
      rewrite (list_lookup_total_correct _ _ _ Hrow).
      pose proof (Forall_lookup_1 _ _ _ _ Hwf Hrow) as Hlenrow. simpl in Hlenrow.
      destruct (lookup_lt_is_Some_2 row j) as [p Hp]; [lia|].
      rewrite (list_lookup_total_correct _ _ _ Hp).
      exact (Forall_lookup_1 _ _ _ _ (Forall_lookup_1 _ _ _ _ Hall Hrow) Hp). }
    rewrite Hmean. unfold Qeq. reflexivity.
Qed.

Lemma decision_benchmark_is_expanding_mean_witness :
  Forall (λ b, b == 99)
    (calculate_arithmetic_mean_benchmark
       (mkPrices 3 [[100; 100; 100]; [100; 100; 100]]) 100).
Proof.
  assert (Hwf : prices_wf (mkPrices 3 [[100; 100; 100]; [100; 100; 100]]))
    by (repeat constructor).
  assert (HN : Nat.lt 0 (num_simulations (mkPrices 3 [[100; 100; 100]; [100; 100; 100]])))
    by (unfold num_simulations; simpl; lia).
  assert (Hdisc : 0 <= 100) by lra.
  destruct (decision_benchmark_is_expanding_mean
              (mkPrices 3 [[100; 100; 100]; [100; 100; 100]]) 100 Hwf HN Hdisc)
    as (_ & _ & _ & Hconst).
  apply Hconst; [|reflexivity]. repeat constructor.
Defined.

(** ** The strategies ([strategies.py]) *)

Lemma Qmult_comm_eq (x y : Q) : x * y = y * x.
Proof. unfold Qmult. f_equal; [apply Z.mul_comm | apply Pos.mul_comm]. Qed.

Lemma current_benchmark_at_value (benchmark : list Q) (day : nat) :
  benchmark ≠ [] →
  current_benchmark_at benchmark day = Ok (decision_benchmark_value benchmark day).
Proof.
  intros Hne. unfold current_benchmark_at, decision_benchmark_value.
  destruct (day <? length benchmark)%nat eqn:E.
  - apply Nat.ltb_lt in E. by rewrite Nat.min_l by lia.
  - apply Nat.ltb_ge in E. rewrite Nat.min_r by lia.
    destruct (last benchmark) as [b|] eqn:Hlast.
    + rewrite last_lookup in Hlast.
      rewrite Nat.sub_1_r. by rewrite (list_lookup_total_correct _ _ _ Hlast).
    + by apply last_None in Hlast.
Qed.

Ltac decision_done :=
  eexists; split; [reflexivity | rewrite ?py_min_Qmin; reflexivity].

(** The body of the loop computes the decision tree of the specification. *)
Lemma choose_daily_trade_decision (cfg : Config) (benchmark row : list Q)
    (day : nat) (remaining : Q) :
  benchmark ≠ [] →
  Qle_bool remaining 0.01 = false →
  ∃ daily_trade,
    choose_daily_trade cfg (total_usd cfg / inject_Z (target_duration cfg))
                       benchmark row day remaining = Ok daily_trade
    ∧ adaptive_decision cfg day remaining (row !!! day)
                        (decision_benchmark_value benchmark day)
      = Trade (py_min daily_trade remaining).
Proof.
  intros Hne Hrem. unfold choose_daily_trade, adaptive_decision.
  rewrite current_benchmark_at_value by done. simpl.
  set (fdv := total_usd cfg / inject_Z (target_duration cfg)).
  set (b := decision_benchmark_value benchmark day).
  destruct (Qlt_le_dec 0.01 remaining) as [_|Hle];
    [|apply Qle_bool_iff in Hle; congruence].
  rewrite !py_min_Qmin.
  destruct (Z.eqb_spec (Z.of_nat day) (max_duration cfg - 1)) as [Hlast|Hlast];
    [rewrite decide_True by done; decision_done|rewrite decide_False by done].
  destruct (Z.ltb_spec (Z.of_nat day) (Z.min 10 (min_duration cfg))) as [Hramp|Hramp];
    [rewrite decide_True by done; decision_done|rewrite decide_False by lia].
  destruct (Qltb (row !!! day) b) eqn:Hprice.
  - apply Qltb_lt in Hprice.
    destruct (Qlt_le_dec (row !!! day) b) as [_|Hge]; [|lra].
    destruct (Z.geb_spec (Z.of_nat day) (min_duration cfg)) as [Hmin|Hmin].
    + rewrite decide_True by lia. rewrite (Qmult_comm_eq fdv 5). decision_done.
    + rewrite decide_False by lia. decision_done.
  - apply Qltb_ge in Hprice.
    destruct (Qlt_le_dec (row !!! day) b) as [Hlt|_]; [lra|].
    destruct (Qltb remaining (5 * fdv)) eqn:Hsmall.
    + apply Qltb_lt in Hsmall.
      destruct (Qlt_le_dec remaining (5 * fdv)) as [_|Hge]; [|lra].
      destruct (Z.gtb_spec (max_duration cfg - Z.of_nat day) 5) as [Hleft|Hleft].
      * rewrite decide_True by lia. simpl. decision_done.
      * rewrite decide_False by lia. simpl. decision_done.
    + apply Qltb_ge in Hsmall.
      destruct (Qlt_le_dec remaining (5 * fdv)) as [Hlt|_]; [lra|]. simpl.
      decision_done.
Qed.

(** The decision depends on the remaining budget only up to [==]. *)
Lemma adaptive_decision_remaining_ext (cfg : Config) (day : nat) (r1 r2 price b : Q) :
  r1 == r2 →
  trade_of (adaptive_decision cfg day r1 price b)
  == trade_of (adaptive_decision cfg day r2 price b).
Proof.
  intros Hr. unfold adaptive_decision.
  destruct (Qlt_le_dec 0.01 r1), (Qlt_le_dec 0.01 r2); try lra; simpl.
  repeat case_decide; try (rewrite Hr; reflexivity);
    destruct (Qlt_le_dec price b); try (rewrite Hr; reflexivity);
    destruct (Qlt_le_dec r1 _), (Qlt_le_dec r2 _); try lra;
    rewrite Hr; reflexivity.
Qed.

Lemma np_sum_take_zero_tail (a : list Q) (d e : nat) :
  (∀ i, (d ≤ i)%nat → (i < length a)%nat → a !! i = Some 0) →
  (d ≤ e)%nat →
  np_sum (take e a) == np_sum (take d a).
Proof.
  intros Hzero. induction 1 as [|e Hde IH]; [done|].
  destruct (decide (e < length a)%nat) as [He|He].
  - rewrite (take_S_r a e 0) by (apply Hzero; lia).
    rewrite np_sum_app, IH. simpl. lra.
  - rewrite <- IH. rewrite !take_ge by lia. done.
Qed.

Lemma row_inv_later (total : Q) (D d e : nat) (st : RowState) :
  row_inv total D d st → (d ≤ e)%nat → row_inv total D e st.
Proof.
  intros (Husd & Hshares & Hzero & Hsum) Hde.
  repeat split; try done.
  - apply Hzero; lia.
  - apply Hzero; lia.
  - rewrite (np_sum_take_zero_tail _ d e); [done| |done].
    intros i Hi Hlen. apply Hzero; lia.
Qed.

Lemma row_inv_record_trade (total : Q) (D day : nat) (row : list Q)
    (daily_trade : Q) (st : RowState) :
  row_inv total D day st → (day < D)%nat →
  row_inv total D (S day) (record_trade row day daily_trade st).
Proof.
  intros (Husd & Hshares & Hzero & Hsum) Hday.
  unfold row_inv, record_trade. simpl.
  rewrite !length_insert. repeat split; try done.
  - rewrite list_lookup_insert_ne by lia. apply Hzero; lia.
  - rewrite list_lookup_insert_ne by lia. apply Hzero; lia.
  - rewrite (take_S_r _ day daily_trade)
      by (apply list_lookup_insert_eq; lia).
    rewrite take_insert_ge by lia. rewrite np_sum_app. simpl.
    rewrite <- Hsum. lra.
Qed.

Lemma fresh_row_inv (total : Q) (D : nat) : row_inv total D 0 (fresh_row total D).
Proof.
  unfold row_inv, fresh_row, np_zeros. simpl. rewrite length_replicate.
  repeat split; try done.
  - by apply lookup_replicate_2.
  - by apply lookup_replicate_2.
  - simpl. lra.
Qed.

(** The loop of strategy 2 from day [a] on, for [n] more days: it does not
    raise, it leaves the cells before [a] as they were, it trades on each
    day what the decision tree says, and it ends either at a [break] on
    some day [d] or after the last day. *)
Lemma strategy_2_loop_spec (cfg : Config) (benchmark row : list Q) (D : nat) (lo : Q) :
  ((0 < D)%nat → benchmark ≠ []) → lo <= 0 →
  ∀ n a st,
    (a + n ≤ D)%nat →
    row_inv (total_usd cfg) D a st →
    end_day st = 0%Z →
    lo <= remaining_usd st →
    ∃ st',
      strategy_2_loop cfg (total_usd cfg / inject_Z (target_duration cfg))
                      benchmark row (seq a n) st = Ok st'
      ∧ take a (usd_row st') = take a (usd_row st)
      ∧ (∀ d, (a ≤ d)%nat → (d < a + n)%nat →
           ∃ remaining,
             remaining + np_sum (take d (usd_row st')) == total_usd cfg
             ∧ usd_row st' !! d
               = Some (trade_of (adaptive_decision cfg d remaining (row !!! d)
                                   (decision_benchmark_value benchmark d))))
      ∧ lo <= remaining_usd st'
      ∧ ((∃ d, (a ≤ d)%nat ∧ (d < a + n)%nat
               ∧ end_day st' = Z.of_nat d
               ∧ remaining_usd st' <= 0.01
               ∧ row_inv (total_usd cfg) D d st')
         ∨ (end_day st' = 0%Z
            ∧ row_inv (total_usd cfg) D (a + n) st'
            ∧ (Z.of_nat (a + n) = max_duration cfg →
               (0 < n)%nat ∨ remaining_usd st == 0 →
               remaining_usd st' == 0))).
Proof.
  intros Hne Hlo. induction n as [|n IH]; intros a st Hn Hinv Hend Hrem.
  - exists st. simpl. rewrite Nat.add_0_r. split; [done|]. split; [done|].
    split; [intros; lia|]. split; [done|]. right.
    split; [done|]. split; [done|]. intros _ [?|?]; [lia|done].
  - simpl. destruct (Qle_bool (remaining_usd st) 0.01) eqn:Hstop.
    + (* break *)
      eexists. split; [reflexivity|]. simpl. split; [done|].
      apply Qle_bool_iff in Hstop. split; [|split; [done|]].
      * intros d Had Hd. exists (remaining_usd st).
        destruct (row_inv_later _ _ _ d _ Hinv Had) as (_ & _ & Hzero & Hsum).
        split; [done|].
        destruct (Hzero d) as [-> _]; [lia..|].
        unfold adaptive_decision.
        destruct (Qlt_le_dec 0.01 (remaining_usd st)); [lra|done].
      * left. exists a. split; [lia|]. split; [lia|]. split; [done|].
        split; [done|]. exact Hinv.
    + (* trade *)
      destruct (choose_daily_trade_decision cfg benchmark row a (remaining_usd st))
        as (t & -> & Hdec); [apply Hne; lia|done|].
      simpl.
      set (trade := py_min t (remaining_usd st)) in *.
      set (st1 := record_trade row a trade st).
      assert (Hinv1 : row_inv (total_usd cfg) D (S a) st1)
        by (apply row_inv_record_trade; [done|lia]).
      assert (Hrem1 : 0 <= remaining_usd st1).
      { subst st1. simpl. pose proof (py_min_le_r t (remaining_usd st)).
        fold trade in H. lra. }
      destruct (IH (S a) st1) as (st' & Hrun & Hpre & Htrace & Hlo' & Hout);
        [lia|done|done|lra|].
      exists st'. split; [done|].
      assert (Hlen : length (usd_row st) = D) by apply Hinv.
      assert (Hpre_a : take a (usd_row st') = take a (usd_row st)).
      { assert (Hsplit : ∀ l : list Q, take a l = take a (take (S a) l)).
        { intros l. rewrite take_take, Nat.min_l by lia. done. }
        rewrite (Hsplit (usd_row st')), Hpre, <- Hsplit. subst st1. simpl.
        rewrite take_insert_ge by lia. done. }
      split; [done|]. split; [|split; [done|]].
      * intros d Had Hd. destruct (decide (d = a)) as [->|Hne_d].
        -- exists (remaining_usd st). split.
           ++ rewrite Hpre_a. apply Hinv.
           ++ rewrite Hdec. simpl.
              rewrite <- (lookup_take_lt (usd_row st') (S a) a) by lia.
              rewrite Hpre. rewrite lookup_take_lt by lia.
              subst st1. simpl. apply list_lookup_insert_eq. lia.
        -- apply Htrace; lia.
      * destruct Hout as [(d & Hd1 & Hd2 & Hd3 & Hd4 & Hd5)|(He & Hi & Hz)].
        -- left. exists d. split; [lia|]. split; [lia|]. done.
        -- right. split; [done|].
           replace (a + S n)%nat with (S a + n)%nat by lia.
           split; [done|]. intros Hmax _. apply Hz; [lia|].
           destruct (decide (0 < n)%nat) as [Hpos|Hzero]; [by left|right].
           assert (Hlast : Z.of_nat a = (max_duration cfg - 1)%Z) by lia.
           assert (Htrade : trade == remaining_usd st).
           { unfold adaptive_decision in Hdec.
             destruct (Qlt_le_dec 0.01 (remaining_usd st)) as [_|Hle];
               [|apply Qle_bool_iff in Hle; congruence].
             rewrite decide_True in Hdec by done.
             injection Hdec as Hdec. fold trade in Hdec. rewrite <- Hdec.
             apply Q.min_id. }
           subst st1. simpl. rewrite Htrade. lra.
Qed.

Lemma slice_to_nonneg {A} (e : Z) (a : list A) :
  (0 ≤ e)%Z → slice_to e a = take (Z.to_nat e) a.
Proof. intros He. unfold slice_to. by rewrite (proj2 (Z.ltb_ge e 0)) by lia. Qed.

Lemma row_inv_facts (cfg : Config) (D : nat) (lo : Q) (st : RowState) (e : Z) :
  (1 ≤ e)%Z →
  row_inv (total_usd cfg) D (Z.to_nat e) st →
  idle_from D e (usd_row st) (shares_row st)
  ∧ remaining_usd st + np_sum (slice_to e (usd_row st)) == total_usd cfg.
Proof.
  intros He (_ & _ & Hzero & Hsum). split.
  - intros day Hday HD. apply Hzero; lia.
  - by rewrite slice_to_nonneg by lia.
Qed.

(** One row of strategy 2: the loop followed by the end-day fix-up. *)
Lemma strategy_2_row_spec (cfg : Config) (benchmark row : list Q) (D : nat) (lo : Q) :
  ((0 < D)%nat → benchmark ≠ []) → lo <= 0 →
  ∃ st,
    strategy_2_row cfg (total_usd cfg / inject_Z (target_duration cfg)) D benchmark row
    = Ok st
    ∧ adaptive_row_facts cfg D lo benchmark row st.
Proof.
  intros Hne Hlo. unfold strategy_2_row, py_range.
  fold (processed_days cfg D).
  assert (Hn : (0 + processed_days cfg D ≤ D)%nat) by (unfold processed_days; lia).
  set (lo' := Qmin lo (total_usd cfg)).
  assert (Hlo' : lo' <= 0) by (pose proof (Q.le_min_l lo (total_usd cfg)); subst lo'; lra).
  destruct (strategy_2_loop_spec cfg benchmark row D lo' Hne Hlo'
              (processed_days cfg D) 0%nat (fresh_row (total_usd cfg) D) Hn
              (fresh_row_inv _ _) eq_refl (Q.le_min_r _ _))
    as (st & -> & _ & Htrace & Hlow & Hout).
  simpl.
  assert (Htree : follows_decision_tree cfg D benchmark row (usd_row st)).
  { intros day Hday. destruct (Htrace day) as (rem & Hrem & Hcell); [lia..|].
    eexists. split; [exact Hcell|].
    apply adaptive_decision_remaining_ext. lra. }
  assert (Hlow' : lo <= total_usd cfg → lo <= remaining_usd st).
  { intros Htot. subst lo'. rewrite Q.min_l in Hlow by done. done. }
  destruct Hout as [(d & _ & Hd & Hend & Hstop & Hinv)|(Hend & Hinv & Hzero)].
  - destruct (decide (d = 0%nat)) as [->|Hd0].
    + (* the loop stopped on day 0: the end day is reset *)
      rewrite Hend. simpl. eexists. split; [reflexivity|].
      unfold adaptive_row_facts. simpl.
      split; [apply Hinv|]. split; [apply Hinv|]. split; [done|].
      intros Hmax HD. split; [lia|]. split; [lia|].
      destruct (row_inv_facts cfg D lo st (Z.min (max_duration cfg) (Z.of_nat D)))
        as [Hidle Hsum]; [lia| |].
      { eapply row_inv_later; [exact Hinv|lia]. }
      done.
    + rewrite (proj2 (Z.eqb_neq (end_day st) 0)) by lia.
      eexists. split; [reflexivity|].
      split; [apply Hinv|]. split; [apply Hinv|]. split; [done|].
      intros Hmax HD. unfold processed_days in Hd.
      split; [lia|]. split; [lia|].
      destruct (row_inv_facts cfg D lo st (end_day st)) as [Hidle Hsum]; [lia| |].
      { rewrite Hend, Nat2Z.id. done. }
      done.
  - rewrite Hend. simpl. eexists. split; [reflexivity|].
    unfold adaptive_row_facts. simpl.
    split; [apply Hinv|]. split; [apply Hinv|]. split; [done|].
    intros Hmax HD. split; [lia|]. split; [lia|].
    destruct (row_inv_facts cfg D lo st (Z.min (max_duration cfg) (Z.of_nat D)))
      as [Hidle Hsum]; [lia| |].
    { eapply row_inv_later; [exact Hinv|unfold processed_days; lia]. }
    assert (Hrem0 : remaining_usd st == 0).
    { apply Hzero; [unfold processed_days; lia|left; unfold processed_days; lia]. }
    split; [done|]. split; [done|]. split; [lra|]. intros _. lra.
Qed.

Lemma for_each_row_spec {A B} (f : A → result B) (P : A → B → Prop) (l : list A) :
  (∀ x, x ∈ l → ∃ y, f x = Ok y ∧ P x y) →
  ∃ ys, for_each_row f l = Ok ys ∧ Forall2 P l ys.
Proof.
  induction l as [|x l IH]; intros Hf; [by exists []|].
  destruct (Hf x) as (y & Hy & HP); [by left|].
  destruct IH as (ys & Hys & HPs); [intros x' Hx'; apply Hf; by right|].
  exists (y :: ys). simpl. rewrite Hy. simpl. rewrite Hys. simpl.
  split; [done|]. by constructor.
Qed.

Lemma benchmark_length (prices : Prices) (discount_bps : Q) :
  length (calculate_arithmetic_mean_benchmark prices discount_bps) = num_days prices.
Proof.
  unfold calculate_arithmetic_mean_benchmark. rewrite benchmark_loop_cells.
  destruct (Qltb 0 discount_bps); rewrite ?length_map, length_seq; done.
Qed.

Lemma benchmark_nonempty (prices : Prices) (discount_bps : Q) :
  (0 < num_days prices)%nat →
  calculate_arithmetic_mean_benchmark prices discount_bps ≠ [].
Proof.
  intros HD Hnil. apply (f_equal length) in Hnil.
  rewrite benchmark_length in Hnil. simpl in Hnil. lia.
Qed.

(** Strategy 2 on a whole batch: unless the target duration is zero it
    returns, and every row of its result is a finished row of the loop. *)
Lemma execute_strategy_2_spec (prices : Prices) (total : Q)
    (target mn mx : Z) (benchmark : option (list Q)) (lo : Q) :
  target ≠ 0%Z →
  ((0 < num_days prices)%nat → benchmark_used prices benchmark ≠ []) →
  lo <= 0 →
  ∃ rows,
    execute_strategy_2 prices total target mn mx benchmark
    = Ok (map usd_row rows, map shares_row rows, map cum_row rows, map end_day rows)
    ∧ Forall2 (adaptive_row_facts (mkConfig total target mn mx) (num_days prices) lo
                 (benchmark_used prices benchmark))
              (price_rows prices) rows.
Proof.
  intros Htarget Hne Hlo. unfold execute_strategy_2.
  fold (benchmark_used prices benchmark).
  rewrite (proj2 (Z.eqb_neq target 0)) by done.
  destruct (for_each_row_spec
              (strategy_2_row (mkConfig total target mn mx) (total / inject_Z target)
                 (num_days prices) (benchmark_used prices benchmark))
              (adaptive_row_facts (mkConfig total target mn mx) (num_days prices) lo
                 (benchmark_used prices benchmark))
              (price_rows prices)) as (rows & -> & Hrows).
  - intros row _.
    apply (strategy_2_row_spec (mkConfig total target mn mx)); done.
  - exists rows. done.
Qed.

(** *** Strategy 1 *)

Lemma strategy_1_loop_usd (row : list Q) (daily_usd : Q) (days : list nat) (a : FixedRow) :
  fixed_usd (foldl (strategy_1_day row daily_usd) a days)
  = foldl (λ usd day, <[day := daily_usd]> usd) (fixed_usd a) days.
Proof. revert a. induction days as [|day days IH]; intros a; [done|]. apply IH. Qed.

Lemma strategy_1_loop_shares (row : list Q) (daily_usd : Q) (days : list nat) (a : FixedRow) :
  fixed_shares (foldl (strategy_1_day row daily_usd) a days)
  = foldl (λ shares day, <[day := daily_usd / (row !!! day)]> shares)
          (fixed_shares a) days.
Proof. revert a. induction days as [|day days IH]; intros a; [done|]. apply IH. Qed.

(** The number of days strategy 1 trades: [min(target_duration, num_days)]. *)
Lemma strategy_1_row_spec (daily_usd : Q) (target : Z) (D : nat) (row : list Q) :
  let k := Z.to_nat (Z.min target (Z.of_nat D)) in
  fixed_usd (strategy_1_row daily_usd target D row)
  = replicate k daily_usd ++ replicate (D - k) 0
  ∧ fixed_shares (strategy_1_row daily_usd target D row)
    = map (λ day, daily_usd / (row !!! day)) (seq 0 k) ++ replicate (D - k) 0.
Proof.
  intros k. unfold strategy_1_row, py_range. fold k.
  assert (Hk : (k ≤ D)%nat) by (subst k; lia).
  rewrite strategy_1_loop_usd, strategy_1_loop_shares.
  simpl. unfold np_zeros.
  rewrite (fill_loop (λ _, daily_usd)) by (rewrite length_replicate; lia).
  rewrite (fill_loop (λ day, daily_usd / (row !!! day)))
    by (rewrite length_replicate; lia).
  rewrite drop_replicate. split; [|done].
  f_equal. etrans; [by apply (const_fmap (λ _ : nat, daily_usd) (seq 0 k) daily_usd)|].
  by rewrite length_seq.
Qed.

Lemma within_of_remaining (remaining spent total : Q) :
  remaining + spent == total → 0 <= remaining → remaining <= 0.01 →
  within 0.01 spent total.
Proof.
  intros Hsum H0 H1. unfold within. apply Qabs_Qle_condition. split; lra.
Qed.

Lemma Forall2_Forall_right {A B} (P : A → B → Prop) (R : B → Prop)
    (l : list A) (k : list B) :
  Forall2 P l k → (∀ x y, P x y → R y) → Forall R k.
Proof. induction 1; intros HR; constructor; eauto. Qed.

(** What a row of strategy 1 looks like once [target_duration] is positive. *)
Lemma fixed_row_facts (daily_usd : Q) (target : Z) (D : nat) (row : list Q) :
  (1 ≤ target)%Z →
  let st := strategy_1_row daily_usd target D row in
  let e := Z.min target (Z.of_nat D) in
  length (fixed_usd st) = D
  ∧ length (fixed_shares st) = D
  ∧ (∀ day, (Z.of_nat day < e)%Z → fixed_usd st !! day = Some daily_usd)
  ∧ np_sum (slice_to e (fixed_usd st)) == inject_Z e * daily_usd
  ∧ idle_from D e (fixed_usd st) (fixed_shares st).
Proof.
  intros Htarget st e.
  destruct (strategy_1_row_spec daily_usd target D row) as [Husd Hshares].
  fold st in Husd, Hshares. fold e in Husd, Hshares.
  set (k := Z.to_nat e) in *.
  assert (Hk : (k ≤ D)%nat) by (subst k e; lia).
  assert (He : e = Z.of_nat k) by (subst k e; lia).
  rewrite Husd, Hshares. repeat split.
  - rewrite length_app, !length_replicate. lia.
  - rewrite length_app, length_map, length_seq, length_replicate. lia.
  - intros day Hday. rewrite lookup_app_l by (rewrite length_replicate; lia).
    apply lookup_replicate_2. lia.
  - rewrite slice_to_nonneg by lia. fold k.
    rewrite take_app_length' by (by rewrite length_replicate).
    rewrite np_sum_replicate, He. done.
  - rewrite lookup_app_r by (rewrite length_replicate; lia).
    apply lookup_replicate_2. rewrite length_replicate. lia.
  - rewrite lookup_app_r by (rewrite length_map, length_seq; lia).
    apply lookup_replicate_2. rewrite length_map, length_seq. lia.
Qed.

(** ** The budget invariant *)

Lemma adaptive_budget_conserved (prices : Prices) (total : Q) (target mn mx : Z)
    (benchmark : option (list Q)) :
  0 <= total →
  target ≠ 0%Z →
  ((0 < num_days prices)%nat → benchmark_used prices benchmark ≠ []) →
  (1 ≤ mx)%Z → (mx ≤ Z.of_nat (num_days prices))%Z →
  ∃ usd shares cum ends,
    execute_strategy_2 prices total target mn mx benchmark = Ok (usd, shares, cum, ends)
    ∧ length usd = num_simulations prices
    ∧ budget_conserved (num_days prices) total (mkStrategyResult usd shares cum ends).
Proof.
  intros Htotal Htarget Hne Hmx HD.
  destruct (execute_strategy_2_spec prices total target mn mx benchmark 0 Htarget Hne)
    as (rows & Hrun & Hrows); [lra|].
  eexists _, _, _, _. split; [exact Hrun|]. split.
  - rewrite length_map. symmetry. by eapply Forall2_length.
  - intros sim Hsim. simpl in *. rewrite length_map in Hsim.
    destruct (lookup_lt_is_Some_2 rows sim Hsim) as [st Hst].
    destruct (Forall2_lookup_r _ _ _ _ _ Hrows Hst) as (row & _ & Hfacts).
    exists (usd_row st), (shares_row st), (end_day st).
    change (map ?f rows) with (f <$> rows). rewrite !list_lookup_fmap, Hst. simpl.
    split; [done|]. split; [done|]. split; [done|].
    destruct Hfacts as (_ & _ & _ & Hend). simpl in Hend.
    destruct (Hend Hmx HD) as (_ & _ & Hidle & Hsum & Hle & Hge).
    split; [|done].
    eapply within_of_remaining; [exact Hsum|by apply Hge|done].
Qed.

Lemma fixed_budget_conserved (prices : Prices) (total : Q) (target : Z) :
  (1 ≤ target)%Z → (target ≤ Z.of_nat (num_days prices))%Z →
  ∃ usd shares cum e,
    execute_strategy_1 prices total target = Ok (usd, shares, cum, e)
    ∧ length usd = num_simulations prices
    ∧ budget_conserved (num_days prices) total
        (mkStrategyResult usd shares cum (replicate (num_simulations prices) e)).
Proof.
  intros Htarget HD. unfold execute_strategy_1.
  rewrite (proj2 (Z.eqb_neq target 0)) by lia.
  eexists _, _, _, _. split; [reflexivity|]. split; [by rewrite !length_map|].
  intros sim Hsim. simpl in *. rewrite !length_map in Hsim.
  destruct (lookup_lt_is_Some_2 (price_rows prices) sim Hsim) as [row Hrow].
  set (daily := total / inject_Z target).
  set (st := strategy_1_row daily target (num_days prices) row).
  set (e := Z.min target (Z.of_nat (num_days prices))).
  exists (fixed_usd st), (fixed_shares st), e.
  change (map ?f (map ?g ?l)) with (f <$> (g <$> l)).
  rewrite !list_lookup_fmap, Hrow. simpl.
  split; [done|]. split; [done|].
  split; [apply lookup_replicate_2; done|].
  destruct (fixed_row_facts daily target (num_days prices) row Htarget)
    as (_ & _ & _ & Hsum & Hidle).
  fold st e in Hsum, Hidle. split; [|done].
  unfold within. rewrite Hsum. subst e daily. rewrite Z.min_l by done.
  apply Qabs_Qle_condition.
  assert (inject_Z target * (total / inject_Z target) == total) as ->.
  { field. intros H. apply (inject_Z_injective target 0) in H. lia. }
  split; lra.
Qed.

(** The claim C1 as the specification states it fails for a negative
    budget: the stop test of the adaptive loop fires on day 0, nothing is
    spent, and the reported end day is max_duration. *)
Lemma adaptive_negative_budget_not_spent :
  ∃ usd shares cum usd_r,
    execute_strategy_2 (mkPrices 2 [[100; 100]]) (-100) 1 1 1 None
    = Ok (usd, shares, cum, [1%Z])
    ∧ usd !! 0%nat = Some usd_r
    ∧ np_sum (slice_to 1 usd_r) == 0
    ∧ ¬ within 0.01 (np_sum (slice_to 1 usd_r)) (-100).
Proof.
  eexists _, _, _, _. split; [reflexivity|]. split; [reflexivity|].
  split; [reflexivity|].
  unfold within. intros H. apply Qabs_Qle_condition in H as [_ H].
  revert H. apply Qlt_not_le. reflexivity.
Qed.

(** C1 (amended). For a total budget that is not negative and durations
    with 1 <= min_duration <= target_duration <= max_duration <= days, each
    of the three strategies (fixed, adaptive, adaptive-discounted) satisfies
    on every simulation row: the usd spent over days 0..end_day-1 sums to
    the total budget to within 0.01, and usd spent and shares acquired are
    zero on every day at or beyond end_day. *)
Theorem budget_spent_by_end_day (prices : Prices) (total : Q)
    (target mn mx : Z) (discount_bps : Q) :
  0 <= total →
  (1 ≤ mn)%Z → (mn ≤ target)%Z → (target ≤ mx)%Z →
  (mx ≤ Z.of_nat (num_days prices))%Z →
  ∃ results,
    execute_all_strategies prices total target mn mx discount_bps = Ok results
    ∧ (∀ name, name ∈ ["strategy_1"; "strategy_2"; "strategy_3"] →
               is_Some (results !! name))
    ∧ ∀ name r, results !! name = Some r →
        length (usd_executed r) = num_simulations prices
        ∧ budget_conserved (num_days prices) total r.
Proof.
  intros Htotal Hmn Htarget Hmx HD. unfold execute_all_strategies.
  destruct (fixed_budget_conserved prices total target)
    as (usd1 & shares1 & cum1 & e1 & -> & Hlen1 & H1); [lia..|].
  destruct (adaptive_budget_conserved prices total target mn mx None)
    as (usd2 & shares2 & cum2 & ends2 & -> & Hlen2 & H2);
    [done|lia|by apply benchmark_nonempty|lia|lia|].
  unfold execute_strategy_3.
  destruct (adaptive_budget_conserved prices total target mn mx
              (Some (calculate_arithmetic_mean_benchmark prices discount_bps)))
    as (usd3 & shares3 & cum3 & ends3 & -> & Hlen3 & H3);
    [done|lia|by apply benchmark_nonempty|lia|lia|].
  simpl. eexists. split; [reflexivity|]. split.
  - intros name Hname.
    repeat (apply elem_of_cons in Hname as [->|Hname]); [..|by apply elem_of_nil in Hname];
      by simplify_map_eq.
  - intros name r Hr.
    apply lookup_insert_Some in Hr as [[<- <-]|[_ Hr]]; [done|].
    apply lookup_insert_Some in Hr as [[<- <-]|[_ Hr]]; [done|].
    apply lookup_insert_Some in Hr as [[<- <-]|[_ Hr]]; [done|].
    by rewrite lookup_empty in Hr.
Qed.

Lemma budget_spent_by_end_day_witness :
  ∃ results,
    execute_all_strategies (mkPrices 8 [[100; 105; 95; 110; 90; 100; 95; 105]])
                           10000 5 3 8 50 = Ok results
    ∧ ∀ name r, results !! name = Some r →
        budget_conserved 8 10000 r.
Proof.
  destruct (budget_spent_by_end_day
              (mkPrices 8 [[100; 105; 95; 110; 90; 100; 95; 105]]) 10000 5 3 8 50)
    as (results & Hrun & _ & Hall); [by vm_compute|simpl; lia..|].
  exists results. split; [exact Hrun|].
  intros name r Hr. exact (proj2 (Hall name r Hr)).
Defined.

(** ** The Adaptive decision tree *)

(** C2. For every simulation row and every processed day, the amount the
    Adaptive strategy trades is the value of the decision tree of the
    specification, evaluated in its order: stop when the remaining budget
    is at most 0.01, else the whole remainder on day max_duration - 1, else
    the ramp rate total_budget / target_duration before day
    min(10, min_duration), else the accelerated trade when the day's price
    is below the decision benchmark, else the decelerated and possibly
    throttled trade; the result clamped to the remaining budget. *)
Theorem adaptive_trade_is_decision_tree (prices : Prices) (total : Q) (target mn mx : Z) :
  prices_wf prices →
  target ≠ 0%Z →
  ∃ usd shares cum ends,
    execute_strategy_2 prices total target mn mx None = Ok (usd, shares, cum, ends)
    ∧ length usd = num_simulations prices
    ∧ ∀ sim row, price_rows prices !! sim = Some row →
        ∃ usd_r,
          usd !! sim = Some usd_r
          ∧ ∀ day, (day < Z.to_nat (Z.min (Z.of_nat (num_days prices)) mx))%nat →
              ∃ trade,
                usd_r !! day = Some trade
                ∧ trade
                  == trade_of
                       (adaptive_decision (mkConfig total target mn mx) day
                          (total - np_sum (take day usd_r))
                          (row !!! day)
                          (decision_benchmark_value
                             (calculate_arithmetic_mean_benchmark prices 0) day)).
Proof.
  intros _ Htarget.
  destruct (execute_strategy_2_spec prices total target mn mx None 0 Htarget)
    as (rows & Hrun & Hrows); [by apply benchmark_nonempty|lra|].
  eexists _, _, _, _. split; [exact Hrun|]. split.
  - rewrite length_map. symmetry. by eapply Forall2_length.
  - intros sim row Hrow.
    destruct (Forall2_lookup_l _ _ _ _ _ Hrows Hrow) as (st & Hst & Hfacts).
    exists (usd_row st). split.
    + change (map usd_row rows) with (usd_row <$> rows).
      by rewrite list_lookup_fmap, Hst.
    + destruct Hfacts as (_ & _ & Htree & _). exact Htree.
Qed.

Lemma adaptive_trade_is_decision_tree_witness :
  ∃ usd shares cum ends,
    execute_strategy_2 (mkPrices 10 [[100; 95; 90; 110; 120; 100; 95; 90; 85; 80]])
                       1000 5 3 8 None
    = Ok (usd, shares, cum, ends)
    ∧ length usd = 1%nat.
Proof.
  destruct (adaptive_trade_is_decision_tree
              (mkPrices 10 [[100; 95; 90; 110; 120; 100; 95; 90; 85; 80]]) 1000 5 3 8)
    as (usd & shares & cum & ends & Hrun & Hlen & _); [by repeat constructor|lia|].
  exists usd, shares, cum, ends. split; [exact Hrun|exact Hlen].
Defined.

(** ** The Fixed-Schedule strategy *)

(** The claim C8 as the specification states it fails when the batch has
    fewer days than the target duration: with three days, a target of five
    days and a budget of 1000, the schedule ends on day 3 having spent
    600. *)
Lemma fixed_schedule_short_batch_underspends :
  ∃ usd shares cum usd_r,
    execute_strategy_1 (mkPrices 3 [[100; 100; 100]]) 1000 5 = Ok (usd, shares, cum, 3%Z)
    ∧ usd !! 0%nat = Some usd_r
    ∧ np_sum (slice_to 3 usd_r) == 600
    ∧ ¬ within 0.01 (np_sum (slice_to 3 usd_r)) 1000.
Proof.
  eexists _, _, _, _. split; [reflexivity|]. split; [reflexivity|].
  split; [reflexivity|].
  unfold within. intros H. apply Qabs_Qle_condition in H as [H _].
  revert H. apply Qlt_not_le. reflexivity.
Qed.

(** C8 (amended). For a target duration of at least one day, on every
    simulation row the Fixed-Schedule strategy spends exactly
    total_budget / target_duration on each of the first
    min(target_duration, D) days, its terminal day is min(target_duration, D),
    and what it spends over these days is min(target_duration, D) times the
    daily amount: the total budget (to within 0.01, and exactly) when the
    batch has at least target_duration days. *)
Theorem fixed_schedule_daily_rate (prices : Prices) (total : Q) (target : Z) :
  (1 ≤ target)%Z →
  let e := Z.min target (Z.of_nat (num_days prices)) in
  ∃ usd shares cum,
    execute_strategy_1 prices total target = Ok (usd, shares, cum, e)
    ∧ length usd = num_simulations prices
    ∧ ∀ sim usd_r, usd !! sim = Some usd_r →
        (∀ day, (Z.of_nat day < e)%Z → usd_r !! day = Some (total / inject_Z target))
        ∧ np_sum (slice_to e usd_r) == inject_Z e * (total / inject_Z target)
        ∧ ((target ≤ Z.of_nat (num_days prices))%Z →
           np_sum (slice_to e usd_r) == total
           ∧ within 0.01 (np_sum (slice_to e usd_r)) total).
Proof.
  intros Htarget e. unfold execute_strategy_1.
  rewrite (proj2 (Z.eqb_neq target 0)) by lia.
  eexists _, _, _. split; [reflexivity|]. split.
  - by rewrite !length_map.
  - intros sim usd_r Hsim.
    change (map fixed_usd ?l) with (fixed_usd <$> l) in Hsim.
    change (map ?f (price_rows prices)) with (f <$> price_rows prices) in Hsim.
    rewrite !list_lookup_fmap in Hsim.
    destruct (price_rows prices !! sim) as [row|]; [|done].
    simpl in Hsim. injection Hsim as <-.
    destruct (fixed_row_facts (total / inject_Z target) target (num_days prices) row
                Htarget) as (_ & _ & Hdaily & Hsum & _).
    fold e in Hdaily, Hsum.
    split; [done|]. split; [done|]. intros HD.
    assert (Htotal : np_sum (slice_to e
                       (fixed_usd (strategy_1_row (total / inject_Z target) target
                                   (num_days prices) row))) == total).
    { rewrite Hsum. subst e. rewrite Z.min_l by done. field.
      intros H. apply (inject_Z_injective target 0) in H. lia. }
    split; [done|].
    unfold within. rewrite Htotal. apply Qabs_Qle_condition. split; lra.
Qed.

Lemma fixed_schedule_daily_rate_witness :
  ∃ usd shares cum,
    execute_strategy_1 (mkPrices 5 [[100; 100; 100; 100; 100]]) 1000 5
    = Ok (usd, shares, cum, 5%Z)
    ∧ length usd = 1%nat.
Proof.
  destruct (fixed_schedule_daily_rate (mkPrices 5 [[100; 100; 100; 100; 100]]) 1000 5)
    as (usd & shares & cum & Hrun & Hlen & _); [lia|].
  exists usd, shares, cum. split; [exact Hrun|exact Hlen].
Defined.

(** ** The terminal day of the adaptive strategies *)

Lemma adaptive_end_days_bounded (prices : Prices) (total : Q) (target mn mx : Z)
    (benchmark : option (list Q)) :
  target ≠ 0%Z →
  ((0 < num_days prices)%nat → benchmark_used prices benchmark ≠ []) →
  (1 ≤ mx)%Z → (mx ≤ Z.of_nat (num_days prices))%Z →
  ∃ usd shares cum ends,
    execute_strategy_2 prices total target mn mx benchmark = Ok (usd, shares, cum, ends)
    ∧ length ends = num_simulations prices
    ∧ Forall (λ e, (1 ≤ e)%Z ∧ (e ≤ mx)%Z) ends.
Proof.
  intros Htarget Hne Hmx HD.
  destruct (execute_strategy_2_spec prices total target mn mx benchmark 0 Htarget Hne)
    as (rows & Hrun & Hrows); [lra|].
  eexists _, _, _, _. split; [exact Hrun|]. split.
  - rewrite length_map. symmetry. by eapply Forall2_length.
  - change (map end_day rows) with (end_day <$> rows). apply Forall_fmap.
    eapply Forall2_Forall_right; [exact Hrows|].
    intros row st (_ & _ & _ & Hend). simpl in Hend.
    destruct (Hend Hmx HD) as (H1 & H2 & _). done.
Qed.

(** C9. For a positive total budget and durations with
    1 <= min_duration <= target_duration <= max_duration <= days, the
    terminal day that the Adaptive and the Adaptive-Discounted strategy
    report for every simulation row lies between 1 and max_duration. *)
Theorem adaptive_end_day_within_bounds (prices : Prices) (total : Q)
    (target mn mx : Z) (discount_bps : Q) :
  0 < total →
  (1 ≤ mn)%Z → (mn ≤ target)%Z → (target ≤ mx)%Z →
  (mx ≤ Z.of_nat (num_days prices))%Z →
  (∃ usd shares cum ends,
     execute_strategy_2 prices total target mn mx None = Ok (usd, shares, cum, ends)
     ∧ length ends = num_simulations prices
     ∧ Forall (λ e, (1 ≤ e)%Z ∧ (e ≤ mx)%Z) ends)
  ∧ (∃ usd shares cum ends,
       execute_strategy_3 prices total target mn mx discount_bps
       = Ok (usd, shares, cum, ends)
       ∧ length ends = num_simulations prices
       ∧ Forall (λ e, (1 ≤ e)%Z ∧ (e ≤ mx)%Z) ends).
Proof.
  intros _ Hmn Htarget Hmx HD. split.
  - apply adaptive_end_days_bounded; [lia| |lia|lia].
    by apply benchmark_nonempty.
  - unfold execute_strategy_3.
    apply adaptive_end_days_bounded; [lia| |lia|lia].
    by apply benchmark_nonempty.
Qed.

Lemma adaptive_end_day_within_bounds_witness :
  ∃ usd shares cum ends,
    execute_strategy_2 (mkPrices 10 [[100; 95; 90; 110; 120; 100; 95; 90; 85; 80]])
                       1000 5 3 8 None
    = Ok (usd, shares, cum, ends)
    ∧ Forall (λ e, (1 ≤ e)%Z ∧ (e ≤ 8)%Z) ends.
Proof.
  destruct (adaptive_end_day_within_bounds
              (mkPrices 10 [[100; 95; 90; 110; 120; 100; 95; 90; 85; 80]])
              1000 5 3 8 0)
    as [(usd & shares & cum & ends & Hrun & _ & Hends) _];
    [reflexivity|lia|lia|lia|simpl; lia|].
  exists usd, shares, cum, ends. split; [exact Hrun|exact Hends].
Defined.

(** ** The metrics ([metrics.py]) *)

Lemma np_mean_slice (row : list Q) (e : Z) :
  (1 ≤ e)%Z → (e ≤ Z.of_nat (length row))%Z →
  np_mean (slice_to e row) == path_mean row e.
Proof.
  intros He Hlen. unfold np_mean, path_mean, sum_over.
  rewrite slice_to_nonneg by lia.
  rewrite length_take_le, take_as_map by lia.
  rewrite Z2Nat.id by lia. done.
Qed.

Lemma calculate_benchmark_price_lookup (prices : Prices) (ends : list Z)
    (discount_bps : Q) (sim : nat) :
  (sim < num_simulations prices)%nat →
  ∃ b,
    calculate_benchmark_price prices (Some ends) discount_bps !! sim = Some b
    ∧ (0 <= discount_bps →
       b == np_mean (slice_to (ends !!! sim) (price_rows prices !!! sim))
            * (1 - discount_bps / 10000)).
Proof.
  intros Hsim. unfold calculate_benchmark_price.
  destruct (Qltb 0 discount_bps) eqn:E.
  - eexists. split.
    + change (map ?f ?l) with (f <$> l).
      rewrite !list_lookup_fmap, lookup_seq_lt by done. simpl. reflexivity.
    + intros _. simpl. reflexivity.
  - apply Qltb_ge in E. eexists. split.
    + change (map ?f ?l) with (f <$> l).
      rewrite !list_lookup_fmap, lookup_seq_lt by done. simpl. reflexivity.
    + intros Hpos. assert (H0 : discount_bps == 0) by lra.
      assert (Hf : 1 - discount_bps / 10000 == 1) by (rewrite H0; reflexivity).
      rewrite Hf. symmetry. apply Qmult_1_r.
Qed.

Lemma calculate_vwap_lookup (usd shares : list (list Q)) (ends : list Z) (sim : nat) :
  (sim < length usd)%nat →
  calculate_vwap usd shares (Some ends) !! sim
  = Some (let total_usd := np_sum (slice_to (ends !!! sim) (usd !!! sim)) in
          let total_shares := np_sum (slice_to (ends !!! sim) (shares !!! sim)) in
          if Qltb 0 total_shares then total_usd / total_shares else 0).
Proof.
  intros Hsim. unfold calculate_vwap.
  change (map ?f ?l) with (f <$> l).
  rewrite list_lookup_fmap, lookup_seq_lt by done. done.
Qed.

Lemma performance_lookup (vwaps benchmarks : list Q) (sim : nat) (v b : Q) :
  vwaps !! sim = Some v → benchmarks !! sim = Some b →
  calculate_execution_performance_bps vwaps benchmarks !! sim
  = Some (np_negative (np_scale (np_divide (v - b) b) 10000)).
Proof.
  intros Hv Hb. unfold calculate_execution_performance_bps.
  change (map ?f ?l) with (f <$> l).
  rewrite list_lookup_fmap, lookup_zip_with, Hv, Hb. done.
Qed.

Lemma performance_finite (v b : Q) :
  ¬ b == 0 →
  ∃ s, np_negative (np_scale (np_divide (v - b) b) 10000) = Finite s
       ∧ s == performance_score v b.
Proof.
  intros Hb. unfold np_divide.
  destruct (Qeq_bool b 0) eqn:E; [by apply Qeq_bool_iff in E|].
  simpl. eexists. split; [reflexivity|].
  unfold performance_score. field. done.
Qed.

Lemma performance_score_positive (v b : Q) : 0 < b → v < b → 0 < performance_score v b.
Proof.
  intros Hb Hv. unfold performance_score.
  assert (H : (v - b) / b < 0).
  { apply Qlt_shift_div_r; [done|]. lra. }
  lra.
Qed.

Lemma mapM_finite_length (scores : list npfloat) (qs : list Q) :
  mapM finite_value scores = Some qs → length qs = length scores.
Proof. intros H. symmetry. by eapply length_mapM. Qed.

Lemma calculate_performance_statistics_ok (np_sqrt : Q → Q) (v : list Q) :
  v ≠ [] → ∃ s, calculate_performance_statistics np_sqrt v = Ok s.
Proof. intros Hne. destruct v as [|x v]; [done|]. eexists. reflexivity. Qed.

(** The loop body of [calculate_all_metrics] returns for a record and a
    batch with at least one simulation. *)
Lemma strategy_metrics_ok (np_sqrt : Q → Q) (prices : Prices) (discount_bps : Q)
    (name : string) (r : StrategyResult) :
  (0 < num_simulations prices)%nat →
  (0 < length (usd_executed r))%nat →
  ∃ stats,
    strategy_metrics np_sqrt prices discount_bps name r
    = Ok (let v := calculate_vwap (usd_executed r) (shares_acquired r)
                     (Some (actual_end_days r)) in
          let b := calculate_benchmark_price prices (Some (actual_end_days r))
                     (if String.eqb name "strategy_3" then discount_bps else 0) in
          {| vwap := v;
             benchmark_prices := b;
             performance_bps := calculate_execution_performance_bps v b;
             statistics := stats;
             metrics_end_days := actual_end_days r |}).
Proof.
  intros HN Husd. unfold strategy_metrics.
  set (v := calculate_vwap _ _ _).
  assert (Hb : (if String.eqb name "strategy_3"
                then calculate_benchmark_price prices (Some (actual_end_days r)) discount_bps
                else calculate_benchmark_price prices (Some (actual_end_days r)) 0)
               = calculate_benchmark_price prices (Some (actual_end_days r))
                   (if String.eqb name "strategy_3" then discount_bps else 0))
    by (by destruct (String.eqb name "strategy_3")).
  rewrite Hb. clear Hb.
  set (b := calculate_benchmark_price _ _ _).
  destruct (mapM finite_value (calculate_execution_performance_bps v b))
    as [scores|] eqn:Hscores.
  - destruct (calculate_performance_statistics_ok np_sqrt scores) as [s Hs].
    + intros ->. apply mapM_finite_length in Hscores. simpl in Hscores.
      unfold calculate_execution_performance_bps in Hscores.
      rewrite length_map, length_zip_with in Hscores.
      subst v b. unfold calculate_vwap, calculate_benchmark_price in Hscores.
      destruct (Qltb 0 _) in Hscores;
        rewrite ?length_map, !length_seq in Hscores; lia.
    + rewrite Hs. simpl. by eexists.
  - simpl. by eexists.
Qed.

(** The loop of [calculate_all_metrics] returns a dictionary with the
    entry of each strategy when no entry raises. *)
Lemma calculate_all_metrics_spec (np_sqrt : Q → Q)
    (strategy_results : gmap string StrategyResult) (prices : Prices) (discount_bps : Q) :
  (∀ name r, strategy_results !! name = Some r →
             ∃ m, strategy_metrics np_sqrt prices discount_bps name r = Ok m) →
  ∃ metrics,
    calculate_all_metrics np_sqrt strategy_results prices discount_bps = Ok metrics
    ∧ ∀ name r, strategy_results !! name = Some r →
        ∃ m, strategy_metrics np_sqrt prices discount_bps name r = Ok m
             ∧ metrics !! name = Some m.
Proof.
  unfold calculate_all_metrics.
  apply (map_fold_weak_ind
           (λ acc (results : gmap string StrategyResult),
              (∀ name r, results !! name = Some r →
                 ∃ m, strategy_metrics np_sqrt prices discount_bps name r = Ok m) →
              ∃ metrics,
                acc = Ok metrics
                ∧ ∀ name r, results !! name = Some r →
                    ∃ m, strategy_metrics np_sqrt prices discount_bps name r = Ok m
                         ∧ metrics !! name = Some m)).
  - intros _. exists ∅. split; [done|]. intros name r Hr.
    by rewrite lookup_empty in Hr.
  - intros name r results acc Hfresh IH Hall.
    destruct IH as (metrics & -> & Hmetrics).
    { intros name' r' Hr'. apply Hall. rewrite lookup_insert_ne; [done|].
      intros <-. congruence. }
    destruct (Hall name r) as [m Hm]; [apply lookup_insert_eq|].
    simpl. rewrite Hm. simpl. eexists. split; [reflexivity|].
    intros name' r' Hr'. destruct (decide (name = name')) as [<-|Hne].
    + rewrite lookup_insert_eq in Hr'. injection Hr' as <-.
      exists m. split; [done|]. apply lookup_insert_eq.
    + rewrite lookup_insert_ne in Hr' by done.
      destruct (Hmetrics name' r' Hr') as (m' & Hm' & Hlook).
      exists m'. split; [done|]. by rewrite lookup_insert_ne.
Qed.

(** C5. For every simulation, the evaluation benchmark is the arithmetic
    mean of the simulation's own prices over days 0..end_day-1, multiplied
    by (1 - discount_bps/10000) for the adaptive-discounted strategy only
    (strategies 1 and 2 are evaluated against the undiscounted mean whatever
    the discount setting); the performance score is
    -((VWAP - EvaluationBenchmark) / EvaluationBenchmark) * 10000, so that a
    VWAP below a (positive) benchmark gives a positive score. *)
Theorem evaluation_benchmark_and_score (np_sqrt : Q → Q)
    (strategy_results : gmap string StrategyResult) (prices : Prices)
    (discount_bps : Q) (name : string) (r : StrategyResult) (sim : nat) :
  0 <= discount_bps →
  (∀ name' r', strategy_results !! name' = Some r' →
               (0 < length (usd_executed r'))%nat) →
  strategy_results !! name = Some r →
  (sim < num_simulations prices)%nat →
  (sim < length (usd_executed r))%nat →
  let row := price_rows prices !!! sim in
  let e := actual_end_days r !!! sim in
  (1 ≤ e)%Z → (e ≤ Z.of_nat (length row))%Z →
  ∃ metrics m v b,
    calculate_all_metrics np_sqrt strategy_results prices discount_bps = Ok metrics
    ∧ metrics !! name = Some m
    ∧ vwap m !! sim = Some v
    ∧ benchmark_prices m !! sim = Some b
    ∧ (name = "strategy_3" → b == path_mean row e * (1 - discount_bps / 10000))
    ∧ (name ≠ "strategy_3" → b == path_mean row e)
    ∧ (¬ b == 0 →
       ∃ s, performance_bps m !! sim = Some (Finite s)
            ∧ s == performance_score v b
            ∧ (0 < b → v < b → 0 < s)).
Proof.
  intros Hdisc Hnonempty Hr Hsim Husd row e He Hlen.
  destruct (calculate_all_metrics_spec np_sqrt strategy_results prices discount_bps)
    as (metrics & Hrun & Hentries).
  { intros name' r' Hr'.
    destruct (strategy_metrics_ok np_sqrt prices discount_bps name' r')
      as [stats Hstats]; [lia|by eapply Hnonempty|]. by eexists. }
  destruct (Hentries name r Hr) as (m & Hm & Hlook).
  destruct (strategy_metrics_ok np_sqrt prices discount_bps name r)
    as [stats Hstats]; [lia|lia|].
  rewrite Hstats in Hm. injection Hm as <-. cbv zeta. simpl.
  set (ends := actual_end_days r).
  set (disc := if String.eqb name "strategy_3" then discount_bps else 0).
  assert (Hdisc' : 0 <= disc) by (subst disc; destruct (String.eqb _ _); lra).
  destruct (calculate_benchmark_price_lookup prices ends disc sim Hsim)
    as (b & Hb & Hbval).
  specialize (Hbval Hdisc'). fold row in Hbval. fold e in Hbval.
  rewrite np_mean_slice in Hbval by done.
  pose proof (calculate_vwap_lookup (usd_executed r) (shares_acquired r) ends sim Husd)
    as Hv.
  eexists metrics, _, _, b. split; [exact Hrun|]. split; [exact Hlook|]. simpl.
  split; [exact Hv|]. split; [exact Hb|].
  split; [|split].
  - intros ->. subst disc. simpl in Hbval. done.
  - intros Hname. subst disc.
    rewrite (proj2 (String.eqb_neq name "strategy_3")) in Hbval by done.
    rewrite Hbval. assert (Hf : 1 - 0 / 10000 == 1) by reflexivity.
    rewrite Hf. apply Qmult_1_r.
  - intros Hb0.
    destruct (performance_finite
                (let total_usd := np_sum (slice_to (ends !!! sim) (usd_executed r !!! sim)) in
                 let total_shares :=
                   np_sum (slice_to (ends !!! sim) (shares_acquired r !!! sim)) in
                 if Qltb 0 total_shares then total_usd / total_shares else 0) b Hb0)
      as (s & Hs & Hsval).
    exists s. split; [|split; [done|]].
    + simpl. etrans; [apply (performance_lookup _ _ sim _ b Hv Hb)|by rewrite Hs].
    + intros Hbpos Hlt. rewrite Hsval. by apply performance_score_positive.
Qed.

Lemma evaluation_benchmark_and_score_witness :
  let r := mkStrategyResult [[100; 300; 0]] [[1; 4; 0]] [[1; 5; 5]] [2%Z] in
  ∃ metrics m v b,
    calculate_all_metrics (λ x, x) (<["strategy_1" := r]> ∅)
                          (mkPrices 3 [[100; 100; 100]]) 50 = Ok metrics
    ∧ metrics !! "strategy_1" = Some m
    ∧ vwap m !! 0%nat = Some v
    ∧ benchmark_prices m !! 0%nat = Some b
    ∧ b == path_mean [100; 100; 100] 2.
Proof.
  intros r.
  assert (Hdisc : 0 <= 50) by lra.
  assert (Hr : (<["strategy_1" := r]> ∅ : gmap string StrategyResult) !! "strategy_1"
               = Some r) by apply lookup_insert_eq.
  assert (Hall : ∀ name' r',
            (<["strategy_1" := r]> ∅ : gmap string StrategyResult) !! name' = Some r' →
            Nat.lt 0 (length (usd_executed r'))).
  { intros name' r' Hr'. apply lookup_insert_Some in Hr' as [[_ <-]|[_ Hr']].
    - simpl. lia.
    - by rewrite lookup_empty in Hr'. }
  assert (Hsim : Nat.lt 0 (num_simulations (mkPrices 3 [[100; 100; 100]])))
    by (unfold num_simulations; simpl; lia).
  assert (Husd : Nat.lt 0 (length (usd_executed r))) by (simpl; lia).
  assert (He : Z.le 1 (actual_end_days r !!! 0%nat)) by (simpl; lia).
  assert (Hlen : Z.le (actual_end_days r !!! 0%nat)
                      (Z.of_nat (length (price_rows (mkPrices 3 [[100; 100; 100]])
                                         !!! 0%nat))))
    by (simpl; lia).
  destruct (evaluation_benchmark_and_score (λ x, x) (<["strategy_1" := r]> ∅)
              (mkPrices 3 [[100; 100; 100]]) 50 "strategy_1" r 0
              Hdisc Hall Hr Hsim Husd He Hlen)
    as (metrics & m & v & b & Hrun & Hm & Hv & Hb & _ & Hplain & _).
  exists metrics, m, v, b.
  split; [exact Hrun|]. split; [exact Hm|]. split; [exact Hv|]. split; [exact Hb|].
  apply Hplain. discriminate.
Defined.

(** ** Degenerate divisions *)

(** The claim C6 as the specification states it fails for a zero-valued
    evaluation benchmark: the score is not a fallback value but the result
    of the float division, NaN for a zero VWAP and an infinity otherwise. *)
Lemma zero_benchmark_has_no_fallback :
  calculate_execution_performance_bps [0; 100] [0; 0] = [NaN; NegInf]
  ∧ ¬ ∃ q, calculate_execution_performance_bps [0] [0] = [Finite q].
Proof.
  split; [reflexivity|]. intros [q Hq]. vm_compute in Hq. discriminate.
Qed.

(** C6 (amended). For every simulation, VWAP is the sum of the usd spent
    over days 0..end_day-1 divided by the sum of the shares acquired over
    the same days when that sum is positive, and 0 when it is zero (no
    exception is raised).  A zero-valued evaluation benchmark does not raise
    either, but it has no fallback: the score is never a finite number, it
    is NaN for a zero VWAP, minus infinity for a positive VWAP and plus
    infinity for a negative one. *)
Theorem vwap_fallback_and_zero_benchmark
    (usd shares : list (list Q)) (ends : list Z) (sim : nat) :
  (sim < length usd)%nat →
  let total_usd := np_sum (slice_to (ends !!! sim) (usd !!! sim)) in
  let total_shares := np_sum (slice_to (ends !!! sim) (shares !!! sim)) in
  (∃ v, calculate_vwap usd shares (Some ends) !! sim = Some v
        ∧ (0 < total_shares → v = total_usd / total_shares)
        ∧ (total_shares == 0 → v = 0))
  ∧ (∀ v b, b == 0 →
       (∀ q, calculate_execution_performance_bps [v] [b] ≠ [Finite q])
       ∧ (v == 0 → calculate_execution_performance_bps [v] [b] = [NaN])
       ∧ (0 < v → calculate_execution_performance_bps [v] [b] = [NegInf])
       ∧ (v < 0 → calculate_execution_performance_bps [v] [b] = [PosInf])).
Proof.
  intros Hsim total_usd total_shares. split.
  - eexists. split; [by apply calculate_vwap_lookup|]. simpl.
    fold total_usd total_shares. split.
    + intros Hpos. by rewrite (proj2 (Qltb_lt 0 total_shares)).
    + intros Hzero. rewrite (proj2 (Qltb_ge 0 total_shares)); [done|lra].
  - intros v b Hb. unfold calculate_execution_performance_bps, np_divide. simpl.
    rewrite (proj2 (Qeq_bool_iff b 0) Hb).
    assert (Hvb : v - b == v) by lra.
    destruct (Qeq_bool (v - b) 0) eqn:E0.
    + apply Qeq_bool_iff in E0. simpl.
      repeat split; try done; intros; lra.
    + apply Qeq_bool_neq in E0.
      destruct (Qltb 0 (v - b)) eqn:E1; simpl.
      * apply Qltb_lt in E1. repeat split; try done; intros; lra.
      * apply Qltb_ge in E1. repeat split; try done; intros; lra.
Qed.

Lemma vwap_fallback_and_zero_benchmark_witness :
  (∃ v, calculate_vwap [[100; 200; 300; 400]] [[1; 2; 3; 4]] (Some [2%Z]) !! 0%nat = Some v
        ∧ (0 < 1 + (2 + 0) → v = (100 + (200 + 0)) / (1 + (2 + 0))))
  ∧ calculate_execution_performance_bps [0] [0] = [NaN].
Proof.
  destruct (vwap_fallback_and_zero_benchmark
              [[100; 200; 300; 400]] [[1; 2; 3; 4]] [2%Z] 0)
    as [(v & Hv & Hpos & _) Hzero]; [simpl; lia|].
  split.
  - exists v. split; [exact Hv|exact Hpos].
  - destruct (Hzero 0 0) as (_ & Hnan & _); [reflexivity|].
    apply Hnan. reflexivity.
Defined.

(** ** Batch statistics *)

Lemma insert_sorted_perm (x : Q) (l : list Q) : insert_sorted x l ≡ₚ x :: l.
Proof.
  induction l as [|y l IH]; [done|]. simpl.
  destruct (Qle_bool x y); [done|]. rewrite IH. apply Permutation_swap.
Qed.

Lemma np_sort_perm (a : list Q) : np_sort a ≡ₚ a.
Proof.
  induction a as [|x a IH]; [done|]. simpl.
  rewrite insert_sorted_perm. by constructor.
Qed.

Lemma insert_sorted_sorted (x : Q) (l : list Q) :
  Sorted Qle l → Sorted Qle (insert_sorted x l).
Proof.
  induction 1 as [|y l Hl IH Hhd]; [by repeat constructor|]. simpl.
  destruct (Qle_bool x y) eqn:E.
  - apply Qle_bool_iff in E. by repeat constructor.
  - assert (Hyx : y <= x).
    { apply Qlt_le_weak, Qnot_le_lt. intros H. apply Qle_bool_iff in H. congruence. }
    constructor; [done|].
    destruct l as [|z l]; simpl; [by constructor|].
    inversion Hhd; subst. destruct (Qle_bool x z); by constructor.
Qed.

Lemma np_sort_sorted (a : list Q) : Sorted Qle (np_sort a).
Proof.
  induction a as [|x a IH]; [constructor|]. by apply insert_sorted_sorted.
Qed.

Lemma np_sort_length (a : list Q) : length (np_sort a) = length a.
Proof. apply Permutation_length, np_sort_perm. Qed.

Lemma Qmin_cases (x y : Q) : Qmin x y = x ∨ Qmin x y = y.
Proof. unfold Qmin, GenericMinMax.gmin. destruct (x ?= y); auto. Qed.

Lemma Qmax_cases (x y : Q) : Qmax x y = x ∨ Qmax x y = y.
Proof. unfold Qmax, GenericMinMax.gmax. destruct (x ?= y); auto. Qed.

Lemma foldl_Qmin_spec (a : list Q) (x : Q) :
  foldl Qmin x a ∈ x :: a ∧ Forall (λ y, foldl Qmin x a <= y) (x :: a).
Proof.
  revert x. induction a as [|y a IH]; intros x; simpl.
  - split; [by left|]. constructor; [lra|constructor].
  - destruct (IH (Qmin x y)) as [Hin Hle]. split.
    + apply elem_of_cons in Hin as [->|Hin].
      * destruct (Qmin_cases x y) as [->| ->]; [by left|by right; left].
      * by right; right.
    + inversion Hle as [|m l Hm Hl]; subst.
      pose proof (Q.le_min_l x y). pose proof (Q.le_min_r x y).
      constructor; [lra|]. constructor; [lra|done].
Qed.

Lemma foldl_Qmax_spec (a : list Q) (x : Q) :
  foldl Qmax x a ∈ x :: a ∧ Forall (λ y, y <= foldl Qmax x a) (x :: a).
Proof.
  revert x. induction a as [|y a IH]; intros x; simpl.
  - split; [by left|]. constructor; [lra|constructor].
  - destruct (IH (Qmax x y)) as [Hin Hle]. split.
    + apply elem_of_cons in Hin as [->|Hin].
      * destruct (Qmax_cases x y) as [->| ->]; [by left|by right; left].
      * by right; right.
    + inversion Hle as [|m l Hm Hl]; subst.
      pose proof (Q.le_max_l x y). pose proof (Q.le_max_r x y).
      constructor; [lra|]. constructor; [lra|done].
Qed.

Lemma np_sum_as_sum_over (v : list Q) (f : Q → Q) :
  np_sum (map f v) = sum_over (length v) (λ i, f (v !!! i)).
Proof.
  unfold sum_over. rewrite (list_as_map v) at 1. by rewrite map_map.
Qed.

Lemma np_mean_vector_mean (v : list Q) : np_mean v = vector_mean v.
Proof.
  unfold np_mean, vector_mean.
  rewrite <- (np_sum_as_sum_over v (λ x, x)). by rewrite map_id.
Qed.

Lemma np_mean_singleton (x : Q) : np_mean [x] == x.
Proof. unfold np_mean. simpl. field. Qed.

Lemma np_mean_pair (x y : Q) : np_mean [x; y] == (x + y) / 2.
Proof. unfold np_mean. simpl. field. Qed.

Lemma drop_cons_lookup (s : list Q) (k : nat) :
  (k < length s)%nat → drop k s = s !!! k :: drop (S k) s.
Proof.
  intros Hk. destruct (lookup_lt_is_Some_2 s k Hk) as [x Hx].
  rewrite (list_lookup_total_correct _ _ _ Hx). by apply drop_S.
Qed.

Lemma np_median_spec (v : list Q) :
  v ≠ [] →
  let s := np_sort v in
  let n := length v in
  (Nat.even n = false → np_median v == s !!! (n / 2)%nat)
  ∧ (Nat.even n = true →
     np_median v == (s !!! (n / 2 - 1)%nat + s !!! (n / 2)%nat) / 2).
Proof.
  intros Hne s n. unfold np_median. cbv zeta. rewrite np_sort_length. fold s n.
  assert (Hn : (0 < n)%nat) by (subst n; destruct v; simpl; [done|lia]).
  assert (Hs : length s = n) by apply np_sort_length.
  split; intros Hpar; rewrite Hpar.
  - rewrite drop_cons_lookup by (rewrite Hs; apply Nat.div_lt; lia).
    simpl. rewrite take_0. apply np_mean_singleton.
  - assert (H2 : (2 ≤ n)%nat).
    { destruct n as [|[|n']]; [lia|done|lia]. }
    assert (Hhalf : (1 ≤ n / 2)%nat) by (apply Nat.div_le_lower_bound; lia).
    assert (Hlt : (n / 2 < n)%nat) by (apply Nat.div_lt; lia).
    rewrite drop_cons_lookup by lia.
    rewrite (drop_cons_lookup s (S (n / 2 - 1))) by lia.
    replace (S (n / 2 - 1)) with (n / 2)%nat by lia.
    simpl. rewrite take_0. apply np_mean_pair.
Qed.

Lemma np_std_population (np_sqrt : Q → Q) (v : list Q) :
  np_std np_sqrt v = np_sqrt (population_variance v).
Proof.
  unfold np_std, population_variance. f_equal.
  unfold np_mean at 1. rewrite length_map, np_sum_as_sum_over.
  by rewrite np_mean_vector_mean.
Qed.

Lemma np_percentile_interpolated (v : list Q) (q : Q) :
  np_percentile v q == interpolated_percentile (np_sort v) q.
Proof. unfold np_percentile, interpolated_percentile. cbv zeta. ring. Qed.

(** C10. For every non-empty performance-score vector of length N the
    batch statistics are: the mean, the population standard deviation (the
    square root of the mean squared deviation, divisor N), the standard
    error (that standard deviation over the square root of N), the median
    (the middle of the sorted vector, or the mean of its two middle
    elements), the 25th and 75th percentile (linear interpolation in the
    sorted vector), the minimum and the maximum of the vector; for
    [100,200,300,400,500] the mean is 300, the median 300, p25 200, p75 400,
    the minimum 100 and the maximum 500. *)
Theorem performance_statistics_of_vector (np_sqrt : Q → Q) (v : list Q) :
  v ≠ [] →
  let N := length v in
  let sorted := np_sort v in
  (∃ s,
     calculate_performance_statistics np_sqrt v = Ok s
     ∧ stat_mean s = vector_mean v
     ∧ stat_std s = np_sqrt (population_variance v)
     ∧ stat_std_error s = stat_std s / np_sqrt (inject_Z (Z.of_nat N))
     ∧ (Sorted Qle sorted ∧ sorted ≡ₚ v)
     ∧ (Nat.even N = false → stat_median s == sorted !!! (N / 2)%nat)
     ∧ (Nat.even N = true →
        stat_median s == (sorted !!! (N / 2 - 1)%nat + sorted !!! (N / 2)%nat) / 2)
     ∧ stat_p25 s == interpolated_percentile sorted 25
     ∧ stat_p75 s == interpolated_percentile sorted 75
     ∧ (stat_min s ∈ v ∧ Forall (λ x, stat_min s <= x) v)
     ∧ (stat_max s ∈ v ∧ Forall (λ x, x <= stat_max s) v))
  ∧ (∃ s5,
       calculate_performance_statistics np_sqrt [100; 200; 300; 400; 500] = Ok s5
       ∧ stat_mean s5 == 300 ∧ stat_median s5 == 300
       ∧ stat_p25 s5 == 200 ∧ stat_p75 s5 == 400
       ∧ stat_min s5 == 100 ∧ stat_max s5 == 500).
Proof.
  intros Hne N sorted. split.
  - destruct (np_median_spec v Hne) as [Hodd Heven].
    destruct v as [|x v]; [done|].
    eexists. split; [reflexivity|]. simpl.
    split; [apply (np_mean_vector_mean (x :: v))|].
    split; [apply np_std_population|].
    split; [by rewrite np_std_population|].
    split; [split; [apply (np_sort_sorted (x :: v))|apply (np_sort_perm (x :: v))]|].
    split; [exact Hodd|]. split; [exact Heven|].
    split; [apply np_percentile_interpolated|].
    split; [apply np_percentile_interpolated|].
    split; [apply foldl_Qmin_spec|apply foldl_Qmax_spec].
  - eexists. split; [reflexivity|]. repeat split; reflexivity.
Qed.

Lemma performance_statistics_of_vector_witness :
  ∃ s,
    calculate_performance_statistics (λ x, x) [400; 100; 300; 200] = Ok s
    ∧ stat_mean s = vector_mean [400; 100; 300; 200]
    ∧ stat_median s == (200 + 300) / 2
    ∧ stat_min s ∈ [400; 100; 300; 200].
Proof.
  destruct (performance_statistics_of_vector (λ x, x) [400; 100; 300; 200])
    as [(s & Hs & Hmean & _ & _ & _ & _ & Heven & _ & _ & [Hmin _] & _) _]; [done|].
  exists s. split; [exact Hs|]. split; [exact Hmean|].
  split; [exact (Heven eq_refl)|exact Hmin].
Defined.

(** ** The path generator ([gbm.py]) and configuration errors *)

(** C7. For every integer seed and every parameter tuple (S0, days,
    drift, volatility, simulation count), two calls of the path generator
    with that seed return the same batch: the result does not depend on the
    state in which the call finds the process-wide generator, and a second
    call made right after the first repeats its result. *)
Theorem seeded_paths_are_reproducible (np_sqrt np_exp : Q → Q) (rng_state : Type)
    (np_random_seed : Z → rng_state)
    (np_random_standard_normal : rng_state → nat → nat → list (list Q) * rng_state)
    (g1 g2 : rng_state) (S0 : Q) (num_days : Z) (drift_pct volatility_pct : Q)
    (num_simulations : Z) (seed : Z) :
  let generate g :=
    simulate_gbm_paths np_sqrt np_exp rng_state np_random_seed
                       np_random_standard_normal g S0 num_days drift_pct
                       volatility_pct num_simulations (Some seed) in
  (generate g1).1 = (generate g2).1
  ∧ (generate (generate g1).2).1 = (generate g1).1.
Proof.
  assert (Hindep : ∀ g g',
    (simulate_gbm_paths np_sqrt np_exp rng_state np_random_seed
       np_random_standard_normal g S0 num_days drift_pct volatility_pct
       num_simulations (Some seed)).1
    = (simulate_gbm_paths np_sqrt np_exp rng_state np_random_seed
         np_random_standard_normal g' S0 num_days drift_pct volatility_pct
         num_simulations (Some seed)).1).
  { intros g g'. unfold simulate_gbm_paths.
    destruct ((0 <=? seed)%Z && (seed <? 2 ^ 32)%Z); [|done].
    destruct (np_zeros2 num_simulations num_days); [|done].
    destruct (num_days =? 0)%Z; done. }
  intros generate. split; apply Hindep.
Qed.

Lemma raises_Ok {A} (a : A) : ¬ raises (Ok a).
Proof. intros [e He]. discriminate. Qed.

Lemma raises_Raise {A} (e : pyerror) : raises (@Raise A e).
Proof. by exists e. Qed.

(** The claim C3 as the specification states it fails: the strategy
    engine runs a configuration whose duration bounds are out of order
    (min_duration 5, target_duration 3, max_duration 2) and returns an
    execution record. *)
Lemma out_of_order_durations_are_executed :
  (∃ shares cum,
     execute_strategy_2 (mkPrices 3 [[100; 100; 100]]) 1000 3 5 2 None
     = Ok ([[1000 # 3; 2000 # 3; 0]], shares, cum, [2%Z]))
  ∧ ¬ raises (execute_strategy_2 (mkPrices 3 [[100; 100; 100]]) 1000 3 5 2 None).
Proof.
  split; [eexists _, _; reflexivity|].
  intros [e He]. vm_compute in He. discriminate.
Qed.

Lemma execute_strategy_2_raises (prices : Prices) (total : Q) (target mn mx : Z)
    (discount_bps : Q) :
  raises (execute_strategy_2 prices total target mn mx
            (Some (calculate_arithmetic_mean_benchmark prices discount_bps)))
  ↔ target = 0%Z.
Proof.
  split.
  - intros Hraise. destruct (decide (target = 0%Z)) as [|Hne]; [done|].
    destruct (execute_strategy_2_spec prices total target mn mx
                (Some (calculate_arithmetic_mean_benchmark prices discount_bps)) 0 Hne)
      as (rows & Hrun & _); [by apply benchmark_nonempty|lra|].
    rewrite Hrun in Hraise. by apply raises_Ok in Hraise.
  - intros ->. unfold execute_strategy_2. simpl. apply raises_Raise.
Qed.

(** C3 (amended). Neither the path generator nor the strategy engine
    validates its configuration.  Each of the three strategies raises, before
    any simulation row is processed, exactly when target_duration is 0 (the
    division that computes the daily amount); every other configuration,
    out-of-order duration bounds included, is executed and returns its
    execution record.  The path generator raises exactly when the seed is
    outside 0..2^32-1, a dimension is negative or the day count is 0; a
    non-positive initial price and a simulation count of 0 are accepted. *)
Theorem configuration_errors (np_sqrt np_exp : Q → Q) (rng_state : Type)
    (np_random_seed : Z → rng_state)
    (np_random_standard_normal : rng_state → nat → nat → list (list Q) * rng_state)
    (prices : Prices) (total : Q) (target mn mx : Z) (discount_bps : Q)
    (g : rng_state) (S0 : Q) (num_days : Z) (drift_pct volatility_pct : Q)
    (num_simulations : Z) (random_seed : option Z) :
  (raises (execute_strategy_1 prices total target) ↔ target = 0%Z)
  ∧ (raises (execute_strategy_2 prices total target mn mx None) ↔ target = 0%Z)
  ∧ (raises (execute_strategy_3 prices total target mn mx discount_bps) ↔ target = 0%Z)
  ∧ (raises (execute_all_strategies prices total target mn mx discount_bps)
     ↔ target = 0%Z)
  ∧ (raises (simulate_gbm_paths np_sqrt np_exp rng_state np_random_seed
               np_random_standard_normal g S0 num_days drift_pct volatility_pct
               num_simulations random_seed).1
     ↔ (∃ seed, random_seed = Some seed ∧ ¬ (0 ≤ seed < 2 ^ 32)%Z)
       ∨ (num_simulations < 0)%Z ∨ (num_days ≤ 0)%Z).
Proof.
  assert (H1 : raises (execute_strategy_1 prices total target) ↔ target = 0%Z).
  { unfold execute_strategy_1. destruct (Z.eqb_spec target 0) as [->|Hne].
    - split; [done|intros _; apply raises_Raise].
    - split; [intros H; by apply raises_Ok in H|done]. }
  assert (H2 : raises (execute_strategy_2 prices total target mn mx None)
               ↔ target = 0%Z).
  { apply (execute_strategy_2_raises prices total target mn mx 0). }
  assert (H3 : raises (execute_strategy_3 prices total target mn mx discount_bps)
               ↔ target = 0%Z).
  { apply execute_strategy_2_raises. }
  split; [done|]. split; [done|]. split; [done|]. split.
  - unfold execute_all_strategies.
    destruct (execute_strategy_1 prices total target) as [[[[u1 s1] c1] e1]|err1] eqn:E1.
    + assert (Hne : target ≠ 0%Z).
      { intros Heq. apply H1 in Heq. by apply raises_Ok in Heq. }
      destruct (execute_strategy_2 prices total target mn mx None)
        as [[[[u2 s2] c2] e2]|err2] eqn:E2;
        [|exfalso; apply Hne, H2, raises_Raise].
      destruct (execute_strategy_3 prices total target mn mx discount_bps)
        as [[[[u3 s3] c3] e3]|err3] eqn:E3;
        [|exfalso; apply Hne, H3, raises_Raise].
      simpl. split; [intros H; by apply raises_Ok in H|done].
    + simpl. split; [intros _; apply H1, raises_Raise|intros _; apply raises_Raise].
  - unfold simulate_gbm_paths, np_zeros2.
    destruct random_seed as [seed|].
    + destruct (Z.leb_spec 0 seed), (Z.ltb_spec seed (2 ^ 32)); simpl;
        try (split; [intros _; left; exists seed; split; [done|lia]
                    |intros _; apply raises_Raise]).
      destruct (Z.ltb_spec num_simulations 0), (Z.ltb_spec num_days 0); simpl;
        try (split; [intros _; right; lia|intros _; apply raises_Raise]).
      destruct (Z.eqb_spec num_days 0); simpl.
      * split; [intros _; right; lia|intros _; apply raises_Raise].
      * destruct (np_random_standard_normal _ _ _). simpl.
        split; [intros H'; by apply raises_Ok in H'|].
        intros [(seed' & Hs & Hbad)|[?|?]]; [|lia..].
        injection Hs as <-. lia.
    + simpl.
      destruct (Z.ltb_spec num_simulations 0), (Z.ltb_spec num_days 0); simpl;
        try (split; [intros _; right; lia|intros _; apply raises_Raise]).
      destruct (Z.eqb_spec num_days 0); simpl.
      * split; [intros _; right; lia|intros _; apply raises_Raise].
      * destruct (np_random_standard_normal _ _ _). simpl.
        split; [intros H'; by apply raises_Ok in H'|].
        intros [(seed' & Hs & Hbad)|[?|?]]; [done|lia..].
Qed.

(** ** The repository's tests, replayed on the embedding *)

(** [test_strategy_1_shares_calculation]. *)
Example strategy_1_shares_calculation :
  match execute_strategy_1 (mkPrices 3 [[100; 200; 50]]) 300 3 with
  | Ok ([usd], [shares], [cum], actual_end_day) =>
    Forall2 Qeq usd [100; 100; 100]
    ∧ Forall2 Qeq shares [1; 0.5; 2]
    ∧ Forall2 Qeq cum [1; 1.5; 3.5]
    ∧ actual_end_day = 3%Z
  | _ => False
  end.
Proof. vm_compute. repeat split; repeat constructor. Qed.

(** [test_strategy_2_basic_logic]: three ramp days, two decelerated days,
    then the rest of the budget on the first day below the benchmark. *)
Example strategy_2_basic_logic :
  match execute_strategy_2 (mkPrices 10 [[100; 95; 90; 110; 120; 100; 95; 90; 85; 80]])
                           1000 5 3 8 None with
  | Ok ([usd], _, _, actual_end_days) =>
    Forall2 Qeq usd [200; 200; 200; 80; 80; 240; 0; 0; 0; 0]
    ∧ actual_end_days = [6%Z]
  | _ => False
  end.
Proof. vm_compute. split; repeat constructor. Qed.

(** [test_strategy_2_acceleration]: falling prices end the schedule one
    day after [min_duration]. *)
Example strategy_2_acceleration :
  match execute_strategy_2 (mkPrices 10 [[100; 90; 80; 70; 60; 50; 40; 30; 20; 10]])
                           1000 8 4 10 None with
  | Ok ([usd], _, _, actual_end_days) =>
    Forall2 Qeq usd [125; 125; 125; 125; 500; 0; 0; 0; 0; 0]
    ∧ actual_end_days = [5%Z]
  | _ => False
  end.
Proof. vm_compute. split; repeat constructor. Qed.

(** [test_strategy_2_deceleration]: rising prices stretch the schedule to
    [max_duration]. *)
Example strategy_2_deceleration :
  match execute_strategy_2
          (mkPrices 10 [[100; 110; 120; 130; 140; 150; 160; 170; 180; 190]])
          1000 5 3 10 None with
  | Ok ([usd], _, _, actual_end_days) =>
    Forall2 Qeq usd [200; 200; 200; 20; 20; 72; 72; 72; 72; 72]
    ∧ actual_end_days = [10%Z]
  | _ => False
  end.
Proof. vm_compute. split; repeat constructor. Qed.

(** [test_benchmark_expanding_window]. *)
Example benchmark_expanding_window :
  Forall2 Qeq
    (calculate_arithmetic_mean_benchmark (mkPrices 5 [[100; 120; 80; 110; 90]]) 0)
    [100; 110; 100; 102.5; 100].
Proof. vm_compute. repeat constructor. Qed.

(** [test_vwap_with_actual_end_days] and [test_vwap_zero_shares]. *)
Example vwap_with_actual_end_days :
  Forall2 Qeq
    (calculate_vwap [[100; 200; 300; 400]; [0; 0; 0; 0]]
                    [[1; 2; 3; 4]; [0; 0; 0; 0]] (Some [2%Z; 4%Z]))
    [100; 0].
Proof. vm_compute. repeat constructor. Qed.

(** [test_execution_performance_bps]. *)
Example execution_performance_bps :
  Forall2 (λ score bps, ∃ s, score = Finite s ∧ s == bps)
    (calculate_execution_performance_bps [102; 98; 100] [100; 100; 100])
    [-200; 200; 0].
Proof.
  vm_compute. repeat (constructor; [eexists; split; reflexivity|]). constructor.
Qed.

(** * Further properties of the code *)

(** ** Shares and cumulative shares *)

Lemma np_sum_take_S (a : list Q) (d : nat) (x : Q) :
  a !! d = Some x → np_sum (take (S d) a) == np_sum (take d a) + x.
Proof.
  intros Hx. rewrite (take_S_r a d x Hx), np_sum_app. simpl. lra.
Qed.

Lemma np_sum_take_zeros (a : list Q) (e : nat) :
  (∀ i, (i < length a)%nat → a !! i = Some 0) → np_sum (take e a) == 0.
Proof.
  intros Hzero. rewrite (np_sum_take_zero_tail a 0 e); [done| |lia].
  intros i _ Hi. by apply Hzero.
Qed.

Lemma shares_inv_record_trade (D : nat) (row : list Q) (day : nat)
    (daily_trade : Q) (st : RowState) :
  shares_inv D row day st → (day < D)%nat →
  shares_inv D row (S day) (record_trade row day daily_trade st).
Proof.
  intros (Husd & Hshares & Hcum & Hdone & Hrest) Hday.
  unfold shares_inv, record_trade. simpl.
  set (s := daily_trade / (row !!! day)).
  assert (Hs : <[day := s]> (shares_row st) !!! day = s)
    by (apply list_lookup_total_insert_eq; lia).
  rewrite Hs.
  assert (Hlen_cum : ∀ x,
    length (if (day =? 0)%nat then <[day := s]> (cum_row st)
            else <[day := x]> (cum_row st)) = D).
  { intros x. destruct (day =? 0)%nat; by rewrite length_insert. }
  split; [by rewrite length_insert|]. split; [by rewrite length_insert|].
  split; [apply Hlen_cum|]. split.
  - intros d Hd. destruct (decide (d = day)) as [->|Hne].
    + exists daily_trade. rewrite !list_lookup_insert_eq by lia.
      split; [done|]. split; [done|].
      assert (Hsum : np_sum (take (S day) (<[day := s]> (shares_row st)))
                     == np_sum (take day (shares_row st)) + s).
      { rewrite (np_sum_take_S _ day s) by (apply list_lookup_insert_eq; lia).
        rewrite take_insert_ge by lia. done. }
      destruct (Nat.eqb_spec day 0) as [->|Hpos].
      * exists s. rewrite list_lookup_insert_eq by lia. split; [done|].
        rewrite Hsum. simpl. lra.
      * eexists. rewrite list_lookup_insert_eq by lia. split; [done|].
        destruct (Hdone (day - 1)%nat) as (u & _ & _ & c & Hc & Hcval); [lia|].
        rewrite Hsum, (list_lookup_total_correct _ _ _ Hc), Hcval.
        replace (S (day - 1)) with day by lia. done.
    + destruct (Hdone d) as (u & Hu & Hsh & c & Hc & Hcval); [lia|].
      exists u. rewrite !list_lookup_insert_ne by lia.
      split; [done|]. split; [done|]. exists c. split.
      * destruct (day =? 0)%nat; by rewrite list_lookup_insert_ne by lia.
      * rewrite take_insert_ge by lia. done.
  - intros d Hd HD. destruct (Hrest d) as (Hu & Hsh & Hc); [lia..|].
    rewrite !list_lookup_insert_ne by lia. split; [done|]. split; [done|].
    destruct (day =? 0)%nat; by rewrite list_lookup_insert_ne by lia.
Qed.

Lemma fresh_row_shares_inv (total : Q) (D : nat) (row : list Q) :
  shares_inv D row 0 (fresh_row total D).
Proof.
  unfold shares_inv, fresh_row, np_zeros. simpl. rewrite length_replicate.
  repeat split; try done; try lia; by apply lookup_replicate_2.
Qed.

(** The loop of strategy 2, when it returns, has traded on the days before
    some day [k] and has left the later cells untouched; [k] is the day of
    the [break], or the end of the range. *)
Lemma strategy_2_loop_shares (cfg : Config) (fdv : Q) (benchmark row : list Q) (D : nat) :
  ∀ n a st st',
    (a + n ≤ D)%nat →
    shares_inv D row a st →
    end_day st = 0%Z →
    strategy_2_loop cfg fdv benchmark row (seq a n) st = Ok st' →
    ∃ k, (a ≤ k)%nat ∧ (k ≤ a + n)%nat
         ∧ shares_inv D row k st'
         ∧ ((end_day st' = Z.of_nat k ∧ (k < a + n)%nat)
            ∨ (end_day st' = 0%Z ∧ k = (a + n)%nat)).
Proof.
  induction n as [|n IH]; intros a st st' Hn Hinv Hend Hrun.
  - simpl in Hrun. injection Hrun as <-. exists a.
    split; [lia|]. split; [lia|]. split; [done|]. right. split; [done|lia].
  - simpl in Hrun. destruct (Qle_bool (remaining_usd st) 0.01).
    + injection Hrun as <-. exists a. split; [lia|]. split; [lia|].
      split; [exact Hinv|]. left. simpl. split; [done|lia].
    + destruct (choose_daily_trade cfg fdv benchmark row a (remaining_usd st))
        as [t|err]; [|discriminate].
      simpl in Hrun.
      destruct (IH (S a) (record_trade row a (py_min t (remaining_usd st)) st) st')
        as (k & Hk1 & Hk2 & Hk & Hout);
        [lia|apply shares_inv_record_trade; [done|lia]|done|exact Hrun|].
      exists k. split; [lia|]. split; [lia|]. split; [done|].
      destruct Hout as [[He Hlt]|[He ->]]; [left|right]; split; try done; lia.
Qed.

Lemma shares_inv_consistent (D : nat) (row : list Q) (k : nat) (st : RowState) (e : Z) :
  shares_inv D row k st →
  (e = Z.of_nat k ∨ (k = 0%nat)) →
  row_consistent D row (usd_row st) (shares_row st) (cum_row st) e.
Proof.
  intros (Husd & Hshares & Hcum & Hdone & Hrest) He.
  assert (Hcell : ∀ d u s, usd_row st !! d = Some u → shares_row st !! d = Some s →
                           s == u / (row !!! d)).
  { intros d u s Hu Hs. destruct (decide (d < k)%nat) as [Hd|Hd].
    - destruct (Hdone d Hd) as (u' & Hu' & Hs' & _).
      rewrite Hu in Hu'. injection Hu' as <-. rewrite Hs in Hs'. by injection Hs' as ->.
    - destruct (Hrest d) as (Hu' & Hs' & _);
        [lia|rewrite <- Husd; by eapply lookup_lt_Some|].
      rewrite Hu in Hu'. injection Hu' as ->. rewrite Hs in Hs'. injection Hs' as ->.
      unfold Qdiv. lra. }
  split; [exact Hcell|]. destruct He as [->| ->].
  - split.
    + intros d c Hd Hc. destruct (Hdone d) as (_ & _ & _ & c' & Hc' & Hcval); [lia|].
      rewrite Hc in Hc'. by injection Hc' as <-.
    + intros d Hd HD. apply Hrest; lia.
  - split.
    + intros d c _ Hc.
      assert (HD : (d < D)%nat) by (rewrite <- Hcum; by eapply lookup_lt_Some).
      destruct (Hrest d) as (_ & _ & Hc'); [lia|done|].
      rewrite Hc in Hc'. injection Hc' as ->.
      rewrite np_sum_take_zeros; [done|].
      intros i Hi. apply Hrest; lia.
    + intros d _ HD. apply Hrest; lia.
Qed.

(** One finished row of strategy 2 is consistent up to its end day. *)
Lemma strategy_2_row_consistent (cfg : Config) (fdv : Q) (benchmark row : list Q)
    (D : nat) (st : RowState) :
  strategy_2_row cfg fdv D benchmark row = Ok st →
  length (usd_row st) = D ∧ length (shares_row st) = D ∧ length (cum_row st) = D
  ∧ row_consistent D row (usd_row st) (shares_row st) (cum_row st) (end_day st).
Proof.
  unfold strategy_2_row, py_range. intros Hrun.
  destruct (strategy_2_loop cfg fdv benchmark row
              (seq 0 (Z.to_nat (Z.min (Z.of_nat D) (max_duration cfg))))
              (fresh_row (total_usd cfg) D)) as [st'|err] eqn:Hloop; [|discriminate].
  simpl in Hrun.
  destruct (strategy_2_loop_shares cfg fdv benchmark row D
              (Z.to_nat (Z.min (Z.of_nat D) (max_duration cfg))) 0%nat
              (fresh_row (total_usd cfg) D) st')
    as (k & _ & Hk & Hinv & Hout);
    [lia|apply fresh_row_shares_inv|done|exact Hloop|].
  assert (Hlens : length (usd_row st') = D ∧ length (shares_row st') = D
                  ∧ length (cum_row st') = D) by (split; [|split]; apply Hinv).
  destruct (Z.eqb_spec (end_day st') 0) as [Hzero|Hnz];
    injection Hrun as <-; simpl; (split; [apply Hlens|]);
    (split; [apply Hlens|]); (split; [apply Hlens|]).
  - destruct Hout as [[He Hlt]|[_ ->]].
    + apply (shares_inv_consistent D row k); [done|right; lia].
    + eapply shares_inv_consistent; [exact Hinv|].
      destruct (decide (0 < Z.min (max_duration cfg) (Z.of_nat D))%Z);
        [left|right]; lia.
  - destruct Hout as [[He Hlt]|[He _]]; [|done].
    apply (shares_inv_consistent D row k); [done|by left].
Qed.

Lemma for_each_row_inv {A B} (f : A → result B) (l : list A) (ys : list B) :
  for_each_row f l = Ok ys → Forall2 (λ x y, f x = Ok y) l ys.
Proof.
  revert ys. induction l as [|x l IH]; intros ys Hrun; simpl in Hrun.
  - injection Hrun as <-. constructor.
  - destruct (f x) as [y|] eqn:Hy; [|discriminate]. simpl in Hrun.
    destruct (for_each_row f l) as [ys'|]; [|discriminate].
    injection Hrun as <-. constructor; [done|]. by apply IH.
Qed.

(** Strategy 2 returns the finished rows of its loop, one per price row. *)
Lemma execute_strategy_2_rows (prices : Prices) (total : Q) (target mn mx : Z)
    (benchmark : option (list Q)) :
  target ≠ 0%Z →
  ((0 < num_days prices)%nat → benchmark_used prices benchmark ≠ []) →
  ∃ rows,
    execute_strategy_2 prices total target mn mx benchmark
    = Ok (map usd_row rows, map shares_row rows, map cum_row rows, map end_day rows)
    ∧ Forall2 (λ row st,
                 strategy_2_row (mkConfig total target mn mx) (total / inject_Z target)
                                (num_days prices) (benchmark_used prices benchmark) row
                 = Ok st)
              (price_rows prices) rows.
Proof.
  intros Htarget Hne.
  destruct (execute_strategy_2_spec prices total target mn mx benchmark 0 Htarget Hne)
    as (rows0 & Hrun0 & _); [lra|].
  unfold execute_strategy_2 in *. fold (benchmark_used prices benchmark) in *.
  rewrite (proj2 (Z.eqb_neq target 0)) in * by done.
  destruct (for_each_row _ (price_rows prices)) as [rows|err] eqn:Hrows;
    [|discriminate].
  exists rows. split; [done|]. by apply for_each_row_inv.
Qed.

Lemma strategy_1_day_inv (D : nat) (row : list Q) (daily_usd : Q) (day : nat)
    (a : FixedRow) :
  fixed_inv D row daily_usd day a → (day < D)%nat →
  fixed_inv D row daily_usd (S day) (strategy_1_day row daily_usd a day).
Proof.
  intros (Husd & Hshares & Hcum & Hdone & Hrest) Hday.
  unfold fixed_inv, strategy_1_day. simpl.
  set (s := daily_usd / (row !!! day)).
  assert (Hs : <[day := s]> (fixed_shares a) !!! day = s)
    by (apply list_lookup_total_insert_eq; lia).
  rewrite Hs.
  assert (Hlen_cum : ∀ x,
    length (if (day =? 0)%nat then <[day := s]> (fixed_cum a)
            else <[day := x]> (fixed_cum a)) = D).
  { intros x. destruct (day =? 0)%nat; by rewrite length_insert. }
  split; [by rewrite length_insert|]. split; [by rewrite length_insert|].
  split; [apply Hlen_cum|]. split.
  - intros d Hd. destruct (decide (d = day)) as [->|Hne].
    + rewrite !list_lookup_insert_eq by lia.
      split; [done|]. split; [done|].
      assert (Hsum : np_sum (take (S day) (<[day := s]> (fixed_shares a)))
                     == np_sum (take day (fixed_shares a)) + s).
      { rewrite (np_sum_take_S _ day s) by (apply list_lookup_insert_eq; lia).
        rewrite take_insert_ge by lia. done. }
      destruct (Nat.eqb_spec day 0) as [->|Hpos].
      * exists s. rewrite list_lookup_insert_eq by lia. split; [done|].
        rewrite Hsum. simpl. lra.
      * eexists. rewrite list_lookup_insert_eq by lia. split; [done|].
        destruct (Hdone (day - 1)%nat) as (_ & _ & c & Hc & Hcval); [lia|].
        rewrite Hsum, (list_lookup_total_correct _ _ _ Hc), Hcval.
        replace (S (day - 1)) with day by lia. done.
    + destruct (Hdone d) as (Hu & Hsh & c & Hc & Hcval); [lia|].
      rewrite !list_lookup_insert_ne by lia.
      split; [done|]. split; [done|]. exists c. split.
      * destruct (day =? 0)%nat; by rewrite list_lookup_insert_ne by lia.
      * rewrite take_insert_ge by lia. done.
  - intros d Hd HD. destruct (Hrest d) as (Hu & Hsh & Hc); [lia..|].
    rewrite !list_lookup_insert_ne by lia. split; [done|]. split; [done|].
    destruct (day =? 0)%nat; by rewrite list_lookup_insert_ne by lia.
Qed.

Lemma strategy_1_loop_inv (D : nat) (row : list Q) (daily_usd : Q) (k : nat) :
  (k ≤ D)%nat →
  fixed_inv D row daily_usd k
    (foldl (strategy_1_day row daily_usd)
           (mkFixedRow (np_zeros D) (np_zeros D) (np_zeros D)) (seq 0 k)).
Proof.
  induction k as [|k IH]; intros Hk.
  - unfold fixed_inv, np_zeros. simpl. rewrite length_replicate.
    repeat split; try done; try lia; by apply lookup_replicate_2.
  - rewrite seq_S, foldl_app. simpl. apply strategy_1_day_inv; [apply IH|]; lia.
Qed.

(** One row of strategy 1 is consistent up to [min(target_duration, D)]. *)
Lemma strategy_1_row_consistent (daily_usd : Q) (target : Z) (D : nat) (row : list Q) :
  let a := strategy_1_row daily_usd target D row in
  length (fixed_usd a) = D ∧ length (fixed_shares a) = D ∧ length (fixed_cum a) = D
  ∧ row_consistent D row (fixed_usd a) (fixed_shares a) (fixed_cum a)
                   (Z.min target (Z.of_nat D)).
Proof.
  intros a. subst a. unfold strategy_1_row, py_range.
  set (k := Z.to_nat (Z.min target (Z.of_nat D))).
  pose proof (strategy_1_loop_inv D row daily_usd k ltac:(lia)) as Hinv.
  set (a := foldl _ _ _) in *.
  destruct Hinv as (Husd & Hshares & Hcum & Hdone & Hrest).
  split; [done|]. split; [done|]. split; [done|].
  apply (shares_inv_consistent D row k (mkRowState 0 (fixed_usd a) (fixed_shares a)
                                          (fixed_cum a) 0)).
  - unfold shares_inv. simpl. repeat (split; [done|]). split; [|done].
    intros d Hd. destruct (Hdone d Hd) as (Hu & Hs & Hc). eauto.
  - destruct (decide (0 ≤ Z.min target (Z.of_nat D))%Z); [left|right]; lia.
Qed.

(** Every record of [execute_all_strategies] is consistent on every row. *)
Lemma all_strategies_consistent (prices : Prices) (total : Q) (target mn mx : Z)
    (discount_bps : Q) :
  target ≠ 0%Z →
  ∃ results,
    execute_all_strategies prices total target mn mx discount_bps = Ok results
    ∧ ∀ name r, results !! name = Some r →
        length (usd_executed r) = num_simulations prices
        ∧ ∀ sim row, price_rows prices !! sim = Some row →
          ∃ usd shares cum e,
            usd_executed r !! sim = Some usd
            ∧ shares_acquired r !! sim = Some shares
            ∧ cumulative_shares r !! sim = Some cum
            ∧ actual_end_days r !! sim = Some e
            ∧ length usd = num_days prices
            ∧ length shares = num_days prices
            ∧ length cum = num_days prices
            ∧ row_consistent (num_days prices) row usd shares cum e.
Proof.
  intros Htarget.
  assert (Hadaptive : ∀ benchmark,
    ((0 < num_days prices)%nat → benchmark_used prices benchmark ≠ []) →
    ∃ usd2 shares2 cum2 ends2,
      execute_strategy_2 prices total target mn mx benchmark
      = Ok (usd2, shares2, cum2, ends2)
      ∧ length usd2 = num_simulations prices
      ∧ ∀ sim row, price_rows prices !! sim = Some row →
          ∃ usd shares cum e,
            usd2 !! sim = Some usd ∧ shares2 !! sim = Some shares
            ∧ cum2 !! sim = Some cum ∧ ends2 !! sim = Some e
            ∧ length usd = num_days prices ∧ length shares = num_days prices
            ∧ length cum = num_days prices
            ∧ row_consistent (num_days prices) row usd shares cum e).
  { intros benchmark Hne.
    destruct (execute_strategy_2_rows prices total target mn mx benchmark Htarget Hne)
      as (rows & Hrun & Hrows).
    eexists _, _, _, _. split; [exact Hrun|].
    split; [rewrite length_map; symmetry; by eapply Forall2_length|].
    intros sim row Hrow.
    destruct (Forall2_lookup_l _ _ _ _ _ Hrows Hrow) as (st & Hst & Hok).
    apply strategy_2_row_consistent in Hok as (H1 & H2 & H3 & H4).
    exists (usd_row st), (shares_row st), (cum_row st), (end_day st).
    change (map ?f rows) with (f <$> rows). rewrite !list_lookup_fmap, Hst. done. }
  unfold execute_all_strategies, execute_strategy_3.
  unfold execute_strategy_1. rewrite (proj2 (Z.eqb_neq target 0)) by done. simpl.
  destruct (Hadaptive None) as (usd2 & shares2 & cum2 & ends2 & -> & Hl2 & H2);
    [by apply benchmark_nonempty|].
  destruct (Hadaptive (Some (calculate_arithmetic_mean_benchmark prices discount_bps)))
    as (usd3 & shares3 & cum3 & ends3 & -> & Hl3 & H3); [by apply benchmark_nonempty|].
  simpl. eexists. split; [reflexivity|].
  intros name r Hr.
  apply lookup_insert_Some in Hr as [[<- <-]|[_ Hr]]; [by split|].
  apply lookup_insert_Some in Hr as [[<- <-]|[_ Hr]]; [by split|].
  apply lookup_insert_Some in Hr as [[<- <-]|[_ Hr]];
    [|by rewrite lookup_empty in Hr].
  split; [simpl; by rewrite !length_map|].
  intros sim row Hrow. simpl.
  destruct (strategy_1_row_consistent (total / inject_Z target) target
              (num_days prices) row) as (H1 & H1' & H1'' & Hcons).
  eexists _, _, _, _.
  change (map ?f (map ?g ?l)) with (f <$> (g <$> l)).
  rewrite !list_lookup_fmap, Hrow. simpl.
  split; [done|]. split; [done|]. split; [done|]. split; [|done].
  apply lookup_replicate_2. unfold num_simulations. by eapply lookup_lt_Some.
Qed.

(** X1. In every record that [execute_all_strategies] returns, for a batch
    of positive prices, the shares acquired on a day are the usd spent that
    day divided by that day's price of the row: shares times price gives
    back the spend. *)
Theorem shares_times_price_is_spend (prices : Prices) (total : Q) (target mn mx : Z)
    (discount_bps : Q) :
  Forall (Forall (λ p, 0 < p)) (price_rows prices) →
  target ≠ 0%Z →
  ∃ results,
    execute_all_strategies prices total target mn mx discount_bps = Ok results
    ∧ ∀ name r, results !! name = Some r →
        ∀ sim row, price_rows prices !! sim = Some row →
          ∃ usd shares,
            usd_executed r !! sim = Some usd
            ∧ shares_acquired r !! sim = Some shares
            ∧ length usd = num_days prices
            ∧ length shares = num_days prices
            ∧ ∀ d u s p, usd !! d = Some u → shares !! d = Some s → row !! d = Some p →
                s == u / p ∧ s * p == u.
Proof.
  intros Hpos Htarget.
  destruct (all_strategies_consistent prices total target mn mx discount_bps Htarget)
    as (results & Hrun & Hall).
  exists results. split; [done|]. intros name r Hr sim row Hrow.
  destruct (proj2 (Hall name r Hr) sim row Hrow)
    as (usd & shares & cum & e & Hu & Hs & _ & _ & Hlu & Hls & _ & Hcell & _).
  exists usd, shares. repeat (split; [done|]).
  intros d u s p Hud Hsd Hpd.
  pose proof (Hcell d u s Hud Hsd) as Hval.
  rewrite (list_lookup_total_correct _ _ _ Hpd) in Hval.
  assert (Hp : 0 < p).
  { exact (Forall_lookup_1 _ _ _ _ (Forall_lookup_1 _ _ _ _ Hpos Hrow) Hpd). }
  split; [done|]. rewrite Hval. field. lra.
Qed.

Lemma shares_times_price_is_spend_witness :
  ∃ results,
    execute_all_strategies (mkPrices 3 [[100; 200; 50]]) 300 3 1 3 50 = Ok results
    ∧ ∀ name r, results !! name = Some r →
        ∃ usd shares,
          usd_executed r !! 0%nat = Some usd
          ∧ shares_acquired r !! 0%nat = Some shares
          ∧ ∀ u s, usd !! 1%nat = Some u → shares !! 1%nat = Some s → s * 200 == u.
Proof.
  assert (Hpos : Forall (Forall (λ p, 0 < p)) (price_rows (mkPrices 3 [[100; 200; 50]])))
    by (repeat constructor).
  assert (Htarget : 3%Z ≠ 0%Z) by lia.
  destruct (shares_times_price_is_spend (mkPrices 3 [[100; 200; 50]]) 300 3 1 3 50
              Hpos Htarget) as (results & Hrun & Hall).
  exists results. split; [exact Hrun|]. intros name r Hr.
  destruct (Hall name r Hr 0%nat [100; 200; 50] eq_refl)
    as (usd & shares & Hu & Hs & _ & _ & Hcell).
  exists usd, shares. split; [exact Hu|]. split; [exact Hs|].
  intros u s Hu1 Hs1. exact (proj2 (Hcell 1%nat u s 200 Hu1 Hs1 eq_refl)).
Defined.

(** X2. In every record that [execute_all_strategies] returns, the
    cumulative shares of a day before the row's end day are the sum of the
    shares acquired up to and including that day, and the cumulative shares
    of every day from the end day on are zero: the array does not carry the
    final total forward. *)
Theorem cumulative_shares_running_total (prices : Prices) (total : Q)
    (target mn mx : Z) (discount_bps : Q) :
  target ≠ 0%Z →
  ∃ results,
    execute_all_strategies prices total target mn mx discount_bps = Ok results
    ∧ ∀ name r, results !! name = Some r →
        ∀ sim row, price_rows prices !! sim = Some row →
          ∃ shares cum e,
            shares_acquired r !! sim = Some shares
            ∧ cumulative_shares r !! sim = Some cum
            ∧ actual_end_days r !! sim = Some e
            ∧ length cum = num_days prices
            ∧ (∀ d c, (Z.of_nat d < e)%Z → cum !! d = Some c →
                      c == np_sum (take (S d) shares))
            ∧ (∀ d, (e ≤ Z.of_nat d)%Z → (d < num_days prices)%nat →
                    cum !! d = Some 0).
Proof.
  intros Htarget.
  destruct (all_strategies_consistent prices total target mn mx discount_bps Htarget)
    as (results & Hrun & Hall).
  exists results. split; [done|]. intros name r Hr sim row Hrow.
  destruct (proj2 (Hall name r Hr) sim row Hrow)
    as (usd & shares & cum & e & _ & Hs & Hc & He & _ & _ & Hlc & _ & Hrun_sum & Hidle).
  exists shares, cum, e. repeat (split; [done|]).
  intros d Hd HD. by destruct (Hidle d Hd HD) as (_ & _ & ?).
Qed.

Lemma cumulative_shares_running_total_witness :
  ∃ results,
    execute_all_strategies (mkPrices 4 [[100; 200; 50; 100]]) 300 3 1 3 50 = Ok results
    ∧ ∀ name r, results !! name = Some r →
        ∃ cum e,
          cumulative_shares r !! 0%nat = Some cum
          ∧ actual_end_days r !! 0%nat = Some e
          ∧ ((e ≤ 3)%Z → cum !! 3%nat = Some 0).
Proof.
  assert (Htarget : 3%Z ≠ 0%Z) by lia.
  destruct (cumulative_shares_running_total (mkPrices 4 [[100; 200; 50; 100]])
              300 3 1 3 50 Htarget) as (results & Hrun & Hall).
  exists results. split; [exact Hrun|]. intros name r Hr.
  destruct (Hall name r Hr 0%nat [100; 200; 50; 100] eq_refl)
    as (shares & cum & e & _ & Hc & He & _ & _ & Hzero).
  exists cum, e. split; [exact Hc|]. split; [exact He|].
  intros Hle. apply Hzero; [exact Hle|]. simpl. lia.
Defined.

(** ** Bounds on the adaptive schedule *)

Lemma Qdiv_nonneg (x : Q) (k : Z) : 0 <= x → (1 ≤ k)%Z → 0 <= x / inject_Z k.
Proof.
  intros Hx Hk. apply Qle_shift_div_l; [|lra].
  change 0 with (inject_Z 0). rewrite <- Zlt_Qlt. lia.
Qed.

(** The decision tree never asks for a negative amount nor for more than
    what is left. *)
Lemma adaptive_decision_bounds (cfg : Config) (day : nat) (remaining price b : Q) :
  0 <= remaining →
  0 <= total_usd cfg / inject_Z (target_duration cfg) →
  0 <= trade_of (adaptive_decision cfg day remaining price b)
  ∧ trade_of (adaptive_decision cfg day remaining price b) <= remaining.
Proof.
  intros Hrem Hfdv. unfold adaptive_decision.
  set (fdv := total_usd cfg / inject_Z (target_duration cfg)) in *.
  destruct (Qlt_le_dec 0.01 remaining); [|simpl; split; lra].
  simpl. split; [|apply Q.le_min_r].
  apply Q.min_glb; [|done].
  assert (Hdiv : ∀ k, 0 <= remaining / inject_Z (Z.max 1 k))
    by (intros k; apply Qdiv_nonneg; [done|lia]).
  repeat match goal with
         | |- context [decide ?P] => destruct (decide P)
         | |- context [Qlt_le_dec ?x ?y] => destruct (Qlt_le_dec x y)
         end;
    first [done | apply Hdiv | apply Q.min_glb; first [done | apply Hdiv | lra]].
Qed.

(** A finished row of the adaptive loop: no cell is negative and no prefix
    of the row spends more than the budget. *)
Lemma adaptive_row_within_budget (cfg : Config) (D : nat) (lo : Q)
    (benchmark row : list Q) (st : RowState) :
  adaptive_row_facts cfg D lo benchmark row st →
  0 <= total_usd cfg → (1 ≤ target_duration cfg)%Z →
  (1 ≤ max_duration cfg)%Z → (max_duration cfg ≤ Z.of_nat D)%Z →
  ∀ d, (d < D)%nat →
    ∃ u, usd_row st !! d = Some u ∧ 0 <= u
         ∧ np_sum (take (S d) (usd_row st)) <= total_usd cfg.
Proof.
  intros (Hlen & _ & Htree & Hend) Htotal Htarget Hmx HD.
  destruct (Hend Hmx HD) as (He1 & He2 & Hidle & _).
  assert (Hfdv : 0 <= total_usd cfg / inject_Z (target_duration cfg))
    by (by apply Qdiv_nonneg).
  assert (Hprefix : ∀ d, (d ≤ D)%nat → np_sum (take d (usd_row st)) <= total_usd cfg).
  { induction d as [|d IH]; intros Hd; [simpl; lra|].
    destruct (lookup_lt_is_Some_2 (usd_row st) d) as [u Hu]; [lia|].
    rewrite (np_sum_take_S _ d u Hu).
    destruct (decide (d < processed_days cfg D)%nat) as [Hproc|Hproc].
    - destruct (Htree d Hproc) as (u' & Hu' & Hval).
      rewrite Hu in Hu'. injection Hu' as <-.
      destruct (adaptive_decision_bounds cfg d
                  (total_usd cfg - np_sum (take d (usd_row st))) (row !!! d)
                  (decision_benchmark_value benchmark d)) as [_ Hle];
        [specialize (IH ltac:(lia)); lra|done|].
      rewrite <- Hval in Hle. lra.
    - destruct (Hidle d) as [Hu0 _]; [unfold processed_days in Hproc; lia|lia|].
      rewrite Hu in Hu0. injection Hu0 as ->. specialize (IH ltac:(lia)). lra. }
  intros d Hd.
  destruct (lookup_lt_is_Some_2 (usd_row st) d) as [u Hu]; [lia|].
  exists u. split; [done|]. split; [|apply Hprefix; lia].
  destruct (decide (d < processed_days cfg D)%nat) as [Hproc|Hproc].
  - destruct (Htree d Hproc) as (u' & Hu' & Hval).
    rewrite Hu in Hu'. injection Hu' as <-.
    destruct (adaptive_decision_bounds cfg d
                (total_usd cfg - np_sum (take d (usd_row st))) (row !!! d)
                (decision_benchmark_value benchmark d)) as [Hge _];
      [specialize (Hprefix d ltac:(lia)); lra|done|].
    by rewrite Hval.
  - destruct (Hidle d) as [Hu0 _]; [unfold processed_days in Hproc; lia|lia|].
    rewrite Hu in Hu0. injection Hu0 as ->. lra.
Qed.




(** On a ramp day with at least one daily amount left the tree trades the
    daily amount. *)
Lemma ramp_decision (cfg : Config) (day : nat) (remaining price b : Q) :
  let fdv := total_usd cfg / inject_Z (target_duration cfg) in
  0.01 < fdv → fdv <= remaining →
  (Z.of_nat day < min_duration cfg)%Z → (min_duration cfg ≤ 10)%Z →
  ((Z.of_nat day = max_duration cfg - 1)%Z → remaining == fdv) →
  trade_of (adaptive_decision cfg day remaining price b) == fdv.
Proof.
  intros fdv Hfdv Hrem Hday Hmn Hlast. unfold adaptive_decision. fold fdv.
  destruct (Qlt_le_dec 0.01 remaining); [|lra]. simpl.
  destruct (decide (Z.of_nat day = max_duration cfg - 1)%Z) as [Heq|Hneq].
  - rewrite Q.min_id. by apply Hlast.
  - rewrite decide_True by lia. by apply Q.min_l.
Qed.

Lemma adaptive_row_ramp (cfg : Config) (D : nat) (lo : Q)
    (benchmark row : list Q) (st : RowState) :
  adaptive_row_facts cfg D lo benchmark row st →
  (1 ≤ min_duration cfg)%Z → (min_duration cfg ≤ target_duration cfg)%Z →
  (target_duration cfg ≤ max_duration cfg)%Z → (max_duration cfg ≤ Z.of_nat D)%Z →
  (min_duration cfg ≤ 10)%Z →
  0.01 < total_usd cfg / inject_Z (target_duration cfg) →
  (∀ d, (Z.of_nat d < min_duration cfg)%Z →
     ∃ u, usd_row st !! d = Some u
          ∧ u == total_usd cfg / inject_Z (target_duration cfg))
  ∧ (min_duration cfg ≤ end_day st)%Z.
Proof.
  intros (Hlen & _ & Htree & Hend) Hmn Htarget Hmx HD Hmn10 Hfdv.
  set (fdv := total_usd cfg / inject_Z (target_duration cfg)) in *.
  destruct (Hend ltac:(lia) HD) as (He1 & He2 & Hidle & _).
  assert (Htotal : total_usd cfg == inject_Z (target_duration cfg) * fdv).
  { subst fdv. field. intros H. unfold Qeq in H. simpl in H. lia. }
  assert (Hramp : ∀ d, (Z.of_nat d ≤ min_duration cfg)%Z →
            np_sum (take d (usd_row st)) == inject_Z (Z.of_nat d) * fdv
            ∧ ∀ i, (i < d)%nat → ∃ u, usd_row st !! i = Some u ∧ u == fdv).
  { induction d as [|d IH]; intros Hd.
    - split; [change (0 == 0 * fdv); ring|intros; lia].
    - destruct IH as [Hsum Hcells]; [lia|].
      destruct (Htree d) as (u & Hu & Hval); [unfold processed_days; lia|].
      assert (Hu_fdv : u == fdv).
      { rewrite Hval. apply ramp_decision; fold fdv; try done; try lia.
        - rewrite Hsum, Htotal.
          assert (Hq : inject_Z (Z.of_nat d) + 1 <= inject_Z (target_duration cfg)).
          { change 1 with (inject_Z 1). rewrite <- inject_Z_plus, <- Zle_Qle. lia. }
          nra.
        - intros Hlast. rewrite Hsum, Htotal.
          assert (Hq : inject_Z (target_duration cfg) == inject_Z (Z.of_nat d) + 1).
          { change 1 with (inject_Z 1). rewrite <- inject_Z_plus.
            apply inject_Z_injective. lia. }
          rewrite Hq. ring. }
      split.
      + rewrite (np_sum_take_S _ d u Hu), Hsum, Hu_fdv.
        rewrite Nat2Z.inj_succ. unfold Z.succ. rewrite inject_Z_plus.
        change (inject_Z 1) with 1. ring.
      + intros i Hi. destruct (decide (i = d)) as [->|Hne]; [eauto|].
        apply Hcells. lia. }
  split.
  - intros d Hd. destruct (Hramp (S d)) as [_ Hcells]; [lia|]. apply Hcells. lia.
  - destruct (Z.le_gt_cases (min_duration cfg) (end_day st)) as [|Hlt]; [done|].
    exfalso.
    destruct (Hramp (S (Z.to_nat (end_day st)))) as [_ Hcells]; [lia|].
    destruct (Hcells (Z.to_nat (end_day st))) as (u & Hu & Hval); [lia|].
    destruct (Hidle (Z.to_nat (end_day st))) as [Hu0 _]; [lia|lia|].
    rewrite Hu in Hu0. injection Hu0 as ->. lra.
Qed.

Lemma adaptive_min_duration (prices : Prices) (total : Q) (target mn mx : Z)
    (benchmark : option (list Q)) :
  ((0 < num_days prices)%nat → benchmark_used prices benchmark ≠ []) →
  (1 ≤ mn)%Z → (mn ≤ target)%Z → (target ≤ mx)%Z →
  (mx ≤ Z.of_nat (num_days prices))%Z →
  (mn ≤ 10)%Z → 0.01 < total / inject_Z target →
  ∃ usd shares cum ends,
    execute_strategy_2 prices total target mn mx benchmark = Ok (usd, shares, cum, ends)
    ∧ length ends = num_simulations prices
    ∧ Forall (λ e, (mn ≤ e)%Z) ends
    ∧ ∀ sim usd_r, usd !! sim = Some usd_r →
        ∀ d, (Z.of_nat d < mn)%Z →
          ∃ u, usd_r !! d = Some u ∧ u == total / inject_Z target.
Proof.
  intros Hne Hmn Htarget Hmx HD Hmn10 Hfdv.
  destruct (execute_strategy_2_spec prices total target mn mx benchmark 0)
    as (rows & Hrun & Hrows); [lia|done|lra|].
  assert (Hrow : ∀ row st,
    adaptive_row_facts (mkConfig total target mn mx) (num_days prices) 0
                       (benchmark_used prices benchmark) row st →
    (∀ d, (Z.of_nat d < mn)%Z →
       ∃ u, usd_row st !! d = Some u ∧ u == total / inject_Z target)
    ∧ (mn ≤ end_day st)%Z).
  { intros row st Hfacts.
    exact (adaptive_row_ramp (mkConfig total target mn mx) (num_days prices) 0
             (benchmark_used prices benchmark) row st Hfacts
             Hmn Htarget Hmx HD Hmn10 Hfdv). }
  eexists _, _, _, _. split; [exact Hrun|]. split; [|split].
  - rewrite length_map. symmetry. by eapply Forall2_length.
  - change (map end_day rows) with (end_day <$> rows). apply Forall_fmap.
    eapply Forall2_Forall_right; [exact Hrows|].
    intros row st Hfacts. simpl. by destruct (Hrow row st Hfacts).
  - intros sim usd_r Hsim.
    change (map usd_row rows) with (usd_row <$> rows) in Hsim.
    rewrite list_lookup_fmap in Hsim.
    destruct (rows !! sim) as [st|] eqn:Hst; [|done].
    simpl in Hsim. injection Hsim as <-.
    destruct (Forall2_lookup_r _ _ _ _ _ Hrows Hst) as (row & _ & Hfacts).
    by destruct (Hrow row st Hfacts).
Qed.

(** X4. When min_duration is at most 10 (so that the whole minimum horizon
    is ramp), the durations are ordered 1 <= min <= target <= max <= days
    and the daily amount total_budget / target_duration exceeds the stop
    threshold 0.01, the Adaptive and the Adaptive-Discounted strategy trade
    exactly the daily amount on each of the first min_duration days of every
    row, and no row ends before min_duration. *)
Theorem adaptive_not_before_min_duration (prices : Prices) (total : Q)
    (target mn mx : Z) (discount_bps : Q) :
  (1 ≤ mn)%Z → (mn ≤ target)%Z → (target ≤ mx)%Z →
  (mx ≤ Z.of_nat (num_days prices))%Z →
  (mn ≤ 10)%Z → 0.01 < total / inject_Z target →
  (∃ usd shares cum ends,
     execute_strategy_2 prices total target mn mx None = Ok (usd, shares, cum, ends)
     ∧ length ends = num_simulations prices
     ∧ Forall (λ e, (mn ≤ e)%Z) ends
     ∧ ∀ sim usd_r, usd !! sim = Some usd_r →
         ∀ d, (Z.of_nat d < mn)%Z →
           ∃ u, usd_r !! d = Some u ∧ u == total / inject_Z target)
  ∧ (∃ usd shares cum ends,
       execute_strategy_3 prices total target mn mx discount_bps
       = Ok (usd, shares, cum, ends)
       ∧ length ends = num_simulations prices
       ∧ Forall (λ e, (mn ≤ e)%Z) ends
       ∧ ∀ sim usd_r, usd !! sim = Some usd_r →
           ∀ d, (Z.of_nat d < mn)%Z →
             ∃ u, usd_r !! d = Some u ∧ u == total / inject_Z target).
Proof.
  intros Hmn Htarget Hmx HD Hmn10 Hfdv. split.
  - apply adaptive_min_duration; try done. by apply benchmark_nonempty.
  - unfold execute_strategy_3.
    apply adaptive_min_duration; try done. by apply benchmark_nonempty.
Qed.

Lemma adaptive_not_before_min_duration_witness :
  ∃ usd shares cum ends,
    execute_strategy_2 (mkPrices 10 [[100; 90; 80; 70; 60; 50; 40; 30; 20; 10]])
                       1000 8 4 10 None
    = Ok (usd, shares, cum, ends)
    ∧ Forall (λ e, (4 ≤ e)%Z) ends.
Proof.
  destruct (adaptive_not_before_min_duration
              (mkPrices 10 [[100; 90; 80; 70; 60; 50; 40; 30; 20; 10]])
              1000 8 4 10 0)
    as [(usd & shares & cum & ends & Hrun & _ & Hends & _) _];
    [lia|lia|lia|simpl; lia|lia|reflexivity|].
  exists usd, shares, cum, ends. split; [exact Hrun|exact Hends].
Defined.

(** ** VWAP of the strategies' records *)

Lemma np_sum_slice_idle (a : list Q) (e : Z) :
  (∀ d, (e ≤ Z.of_nat d)%Z → (d < length a)%nat → a !! d = Some 0) →
  np_sum (slice_to e a) == np_sum a.
Proof.
  intros Hidle. rewrite <- (firstn_all a) at 2.
  unfold slice_to. destruct (Z.ltb_spec e 0) as [Hneg|Hpos].
  - rewrite !np_sum_take_zeros; [done|intros i Hi; apply Hidle; lia..].
  - destruct (decide (Z.to_nat e ≤ length a)%nat) as [Hle|Hgt].
    + symmetry. apply np_sum_take_zero_tail; [|done].
      intros i Hi Hlen. apply Hidle; lia.
    + by rewrite !take_ge by lia.
Qed.

Lemma Qltb_ext (x y x' y' : Q) : x == x' → y == y' → Qltb x y = Qltb x' y'.
Proof. intros Hx Hy. unfold Qltb. by rewrite Hx, Hy. Qed.

(** X5. For every record that [execute_all_strategies] returns, the VWAP
    computed over the days before the end day equals the VWAP computed over
    the whole row: the end days passed to [calculate_vwap] do not change its
    result, because nothing is recorded from the end day on. *)
Theorem vwap_ignores_end_days (prices : Prices) (total : Q) (target mn mx : Z)
    (discount_bps : Q) :
  target ≠ 0%Z →
  ∃ results,
    execute_all_strategies prices total target mn mx discount_bps = Ok results
    ∧ ∀ name r, results !! name = Some r →
        Forall2 Qeq
          (calculate_vwap (usd_executed r) (shares_acquired r) None)
          (calculate_vwap (usd_executed r) (shares_acquired r)
                          (Some (actual_end_days r))).
Proof.
  intros Htarget.
  destruct (all_strategies_consistent prices total target mn mx discount_bps Htarget)
    as (results & Hrun & Hall).
  exists results. split; [done|]. intros name r Hr.
  unfold calculate_vwap. apply Forall2_fmap, Forall_Forall2_diag, Forall_forall.
  intros sim Hsim%elem_of_seq.
  destruct (Hall name r Hr) as [Hlen Hrows].
  destruct (lookup_lt_is_Some_2 (price_rows prices) sim) as [row Hrow];
    [unfold num_simulations in *; lia|].
  destruct (Hrows sim row Hrow)
    as (usd & shares & cum & e & Hu & Hs & _ & He & Hlu & Hls & _ & _ & _ & Hidle).
  rewrite (list_lookup_total_correct _ _ _ Hu), (list_lookup_total_correct _ _ _ Hs),
    (list_lookup_total_correct _ _ _ He).
  assert (Husd : np_sum (slice_to e usd) == np_sum usd).
  { apply np_sum_slice_idle. intros d Hd Hlt. apply Hidle; [done|lia]. }
  assert (Hshares : np_sum (slice_to e shares) == np_sum shares).
  { apply np_sum_slice_idle. intros d Hd Hlt. apply Hidle; [done|lia]. }
  rewrite (Qltb_ext 0 (np_sum shares) 0 (np_sum (slice_to e shares)))
    by (done || by symmetry).
  destruct (Qltb 0 (np_sum (slice_to e shares))); [|done].
  by rewrite Husd, Hshares.
Qed.

Lemma vwap_ignores_end_days_witness :
  ∃ results,
    execute_all_strategies (mkPrices 4 [[100; 200; 50; 100]]) 300 3 1 3 50 = Ok results
    ∧ ∀ name r, results !! name = Some r →
        Forall2 Qeq
          (calculate_vwap (usd_executed r) (shares_acquired r) None)
          (calculate_vwap (usd_executed r) (shares_acquired r)
                          (Some (actual_end_days r))).
Proof.
  assert (Htarget : 3%Z ≠ 0%Z) by lia.
  exact (vwap_ignores_end_days (mkPrices 4 [[100; 200; 50; 100]]) 300 3 1 3 50
           Htarget).
Defined.

(** ** The VWAP lies between the prices of the row *)

Lemma weighted_sum_bounds (lo hi : Q) (us ss : list Q) :
  Forall2 (λ u s, 0 <= s ∧ lo * s <= u ∧ u <= hi * s) us ss →
  0 <= np_sum ss ∧ lo * np_sum ss <= np_sum us ∧ np_sum us <= hi * np_sum ss.
Proof.
  induction 1 as [|u s us ss (Hs & Hlo & Hhi) _ (IHs & IHlo & IHhi)]; simpl.
  - repeat split; lra.
  - repeat split; lra.
Qed.

(** A spend that is not negative buys, at a price between [lo] and [hi],
    a number of shares that is not negative and worth the spend. *)
Lemma shares_of_spend_bounds (lo hi u p : Q) :
  0 < lo → lo <= p → p <= hi → 0 <= u →
  0 <= u / p ∧ lo * (u / p) <= u ∧ u <= hi * (u / p).
Proof.
  intros Hlo Hp1 Hp2 Hu.
  assert (Hs : 0 <= u / p) by (apply Qle_shift_div_l; lra).
  assert (Hup : p * (u / p) == u) by (field; lra).
  split; [done|]. split.
  - rewrite <- Hup at 2. by apply Qmult_le_compat_r.
  - rewrite <- Hup at 1. by apply Qmult_le_compat_r.
Qed.

(** No strategy records a negative spend. *)
Lemma all_strategies_nonnegative (prices : Prices) (total : Q) (target mn mx : Z)
    (discount_bps : Q) :
  0 <= total → (1 ≤ target)%Z → (1 ≤ mx)%Z → (mx ≤ Z.of_nat (num_days prices))%Z →
  ∃ results,
    execute_all_strategies prices total target mn mx discount_bps = Ok results
    ∧ ∀ name r, results !! name = Some r →
        ∀ sim usd d u, usd_executed r !! sim = Some usd → usd !! d = Some u → 0 <= u.
Proof.
  intros Htotal Htarget Hmx HD.
  assert (Hfdv : 0 <= total / inject_Z target) by (by apply Qdiv_nonneg).
  assert (Hadaptive : ∀ benchmark,
    ((0 < num_days prices)%nat → benchmark_used prices benchmark ≠ []) →
    ∃ usd2 shares2 cum2 ends2,
      execute_strategy_2 prices total target mn mx benchmark
      = Ok (usd2, shares2, cum2, ends2)
      ∧ ∀ sim usd d u, usd2 !! sim = Some usd → usd !! d = Some u → 0 <= u).
  { intros benchmark Hne.
    destruct (execute_strategy_2_spec prices total target mn mx benchmark 0)
      as (rows & Hrun & Hrows); [lia|done|lra|].
    eexists _, _, _, _. split; [exact Hrun|].
    intros sim usd d u Hsim Hd.
    change (map usd_row rows) with (usd_row <$> rows) in Hsim.
    rewrite list_lookup_fmap in Hsim.
    destruct (rows !! sim) as [st|] eqn:Hst; [|done].
    simpl in Hsim. injection Hsim as <-.
    destruct (Forall2_lookup_r _ _ _ _ _ Hrows Hst) as (row & _ & Hfacts).
    pose proof Hfacts as (Hlen & _).
    destruct (adaptive_row_within_budget (mkConfig total target mn mx) (num_days prices) 0
                (benchmark_used prices benchmark) row st Hfacts Htotal Htarget Hmx HD d)
      as (u' & Hu' & Hpos & _).
    - rewrite <- Hlen. by eapply lookup_lt_Some.
    - rewrite Hd in Hu'. by injection Hu' as <-. }
  unfold execute_all_strategies, execute_strategy_3.
  unfold execute_strategy_1. rewrite (proj2 (Z.eqb_neq target 0)) by lia. simpl.
  destruct (Hadaptive None) as (usd2 & shares2 & cum2 & ends2 & -> & H2);
    [by apply benchmark_nonempty|].
  destruct (Hadaptive (Some (calculate_arithmetic_mean_benchmark prices discount_bps)))
    as (usd3 & shares3 & cum3 & ends3 & -> & H3); [by apply benchmark_nonempty|].
  simpl. eexists. split; [reflexivity|].
  intros name r Hr.
  apply lookup_insert_Some in Hr as [[<- <-]|[_ Hr]]; [exact H3|].
  apply lookup_insert_Some in Hr as [[<- <-]|[_ Hr]]; [exact H2|].
  apply lookup_insert_Some in Hr as [[<- <-]|[_ Hr]];
    [|by rewrite lookup_empty in Hr].
  simpl. intros sim usd d u Hsim Hd.
  change (map ?f (map ?g ?l)) with (f <$> (g <$> l)) in Hsim.
  rewrite !list_lookup_fmap in Hsim.
  destruct (price_rows prices !! sim) as [row|]; [|done].
  simpl in Hsim. injection Hsim as <-.
  destruct (strategy_1_row_spec (total / inject_Z target) target (num_days prices) row)
    as [Husd _].
  simpl in Husd. rewrite Husd in Hd.
  apply lookup_app_Some in Hd as [Hd|[_ Hd]];
    apply lookup_replicate in Hd as [-> _]; [done|lra].
Qed.

(** The VWAP of every simulation of every record is 0 or a price between
    the bounds of the batch. *)
Lemma vwap_range_of_records (prices : Prices) (total : Q) (target mn mx : Z)
    (discount_bps lo hi : Q) :
  prices_wf prices →
  0 < lo →
  Forall (Forall (λ p, lo <= p ∧ p <= hi)) (price_rows prices) →
  0 <= total → (1 ≤ target)%Z → (1 ≤ mx)%Z → (mx ≤ Z.of_nat (num_days prices))%Z →
  ∃ results,
    execute_all_strategies prices total target mn mx discount_bps = Ok results
    ∧ ∀ name r, results !! name = Some r →
        length (calculate_vwap (usd_executed r) (shares_acquired r)
                               (Some (actual_end_days r))) = num_simulations prices
        ∧ ∀ sim v,
            calculate_vwap (usd_executed r) (shares_acquired r)
                           (Some (actual_end_days r)) !! sim = Some v →
            v = 0 ∨ (lo <= v ∧ v <= hi).
Proof.
  intros Hwf Hlo Hrange Htotal Htarget Hmx HD.
  destruct (all_strategies_consistent prices total target mn mx discount_bps)
    as (results & Hrun & Hall); [lia|].
  destruct (all_strategies_nonnegative prices total target mn mx discount_bps
              Htotal Htarget Hmx HD) as (results' & Hrun' & Hnonneg).
  rewrite Hrun in Hrun'. injection Hrun' as <-.
  exists results. split; [done|]. intros name r Hr.
  destruct (Hall name r Hr) as [Hlen Hrows].
  split; [unfold calculate_vwap; by rewrite length_map, length_seq|].
  intros sim v Hv.
  assert (Hsim : (sim < length (usd_executed r))%nat).
  { apply lookup_lt_Some in Hv. unfold calculate_vwap in Hv.
    by rewrite length_map, length_seq in Hv. }
  rewrite calculate_vwap_lookup in Hv by done. injection Hv as <-.
  destruct (lookup_lt_is_Some_2 (price_rows prices) sim) as [row Hrow];
    [unfold num_simulations in *; lia|].
  destruct (Hrows sim row Hrow)
    as (usd & shares & cum & e & Hu & Hs & _ & He & Hlu & Hls & _ & Hcell & _ & Hidle).
  rewrite (list_lookup_total_correct _ _ _ Hu), (list_lookup_total_correct _ _ _ Hs),
    (list_lookup_total_correct _ _ _ He).
  assert (Hrowlen : length row = num_days prices)
    by exact (Forall_lookup_1 _ _ _ _ Hwf Hrow).
  assert (Hcells : Forall2 (λ u s, 0 <= s ∧ lo * s <= u ∧ u <= hi * s) usd shares).
  { apply Forall2_same_length_lookup_2; [lia|].
    intros d u s Hud Hsd.
    destruct (lookup_lt_is_Some_2 row d) as [p Hp];
      [rewrite Hrowlen, <- Hlu; by eapply lookup_lt_Some|].
    pose proof (Forall_lookup_1 _ _ _ _ (Forall_lookup_1 _ _ _ _ Hrange Hrow) Hp)
      as [Hp1 Hp2].
    pose proof (Hcell d u s Hud Hsd) as Hval.
    rewrite (list_lookup_total_correct _ _ _ Hp) in Hval.
    rewrite Hval.
    apply shares_of_spend_bounds; [done..|].
    exact (Hnonneg name r Hr sim usd d u Hu Hud). }
  apply weighted_sum_bounds in Hcells as (_ & Hsum1 & Hsum2).
  assert (Husd : np_sum (slice_to e usd) == np_sum usd).
  { apply np_sum_slice_idle. intros d Hd Hlt. apply Hidle; [done|lia]. }
  assert (Hshares : np_sum (slice_to e shares) == np_sum shares).
  { apply np_sum_slice_idle. intros d Hd Hlt. apply Hidle; [done|lia]. }
  simpl.
  destruct (Qltb 0 (np_sum (slice_to e shares))) eqn:Hbought; [right|by left].
  apply Qltb_lt in Hbought. rewrite Husd. rewrite Hshares in Hbought |- *.
  split.
  - apply Qle_shift_div_l; [done|lra].
  - apply Qle_shift_div_r; [done|lra].
Qed.

(** X6. For a budget that is not negative, a target duration of at least
    one day, 1 <= max_duration <= days and a well-shaped batch whose prices
    all lie between [lo] and [hi] with [lo] positive, the VWAP that
    [calculate_vwap] reports for a simulation of any strategy is either 0
    (nothing was bought) or lies between [lo] and [hi]. *)
Theorem vwap_within_price_range (prices : Prices) (total : Q) (target mn mx : Z)
    (discount_bps lo hi : Q) :
  prices_wf prices →
  0 < lo →
  Forall (Forall (λ p, lo <= p ∧ p <= hi)) (price_rows prices) →
  0 <= total → (1 ≤ target)%Z → (1 ≤ mx)%Z → (mx ≤ Z.of_nat (num_days prices))%Z →
  ∃ results,
    execute_all_strategies prices total target mn mx discount_bps = Ok results
    ∧ ∀ name r, results !! name = Some r →
        length (calculate_vwap (usd_executed r) (shares_acquired r)
                               (Some (actual_end_days r))) = num_simulations prices
        ∧ ∀ sim v,
            calculate_vwap (usd_executed r) (shares_acquired r)
                           (Some (actual_end_days r)) !! sim = Some v →
            v = 0 ∨ (lo <= v ∧ v <= hi).
Proof.
  intros Hwf Hlo Hrange Htotal Htarget Hmx HD.
  by apply vwap_range_of_records.
Qed.

Lemma vwap_within_price_range_witness :
  ∃ results,
    execute_all_strategies (mkPrices 4 [[100; 200; 50; 100]; [80; 90; 120; 150]])
                           300 3 1 3 50 = Ok results
    ∧ ∀ name r, results !! name = Some r →
        length (calculate_vwap (usd_executed r) (shares_acquired r)
                               (Some (actual_end_days r))) = 2%nat
        ∧ ∀ sim v,
            calculate_vwap (usd_executed r) (shares_acquired r)
                           (Some (actual_end_days r)) !! sim = Some v →
            v = 0 ∨ (50 <= v ∧ v <= 200).
Proof.
  assert (Hwf : prices_wf (mkPrices 4 [[100; 200; 50; 100]; [80; 90; 120; 150]]))
    by (repeat constructor).
  assert (Hlo : 0 < 50) by lra.
  assert (Hrange : Forall (Forall (λ p, 50 <= p ∧ p <= 200))
                     (price_rows (mkPrices 4 [[100; 200; 50; 100]; [80; 90; 120; 150]]))).
  { simpl. repeat (constructor; [repeat (constructor; [split; lra|]); constructor|]).
    constructor. }
  assert (Htotal : 0 <= 300) by lra.
  assert (Htarget : Z.le 1 3) by lia.
  assert (HD : Z.le 3 (Z.of_nat
                         (num_days (mkPrices 4 [[100; 200; 50; 100]; [80; 90; 120; 150]]))))
    by (simpl; lia).
  exact (vwap_within_price_range
           (mkPrices 4 [[100; 200; 50; 100]; [80; 90; 120; 150]]) 300 3 1 3 50 50 200
           Hwf Hlo Hrange Htotal Htarget Htarget HD).
Defined.

(** ** The discount of the benchmark *)

Lemma Qltb_false_of_le (x y : Q) : y <= x → Qltb x y = false.
Proof. intros H. by apply Qltb_ge. Qed.

Lemma benchmark_nonpositive_discount (prices : Prices) (discount_bps : Q) :
  discount_bps <= 0 →
  calculate_arithmetic_mean_benchmark prices discount_bps
  = calculate_arithmetic_mean_benchmark prices 0.
Proof.
  intros Hd. unfold calculate_arithmetic_mean_benchmark.
  by rewrite (Qltb_false_of_le 0 discount_bps Hd), (Qltb_false_of_le 0 0) by lra.
Qed.

Lemma benchmark_price_nonpositive_discount (prices : Prices) (ends : option (list Z))
    (discount_bps : Q) :
  discount_bps <= 0 →
  calculate_benchmark_price prices ends discount_bps
  = calculate_benchmark_price prices ends 0.
Proof.
  intros Hd. unfold calculate_benchmark_price.
  by rewrite (Qltb_false_of_le 0 discount_bps Hd), (Qltb_false_of_le 0 0) by lra.
Qed.

(** X7. For a discount that is not negative, the decision benchmark with
    the discount is the undiscounted decision benchmark passed through
    [apply_discount_to_benchmark]: the two functions of benchmarks.py scale
    by the same factor. *)
Theorem discounted_benchmark_is_discount_applied (prices : Prices) (discount_bps : Q) :
  0 <= discount_bps →
  calculate_arithmetic_mean_benchmark prices discount_bps
  = apply_discount_to_benchmark (calculate_arithmetic_mean_benchmark prices 0)
                                discount_bps.
Proof.
  intros Hd. unfold apply_discount_to_benchmark.
  destruct (Qeq_bool discount_bps 0) eqn:Hzero.
  - apply Qeq_bool_iff in Hzero. apply benchmark_nonpositive_discount. lra.
  - assert (Hpos : 0 < discount_bps).
    { apply Qeq_bool_neq in Hzero. apply Qle_lteq in Hd as [Hd|Hd]; [done|].
      exfalso. apply Hzero. by symmetry. }
    unfold calculate_arithmetic_mean_benchmark.
    by rewrite (proj2 (Qltb_lt 0 discount_bps) Hpos), (Qltb_false_of_le 0 0) by lra.
Qed.

Lemma discounted_benchmark_is_discount_applied_witness :
  calculate_arithmetic_mean_benchmark (mkPrices 2 [[100; 110]; [90; 100]]) 100
  = apply_discount_to_benchmark
      (calculate_arithmetic_mean_benchmark (mkPrices 2 [[100; 110]; [90; 100]]) 0) 100.
Proof.
  apply (discounted_benchmark_is_discount_applied (mkPrices 2 [[100; 110]; [90; 100]]) 100).
  lra.
Defined.

(** X8. A negative discount is not applied by
    [calculate_arithmetic_mean_benchmark], whereas
    [apply_discount_to_benchmark] applies it: on a benchmark with a
    positive first entry the two differ. *)
Theorem negative_discount_only_applied_by_helper (prices : Prices) (discount_bps b : Q) :
  discount_bps < 0 →
  calculate_arithmetic_mean_benchmark prices 0 !! 0%nat = Some b → 0 < b →
  calculate_arithmetic_mean_benchmark prices discount_bps !! 0%nat = Some b
  ∧ ∃ b', apply_discount_to_benchmark (calculate_arithmetic_mean_benchmark prices 0)
                                      discount_bps !! 0%nat = Some b'
          ∧ b < b'.
Proof.
  intros Hd Hb Hpos. split.
  - by rewrite benchmark_nonpositive_discount by lra.
  - unfold apply_discount_to_benchmark.
    assert (Hzero : Qeq_bool discount_bps 0 = false).
    { destruct (Qeq_bool discount_bps 0) eqn:E; [|done].
      apply Qeq_bool_iff in E. lra. }
    rewrite Hzero. cbv zeta.
    change (map ?f ?l) with (f <$> l). rewrite list_lookup_fmap, Hb. simpl.
    eexists. split; [reflexivity|].
    assert (Hf : 1 < 1 - discount_bps / 10000).
    { assert (discount_bps / 10000 < 0); [|lra].
      apply Qlt_shift_div_r; lra. }
    nra.
Qed.

Lemma negative_discount_only_applied_by_helper_witness :
  calculate_arithmetic_mean_benchmark (mkPrices 2 [[100; 110]; [90; 100]]) (-100) !! 0%nat
  = Some (190 # 2)
  ∧ ∃ b', apply_discount_to_benchmark
            (calculate_arithmetic_mean_benchmark (mkPrices 2 [[100; 110]; [90; 100]]) 0)
            (-100) !! 0%nat = Some b'
          ∧ 190 # 2 < b'.
Proof.
  assert (Hd : -100 < 0) by lra.
  assert (Hb : calculate_arithmetic_mean_benchmark
                 (mkPrices 2 [[100; 110]; [90; 100]]) 0 !! 0%nat = Some (190 # 2))
    by (vm_compute; reflexivity).
  assert (Hpos : 0 < 190 # 2) by reflexivity.
  exact (negative_discount_only_applied_by_helper
           (mkPrices 2 [[100; 110]; [90; 100]]) (-100) (190 # 2) Hd Hb Hpos).
Defined.

(** ** The outcome of [calculate_all_metrics] *)

Lemma performance_length (v b : list Q) :
  length (calculate_execution_performance_bps v b) = Nat.min (length v) (length b).
Proof.
  unfold calculate_execution_performance_bps. by rewrite length_map, length_zip_with.
Qed.

Lemma calculate_vwap_length (usd shares : list (list Q)) (ends : option (list Z)) :
  length (calculate_vwap usd shares ends) = length usd.
Proof. unfold calculate_vwap. by rewrite length_map, length_seq. Qed.

Lemma calculate_benchmark_price_length (prices : Prices) (ends : option (list Z))
    (discount_bps : Q) :
  length (calculate_benchmark_price prices ends discount_bps) = num_simulations prices.
Proof.
  unfold calculate_benchmark_price.
  destruct (Qltb 0 discount_bps); by rewrite ?length_map, length_seq.
Qed.

(** The loop body raises exactly when there is no score to reduce. *)
Lemma strategy_metrics_raises (np_sqrt : Q → Q) (prices : Prices) (discount_bps : Q)
    (name : string) (r : StrategyResult) :
  raises (strategy_metrics np_sqrt prices discount_bps name r)
  ↔ usd_executed r = [] ∨ num_simulations prices = 0%nat.
Proof.
  unfold strategy_metrics.
  set (v := calculate_vwap _ _ _).
  set (b := if String.eqb name "strategy_3" then _ else _).
  assert (Hlen : length (calculate_execution_performance_bps v b)
                 = Nat.min (length (usd_executed r)) (num_simulations prices)).
  { rewrite performance_length. subst v b. rewrite calculate_vwap_length.
    by destruct (String.eqb name "strategy_3");
      rewrite calculate_benchmark_price_length. }
  assert (Hempty : usd_executed r = [] ∨ num_simulations prices = 0%nat
                   ↔ Nat.min (length (usd_executed r)) (num_simulations prices) = 0%nat).
  { destruct (usd_executed r) as [|x l]; destruct (num_simulations prices) as [|n];
      simpl; split; intros H; try discriminate; try (destruct H; discriminate); auto. }
  rewrite Hempty, <- Hlen.
  destruct (mapM finite_value (calculate_execution_performance_bps v b))
    as [scores|] eqn:Hscores.
  - apply mapM_finite_length in Hscores. rewrite <- Hscores.
    destruct scores as [|x scores]; simpl.
    + split; [done|]. intros _. apply raises_Raise.
    + split; [intros []; discriminate|done].
  - simpl. split; [intros []; discriminate|].
    intros Hnil. apply nil_length_inv in Hnil. by rewrite Hnil in Hscores.
Qed.

Lemma raises_or_returns {A} (m : result A) : raises m ∨ ∃ a, m = Ok a.
Proof. destruct m; [right; by eexists|left; apply raises_Raise]. Qed.

(** What the loop of [calculate_all_metrics] has done after any number of
    items. *)
Lemma calculate_all_metrics_outcome (np_sqrt : Q → Q)
    (strategy_results : gmap string StrategyResult) (prices : Prices) (discount_bps : Q) :
  (raises (calculate_all_metrics np_sqrt strategy_results prices discount_bps)
   ↔ ∃ name r, strategy_results !! name = Some r
               ∧ raises (strategy_metrics np_sqrt prices discount_bps name r))
  ∧ ∀ metrics,
      calculate_all_metrics np_sqrt strategy_results prices discount_bps = Ok metrics →
      ∀ name,
        match strategy_results !! name with
        | Some r => ∃ m, strategy_metrics np_sqrt prices discount_bps name r = Ok m
                         ∧ metrics !! name = Some m
        | None => metrics !! name = None
        end.
Proof.
  unfold calculate_all_metrics.
  apply (map_fold_weak_ind
           (λ acc (results : gmap string StrategyResult),
              (raises acc
               ↔ ∃ name r, results !! name = Some r
                           ∧ raises (strategy_metrics np_sqrt prices discount_bps name r))
              ∧ ∀ metrics, acc = Ok metrics →
                  ∀ name,
                    match results !! name with
                    | Some r =>
                      ∃ m, strategy_metrics np_sqrt prices discount_bps name r = Ok m
                           ∧ metrics !! name = Some m
                    | None => metrics !! name = None
                    end)).
  - split.
    + split; [intros []; discriminate|].
      intros (name & r & Hr & _). by rewrite lookup_empty in Hr.
    + intros metrics [= <-] name. by rewrite !lookup_empty.
  - intros name r results acc Hfresh [IHraise IHok]. split.
    + split.
      * intros Hraise. destruct acc as [metrics|e]; simpl in Hraise.
        -- exists name, r. split; [apply lookup_insert_eq|].
           destruct (strategy_metrics np_sqrt prices discount_bps name r);
             [destruct Hraise; discriminate|apply raises_Raise].
        -- destruct (proj1 IHraise (raises_Raise e)) as (name' & r' & Hr' & Hraise').
           exists name', r'. split; [|done].
           rewrite lookup_insert_ne; [done|]. intros <-. congruence.
      * intros (name' & r' & Hr' & Hraise').
        destruct acc as [metrics|e]; [|apply raises_Raise]. simpl.
        destruct (decide (name = name')) as [<-|Hne].
        -- rewrite lookup_insert_eq in Hr'. injection Hr' as <-.
           destruct Hraise' as [e ->]. apply raises_Raise.
        -- rewrite lookup_insert_ne in Hr' by done.
           exfalso. apply (raises_Ok metrics), IHraise. eauto.
    + intros metrics Hacc name'.
      destruct acc as [metrics0|e]; [|discriminate]. simpl in Hacc.
      destruct (strategy_metrics np_sqrt prices discount_bps name r) as [m|e] eqn:Hm;
        [|discriminate].
      simpl in Hacc. injection Hacc as <-.
      destruct (decide (name = name')) as [<-|Hne].
      * rewrite !lookup_insert_eq. eauto.
      * rewrite !lookup_insert_ne by done. by apply IHok.
Qed.

(** X9. For records that have one entry per simulation of the batch,
    [calculate_all_metrics] raises exactly when there is a record and the
    batch has no simulation (the statistics reduce an empty score vector);
    otherwise it returns a dictionary with the keys of the records, whose
    entry for a name is what the loop body computes for that name's record,
    with the record's end days passed through and one score per
    simulation. *)
Theorem metrics_raise_exactly_without_simulations (np_sqrt : Q → Q)
    (strategy_results : gmap string StrategyResult) (prices : Prices) (discount_bps : Q) :
  (∀ name r, strategy_results !! name = Some r → record_shaped prices r) →
  (raises (calculate_all_metrics np_sqrt strategy_results prices discount_bps)
   ↔ strategy_results ≠ ∅ ∧ num_simulations prices = 0%nat)
  ∧ (strategy_results = ∅ ∨ (0 < num_simulations prices)%nat →
     ∃ metrics,
       calculate_all_metrics np_sqrt strategy_results prices discount_bps = Ok metrics
       ∧ ∀ name,
           match strategy_results !! name with
           | Some r =>
             ∃ m, metrics !! name = Some m
                  ∧ strategy_metrics np_sqrt prices discount_bps name r = Ok m
                  ∧ metrics_end_days m = actual_end_days r
                  ∧ vwap m = calculate_vwap (usd_executed r) (shares_acquired r)
                                            (Some (actual_end_days r))
                  ∧ length (performance_bps m) = num_simulations prices
           | None => metrics !! name = None
           end).
Proof.
  intros Hshape.
  destruct (calculate_all_metrics_outcome np_sqrt strategy_results prices discount_bps)
    as [Hraise Hok].
  assert (Hiff : raises (calculate_all_metrics np_sqrt strategy_results prices discount_bps)
                 ↔ strategy_results ≠ ∅ ∧ num_simulations prices = 0%nat).
  { rewrite Hraise. split.
    - intros (name & r & Hr & H).
      apply (strategy_metrics_raises np_sqrt prices discount_bps name r) in H.
      destruct (Hshape name r Hr) as (Hlen & _).
      split; [intros ->; by rewrite lookup_empty in Hr|].
      destruct H as [H|H]; [|done]. by rewrite H in Hlen.
    - intros [Hne HN]. apply map_choose in Hne as (name & r & Hr).
      exists name, r. split; [done|].
      apply (strategy_metrics_raises np_sqrt prices discount_bps name r). by right. }
  split; [done|].
  intros Hcan.
  destruct (raises_or_returns
              (calculate_all_metrics np_sqrt strategy_results prices discount_bps))
    as [Hyes|[metrics Hrun]].
  { apply Hiff in Hyes as [Hne HN]. destruct Hcan as [Hcan|Hcan]; [done|lia]. }
  exists metrics. split; [done|]. intros name.
  specialize (Hok metrics Hrun name).
  pose proof (Hshape name) as Hshape_name.
  destruct (strategy_results !! name) as [r|]; [|done].
  destruct (Hshape_name r eq_refl) as (Hlen & _).
  destruct Hok as (m & Hm & Hlook). exists m. split; [done|]. split; [done|].
  unfold strategy_metrics in Hm.
  destruct (match mapM finite_value _ with Some _ => _ | None => _ end);
    [|discriminate].
  simpl in Hm. injection Hm as <-. simpl. split; [done|]. split; [done|].
  rewrite performance_length, calculate_vwap_length, Hlen.
  destruct (String.eqb name "strategy_3");
    rewrite calculate_benchmark_price_length; lia.
Qed.

Lemma metrics_raise_exactly_without_simulations_witness :
  ∃ metrics,
    calculate_all_metrics (λ x, x)
      (<["strategy_1" := mkStrategyResult [[100; 0]] [[1; 0]] [[1; 0]] [1%Z]]> ∅)
      (mkPrices 2 [[100; 100]]) 0 = Ok metrics
    ∧ ∀ name,
        match (<["strategy_1" := mkStrategyResult [[100; 0]] [[1; 0]] [[1; 0]] [1%Z]]> ∅
               : gmap string StrategyResult) !! name with
        | Some r =>
          ∃ m, metrics !! name = Some m
               ∧ strategy_metrics (λ x, x) (mkPrices 2 [[100; 100]]) 0 name r = Ok m
               ∧ metrics_end_days m = actual_end_days r
               ∧ vwap m = calculate_vwap (usd_executed r) (shares_acquired r)
                                         (Some (actual_end_days r))
               ∧ length (performance_bps m) = num_simulations (mkPrices 2 [[100; 100]])
        | None => metrics !! name = None
        end.
Proof.
  assert (Hshape : ∀ name r,
            (<["strategy_1" := mkStrategyResult [[100; 0]] [[1; 0]] [[1; 0]] [1%Z]]> ∅
             : gmap string StrategyResult) !! name = Some r →
            record_shaped (mkPrices 2 [[100; 100]]) r).
  { intros name r Hr. apply lookup_insert_Some in Hr as [[_ <-]|[_ Hr]].
    - by repeat split.
    - by rewrite lookup_empty in Hr. }
  apply (proj2 (metrics_raise_exactly_without_simulations (λ x, x)
                  (<["strategy_1" := mkStrategyResult [[100; 0]] [[1; 0]] [[1; 0]] [1%Z]]> ∅)
                  (mkPrices 2 [[100; 100]]) 0 Hshape)).
  right. unfold num_simulations. simpl. lia.
Defined.

(** ** A discount that is not positive *)

(** X10. With a discount that is not positive the Adaptive-Discounted
    strategy is the Adaptive strategy: [execute_strategy_3] returns what
    [execute_strategy_2] returns without a benchmark argument, the two
    records of [execute_all_strategies] are equal, and so are their two
    entries in the metrics. *)
Theorem nonpositive_discount_strategy_3_is_strategy_2 (np_sqrt : Q → Q)
    (prices : Prices) (total : Q) (target mn mx : Z) (discount_bps : Q) :
  discount_bps <= 0 →
  execute_strategy_3 prices total target mn mx discount_bps
  = execute_strategy_2 prices total target mn mx None
  ∧ ∀ results,
      execute_all_strategies prices total target mn mx discount_bps = Ok results →
      results !! "strategy_3" = results !! "strategy_2"
      ∧ ∀ metrics,
          calculate_all_metrics np_sqrt results prices discount_bps = Ok metrics →
          metrics !! "strategy_3" = metrics !! "strategy_2".
Proof.
  intros Hd.
  assert (Hsame : execute_strategy_3 prices total target mn mx discount_bps
                  = execute_strategy_2 prices total target mn mx None).
  { unfold execute_strategy_3, execute_strategy_2.
    by rewrite benchmark_nonpositive_discount. }
  split; [done|]. intros results Hrun.
  assert (Hrecords : results !! "strategy_3" = results !! "strategy_2").
  { unfold execute_all_strategies in Hrun. rewrite Hsame in Hrun.
    destruct (execute_strategy_1 prices total target) as [[[[u1 s1] c1] e1]|];
      [|discriminate].
    simpl in Hrun.
    destruct (execute_strategy_2 prices total target mn mx None)
      as [[[[u2 s2] c2] e2]|]; [|discriminate].
    simpl in Hrun. injection Hrun as <-.
    rewrite lookup_insert_eq, lookup_insert_ne by done. by rewrite lookup_insert_eq. }
  split; [done|]. intros metrics Hmetrics.
  destruct (calculate_all_metrics_outcome np_sqrt results prices discount_bps)
    as [_ Hok].
  pose proof (Hok metrics Hmetrics "strategy_3") as H3.
  pose proof (Hok metrics Hmetrics "strategy_2") as H2.
  rewrite Hrecords in H3.
  destruct (results !! "strategy_2") as [r|]; [|congruence].
  destruct H3 as (m3 & Hm3 & ->). destruct H2 as (m2 & Hm2 & ->).
  unfold strategy_metrics in Hm3, Hm2. simpl in Hm3, Hm2.
  rewrite benchmark_price_nonpositive_discount in Hm3 by done.
  congruence.
Qed.

Lemma nonpositive_discount_strategy_3_is_strategy_2_witness :
  execute_strategy_3 (mkPrices 3 [[100; 90; 110]]) 300 2 1 3 (-50)
  = execute_strategy_2 (mkPrices 3 [[100; 90; 110]]) 300 2 1 3 None.
Proof.
  assert (Hd : -50 <= 0) by lra.
  exact (proj1 (nonpositive_discount_strategy_3_is_strategy_2 (λ x, x)
                  (mkPrices 3 [[100; 90; 110]]) 300 2 1 3 (-50) Hd)).
Defined.

(** X11. [calculate_benchmark_for_strategy] raises exactly for a strategy
    number other than 1, 2 and 3, returns no benchmark for strategy 1, and
    for strategies 2 and 3 returns the benchmark under which
    [execute_strategy_2] produces the record that [execute_all_strategies]
    stores for that strategy. *)
Theorem benchmark_for_strategy_is_the_one_executed (prices : Prices) (total : Q)
    (target mn mx : Z) (discount_bps : Q) (strategy : Z) :
  (raises (calculate_benchmark_for_strategy prices strategy discount_bps)
   ↔ strategy ≠ 1%Z ∧ strategy ≠ 2%Z ∧ strategy ≠ 3%Z)
  ∧ (strategy = 1%Z →
     calculate_benchmark_for_strategy prices strategy discount_bps = Ok None)
  ∧ (strategy = 2%Z ∨ strategy = 3%Z →
     ∃ b, calculate_benchmark_for_strategy prices strategy discount_bps = Ok (Some b)
          ∧ length b = num_days prices
          ∧ ∀ results,
              execute_all_strategies prices total target mn mx discount_bps = Ok results →
              ∃ usd shares cum ends,
                execute_strategy_2 prices total target mn mx (Some b)
                = Ok (usd, shares, cum, ends)
                ∧ results !! (if (strategy =? 2)%Z then "strategy_2" else "strategy_3")
                  = Some (mkStrategyResult usd shares cum ends)).
Proof.
  unfold calculate_benchmark_for_strategy. split; [|split].
  - destruct (Z.eqb_spec strategy 1); [split; [intros []; discriminate|lia]|].
    destruct (Z.eqb_spec strategy 2); [split; [intros []; discriminate|lia]|].
    destruct (Z.eqb_spec strategy 3); [split; [intros []; discriminate|lia]|].
    split; [done|]. intros _. apply raises_Raise.
  - by intros ->.
  - assert (Hexec : ∀ results,
      execute_all_strategies prices total target mn mx discount_bps = Ok results →
      ∃ u2 s2 c2 e2 u3 s3 c3 e3,
        execute_strategy_2 prices total target mn mx
          (Some (calculate_arithmetic_mean_benchmark prices 0)) = Ok (u2, s2, c2, e2)
        ∧ execute_strategy_2 prices total target mn mx
            (Some (calculate_arithmetic_mean_benchmark prices discount_bps))
          = Ok (u3, s3, c3, e3)
        ∧ results !! "strategy_2" = Some (mkStrategyResult u2 s2 c2 e2)
        ∧ results !! "strategy_3" = Some (mkStrategyResult u3 s3 c3 e3)).
    { intros results Hrun. unfold execute_all_strategies, execute_strategy_3 in Hrun.
      destruct (execute_strategy_1 prices total target) as [[[[u1 s1] c1] e1]|];
        [|discriminate].
      simpl in Hrun.
      change (execute_strategy_2 prices total target mn mx None)
        with (execute_strategy_2 prices total target mn mx
                (Some (calculate_arithmetic_mean_benchmark prices 0))) in Hrun.
      destruct (execute_strategy_2 prices total target mn mx
                  (Some (calculate_arithmetic_mean_benchmark prices 0)))
        as [[[[u2 s2] c2] e2]|]; [|discriminate].
      simpl in Hrun.
      destruct (execute_strategy_2 prices total target mn mx
                  (Some (calculate_arithmetic_mean_benchmark prices discount_bps)))
        as [[[[u3 s3] c3] e3]|]; [|discriminate].
      simpl in Hrun. injection Hrun as <-.
      exists u2, s2, c2, e2, u3, s3, c3, e3.
      split; [done|]. split; [done|].
      rewrite lookup_insert_eq, lookup_insert_ne by done.
      by rewrite lookup_insert_eq. }
    intros [-> | ->]; simpl; eexists; (split; [reflexivity|]);
      (split; [apply benchmark_length|]); intros results Hrun;
      destruct (Hexec results Hrun)
        as (u2 & s2 & c2 & e2 & u3 & s3 & c3 & e3 & H2 & H3 & Hl2 & Hl3); eauto 10.
Qed.

Lemma benchmark_for_strategy_is_the_one_executed_witness :
  ∃ b, calculate_benchmark_for_strategy (mkPrices 3 [[100; 90; 110]]) 3 50 = Ok (Some b)
       ∧ length b = 3%nat.
Proof.
  destruct (proj2 (proj2 (benchmark_for_strategy_is_the_one_executed
                            (mkPrices 3 [[100; 90; 110]]) 300 2 1 3 50 3)))
    as (b & Hb & Hlen & _); [by right|].
  exists b. split; [exact Hb|exact Hlen].
Defined.

(** ** The order of the statistics *)

Lemma sorted_lookup_le (s : list Q) (i j : nat) :
  Sorted Qle s → (i ≤ j)%nat → (j < length s)%nat → s !!! i <= s !!! j.
Proof.
  intros Hs. apply Sorted_StronglySorted in Hs; [|intros x y z; apply Qle_trans].
  revert i j. induction Hs as [|x s Hs IH Hx]; intros i j Hij Hj; [simpl in Hj; lia|].
  destruct j as [|j].
  - replace i with 0%nat by lia. simpl. lra.
  - destruct i as [|i].
    + simpl. destruct (lookup_lt_is_Some_2 s j) as [y Hy]; [simpl in Hj; lia|].
      rewrite (list_lookup_total_correct _ _ _ Hy).
      exact (Forall_lookup_1 _ _ _ _ Hx Hy).
    + simpl. apply IH; [lia|simpl in Hj; lia].
Qed.

Lemma percent_unit (q : Q) : 0 <= q → q <= 100 → 0 <= q / 100 ∧ q / 100 <= 1.
Proof.
  intros H0 H1. split; [apply Qle_shift_div_l; lra|apply Qle_shift_div_r; lra].
Qed.

Lemma percent_mono (q1 q2 : Q) : q1 <= q2 → q1 / 100 <= q2 / 100.
Proof. intros H. unfold Qdiv. apply Qmult_le_compat_r; [done|discriminate]. Qed.

(** The position of a percentile in a vector of [n] entries: the floor of
    the virtual index is an index of the vector, and the fractional part
    lies in [0, 1). *)
Lemma percentile_position (n : nat) (q : Q) :
  0 <= q → q <= 100 →
  let h := inject_Z (Z.of_nat (n - 1)) * (q / 100) in
  let k := Z.to_nat (Qfloor h) in
  (k ≤ n - 1)%nat ∧ inject_Z (Z.of_nat k) <= h ∧ h < inject_Z (Z.of_nat k) + 1.
Proof.
  intros Hq0 Hq1 h k.
  assert (Hn : 0 <= inject_Z (Z.of_nat (n - 1))).
  { change 0 with (inject_Z 0). rewrite <- Zle_Qle. lia. }
  destruct (percent_unit q Hq0 Hq1) as [Hu0 Hu1].
  assert (Hh0 : 0 <= h) by (subst h; by apply Qmult_le_0_compat).
  assert (Hh1 : h <= inject_Z (Z.of_nat (n - 1))).
  { subst h. set (N := inject_Z (Z.of_nat (n - 1))) in *.
    set (u := q / 100) in *. nra. }
  assert (Hf0 : (0 ≤ Qfloor h)%Z).
  { change 0%Z with (Qfloor 0). by apply Qfloor_resp_le. }
  assert (Hf1 : (Qfloor h ≤ Z.of_nat (n - 1))%Z).
  { rewrite <- (Qfloor_Z (Z.of_nat (n - 1))). by apply Qfloor_resp_le. }
  assert (Hk : Z.of_nat k = Qfloor h) by (subst k; lia).
  split; [lia|]. rewrite Hk. split; [apply Qfloor_le|].
  pose proof (Qlt_floor h) as Hlt. rewrite inject_Z_plus in Hlt. exact Hlt.
Qed.

Lemma interpolation_between (lo hi w : Q) :
  lo <= hi → 0 <= w → w <= 1 →
  lo <= (1 - w) * lo + w * hi ∧ (1 - w) * lo + w * hi <= hi.
Proof. intros. split; nra. Qed.

(** A percentile of a sorted vector lies between the two entries around
    its position. *)
Lemma interpolated_percentile_between (s : list Q) (q : Q) :
  Sorted Qle s → s ≠ [] → 0 <= q → q <= 100 →
  let k := Z.to_nat (Qfloor (inject_Z (Z.of_nat (length s - 1)) * (q / 100))) in
  (k ≤ length s - 1)%nat
  ∧ s !!! k <= interpolated_percentile s q
  ∧ interpolated_percentile s q <= s !!! Nat.min (S k) (length s - 1).
Proof.
  intros Hs Hne Hq0 Hq1 k.
  destruct (percentile_position (length s) q Hq0 Hq1) as (Hk & Hlo & Hhi).
  fold k in Hk, Hlo, Hhi.
  assert (Hlen : (0 < length s)%nat) by (destruct s; [done|simpl; lia]).
  split; [done|]. unfold interpolated_percentile. cbv zeta. fold k.
  apply interpolation_between; [|lra..].
  apply sorted_lookup_le; [done|lia|lia].
Qed.

(** The percentiles of a sorted vector grow with the percentage. *)
Lemma interpolated_percentile_mono (s : list Q) (q1 q2 : Q) :
  Sorted Qle s → s ≠ [] → 0 <= q1 → q1 <= q2 → q2 <= 100 →
  interpolated_percentile s q1 <= interpolated_percentile s q2.
Proof.
  intros Hs Hne Hq0 Hq12 Hq1.
  assert (Hlen : (0 < length s)%nat) by (destruct s; [done|simpl; lia]).
  destruct (interpolated_percentile_between s q1 Hs Hne) as (Hk1 & Hlo1 & Hhi1);
    [lra..|].
  destruct (interpolated_percentile_between s q2 Hs Hne) as (Hk2 & Hlo2 & Hhi2);
    [lra..|].
  destruct (percentile_position (length s) q1) as (_ & Hp1 & Hp1'); [lra..|].
  destruct (percentile_position (length s) q2) as (_ & Hp2 & Hp2'); [lra..|].
  cbv zeta in *.
  set (N := inject_Z (Z.of_nat (length s - 1))) in *.
  assert (HN : 0 <= N).
  { subst N. change 0 with (inject_Z 0). rewrite <- Zle_Qle. lia. }
  assert (Hh : N * (q1 / 100) <= N * (q2 / 100)).
  { rewrite !(Qmult_comm N). apply Qmult_le_compat_r; [by apply percent_mono|done]. }
  destruct (percent_unit q1) as [Hu1 _]; [lra..|].
  destruct (percent_unit q2) as [Hu2 _]; [lra..|].
  set (h1 := N * (q1 / 100)) in *. set (h2 := N * (q2 / 100)) in *.
  set (k1 := Z.to_nat (Qfloor h1)) in *. set (k2 := Z.to_nat (Qfloor h2)) in *.
  assert (Hk12 : (k1 ≤ k2)%nat).
  { subst k1 k2. apply Z2Nat.inj_le.
    - change 0%Z with (Qfloor 0). apply Qfloor_resp_le. subst h1.
      by apply Qmult_le_0_compat.
    - change 0%Z with (Qfloor 0). apply Qfloor_resp_le. subst h2.
      by apply Qmult_le_0_compat.
    - by apply Qfloor_resp_le. }
  destruct (decide (k1 = k2)) as [Heq|Hneq].
  - unfold interpolated_percentile. cbv zeta. fold N h1 h2 k1 k2. rewrite <- Heq.
    rewrite <- Heq in Hp2, Hp2'.
    assert (Hord : s !!! k1 <= s !!! Nat.min (S k1) (length s - 1))
      by (apply sorted_lookup_le; [done|lia|lia]).
    nra.
  - apply Qle_trans with (s !!! Nat.min (S k1) (length s - 1)); [done|].
    apply Qle_trans with (s !!! k2); [|done].
    apply sorted_lookup_le; [done|lia|lia].
Qed.

(** The median is the 50th percentile. *)
Lemma np_median_is_percentile_50 (v : list Q) :
  v ≠ [] → np_median v == np_percentile v 50.
Proof.
  intros Hne. rewrite np_percentile_interpolated.
  destruct (np_median_spec v Hne) as [Hodd Heven]. cbv zeta in *.
  unfold interpolated_percentile. cbv zeta. rewrite np_sort_length.
  set (s := np_sort v) in *. set (n := length v) in *.
  assert (Hn : (0 < n)%nat) by (subst n; destruct v; [done|simpl; lia]).
  destruct (Nat.even n) eqn:Hpar.
  - rewrite (Heven eq_refl).
    apply Nat.even_spec in Hpar as [m Hm].
    assert (Hm1 : (1 ≤ m)%nat) by lia.
    assert (Hhalf : (n / 2 = m)%nat) by (rewrite Hm, Nat.mul_comm; by apply Nat.div_mul).
    rewrite Hhalf.
    assert (Hh : inject_Z (Z.of_nat (n - 1)) * (50 / 100)
                 == inject_Z (Z.of_nat (m - 1)) + (1 # 2)).
    { replace (Z.of_nat (n - 1)) with (2 * Z.of_nat (m - 1) + 1)%Z by lia.
      rewrite inject_Z_plus, inject_Z_mult. change (inject_Z 2) with 2.
      change (inject_Z 1) with 1. field. }
    assert (Hfloor : Qfloor (inject_Z (Z.of_nat (n - 1)) * (50 / 100))
                     = Z.of_nat (m - 1)).
    { rewrite Hh. apply Z.le_antisymm.
      - apply Z.lt_succ_r. rewrite Zlt_Qlt.
        eapply Qle_lt_trans; [apply Qfloor_le|].
        unfold Z.succ. rewrite inject_Z_plus. change (inject_Z 1) with 1. lra.
      - rewrite <- (Qfloor_Z (Z.of_nat (m - 1))) at 1. apply Qfloor_resp_le. lra. }
    rewrite Hfloor, Nat2Z.id, Hh.
    replace (Nat.min (S (m - 1)) (n - 1)) with m by lia.
    field.
  - rewrite (Hodd eq_refl).
    assert (Hodd' : Nat.odd n = true) by (by rewrite <- Nat.negb_even, Hpar).
    apply Nat.odd_spec in Hodd' as [m Hm].
    assert (Hhalf : (n / 2 = m)%nat).
    { rewrite Hm. rewrite Nat.mul_comm, Nat.div_add_l by lia. simpl. lia. }
    rewrite Hhalf.
    assert (Hh : inject_Z (Z.of_nat (n - 1)) * (50 / 100) == inject_Z (Z.of_nat m)).
    { replace (Z.of_nat (n - 1)) with (2 * Z.of_nat m)%Z by lia.
      rewrite inject_Z_mult. change (inject_Z 2) with 2. field. }
    assert (Hfloor : Qfloor (inject_Z (Z.of_nat (n - 1)) * (50 / 100)) = Z.of_nat m)
      by (rewrite Hh; apply Qfloor_Z).
    rewrite Hfloor, Nat2Z.id, Hh. ring.
Qed.

Lemma np_sum_bounds (lo hi : Q) (v : list Q) :
  Forall (λ x, lo <= x ∧ x <= hi) v →
  inject_Z (Z.of_nat (length v)) * lo <= np_sum v
  ∧ np_sum v <= inject_Z (Z.of_nat (length v)) * hi.
Proof.
  induction 1 as [|x v [Hlo Hhi] _ [IHlo IHhi]].
  - simpl. change (inject_Z (Z.of_nat 0)) with 0. lra.
  - cbn [length np_sum foldr]. fold (np_sum v).
    rewrite Nat2Z.inj_succ. unfold Z.succ. rewrite inject_Z_plus.
    change (inject_Z 1) with 1. lra.
Qed.

Lemma np_mean_bounds (lo hi : Q) (v : list Q) :
  v ≠ [] → Forall (λ x, lo <= x ∧ x <= hi) v → lo <= np_mean v ∧ np_mean v <= hi.
Proof.
  intros Hne Hall. destruct (np_sum_bounds lo hi v Hall) as [Hlo Hhi].
  assert (Hn : 0 < inject_Z (Z.of_nat (length v))).
  { change 0 with (inject_Z 0). rewrite <- Zlt_Qlt. destruct v; [done|simpl; lia]. }
  unfold np_mean. split.
  - apply Qle_shift_div_l; [done|lra].
  - apply Qle_shift_div_r; [done|lra].
Qed.

(** X12. For a non-empty score vector the statistics are ordered:
    min <= p25 <= median <= p75 <= max and min <= mean <= max; the median
    is the 50th percentile, and the minimum and the maximum are entries of
    the vector. *)
Theorem statistics_are_ordered (np_sqrt : Q → Q) (v : list Q) :
  v ≠ [] →
  ∃ s, calculate_performance_statistics np_sqrt v = Ok s
       ∧ stat_min s <= stat_p25 s
       ∧ stat_p25 s <= stat_median s
       ∧ stat_median s <= stat_p75 s
       ∧ stat_p75 s <= stat_max s
       ∧ stat_min s <= stat_mean s
       ∧ stat_mean s <= stat_max s
       ∧ stat_median s == np_percentile v 50
       ∧ stat_min s ∈ v
       ∧ stat_max s ∈ v.
Proof.
  intros Hne. destruct v as [|x v]; [done|].
  unfold calculate_performance_statistics. simpl np_min. simpl np_max.
  eexists. split; [reflexivity|]. simpl.
  destruct (foldl_Qmin_spec v x) as [Hmin_in Hmin].
  destruct (foldl_Qmax_spec v x) as [Hmax_in Hmax].
  set (mn := foldl Qmin x v) in *. set (mx := foldl Qmax x v) in *.
  set (a := x :: v) in *.
  assert (Hsorted : Sorted Qle (np_sort a)) by apply np_sort_sorted.
  assert (Hsne : np_sort a ≠ []).
  { intros Hnil. pose proof (np_sort_length a) as Hl. by rewrite Hnil in Hl. }
  assert (Hentry : ∀ i, (i < length (np_sort a))%nat →
                        mn <= np_sort a !!! i ∧ np_sort a !!! i <= mx).
  { intros i Hi. destruct (lookup_lt_is_Some_2 _ i Hi) as [y Hy].
    rewrite (list_lookup_total_correct _ _ _ Hy).
    assert (Hin : y ∈ a).
    { rewrite <- (np_sort_perm a). by eapply list_elem_of_lookup_2. }
    split.
    - exact (proj1 (Forall_forall _ _) Hmin y Hin).
    - exact (proj1 (Forall_forall _ _) Hmax y Hin). }
  assert (Hlen : (0 < length (np_sort a))%nat)
    by (rewrite np_sort_length; simpl; lia).
  assert (Hpct : ∀ q, 0 <= q → q <= 100 →
                      mn <= np_percentile a q ∧ np_percentile a q <= mx).
  { intros q Hq0 Hq1. rewrite np_percentile_interpolated.
    destruct (interpolated_percentile_between (np_sort a) q Hsorted Hsne Hq0 Hq1)
      as (Hk & Hlo & Hhi).
    split.
    - eapply Qle_trans; [|exact Hlo]. apply Hentry. lia.
    - eapply Qle_trans; [exact Hhi|]. apply Hentry. lia. }
  assert (Hmono : ∀ q1 q2, 0 <= q1 → q1 <= q2 → q2 <= 100 →
                           np_percentile a q1 <= np_percentile a q2).
  { intros q1 q2 H0 H12 H1. rewrite !np_percentile_interpolated.
    by apply interpolated_percentile_mono. }
  pose proof (np_median_is_percentile_50 a Hne) as Hmed.
  destruct (np_mean_bounds mn mx a Hne) as [Hmean1 Hmean2].
  { apply Forall_forall. intros y Hy. split.
    - exact (proj1 (Forall_forall _ _) Hmin y Hy).
    - exact (proj1 (Forall_forall _ _) Hmax y Hy). }
  split; [apply Hpct; lra|].
  split; [rewrite Hmed; apply Hmono; lra|].
  split; [rewrite Hmed; apply Hmono; lra|].
  split; [apply Hpct; lra|].
  done.
Qed.

Lemma statistics_are_ordered_witness :
  ∃ s, calculate_performance_statistics (λ x, x) [30; -10; 20; 5] = Ok s
       ∧ stat_min s <= stat_p25 s
       ∧ stat_p25 s <= stat_median s
       ∧ stat_median s <= stat_p75 s
       ∧ stat_p75 s <= stat_max s.
Proof.
  assert (Hne : [30; -10; 20; 5] ≠ ([] : list Q)) by discriminate.
  destruct (statistics_are_ordered (λ x, x) [30; -10; 20; 5] Hne)
    as (s & Hs & H1 & H2 & H3 & H4 & _).
  exists s. split; [exact Hs|]. split; [exact H1|]. split; [exact H2|].
  split; [exact H3|exact H4].
Defined.

(** ** The paths of [simulate_gbm_paths] *)

Section GbmPaths.

Variable np_sqrt np_exp : Q → Q.
Variable mu sigma dt S0 : Q.

Lemma gbm_row_step (D k : nat) (z row : list Q) :
  (S k < D)%nat →
  gbm_row_upto np_sqrt np_exp mu sigma dt S0 D k z row →
  gbm_row_upto np_sqrt np_exp mu sigma dt S0 D (S k) z
    (<[S k := row !!! (S k - 1)%nat * gbm_factor np_sqrt np_exp mu sigma dt z (S k)]> row).
Proof.
  intros Hk (Hlen & H0 & Hdone & Hrest). split; [by rewrite length_insert|].
  split; [by rewrite list_lookup_insert_ne by lia|]. split.
  - intros t Ht1 Ht2. destruct (decide (t = S k)) as [->|Hne].
    + rewrite list_lookup_total_insert_eq by lia.
      by rewrite list_lookup_total_insert_ne by lia.
    + rewrite !list_lookup_total_insert_ne by lia. apply Hdone; lia.
  - intros t Ht1 Ht2. rewrite list_lookup_insert_ne by lia. apply Hrest; lia.
Qed.

Lemma gbm_step_rows (D k : nat) (shocks rows : list (list Q)) :
  (S k < D)%nat →
  Forall2 (gbm_row_upto np_sqrt np_exp mu sigma dt S0 D k) shocks rows →
  Forall2 (gbm_row_upto np_sqrt np_exp mu sigma dt S0 D (S k)) shocks
          (gbm_step np_sqrt np_exp mu sigma dt shocks rows (S k)).
Proof.
  intros Hk. unfold gbm_step.
  induction 1 as [|z row shocks rows Hrow _ IH]; simpl; constructor; [|done].
  by apply gbm_row_step.
Qed.

Lemma gbm_loop_rows (D k : nat) (shocks rows : list (list Q)) :
  (k < D)%nat →
  Forall2 (gbm_row_upto np_sqrt np_exp mu sigma dt S0 D 0) shocks rows →
  Forall2 (gbm_row_upto np_sqrt np_exp mu sigma dt S0 D k) shocks
          (foldl (gbm_step np_sqrt np_exp mu sigma dt shocks) rows (seq 1 k)).
Proof.
  intros Hk Hrows. induction k as [|k IH]; [done|].
  rewrite seq_S, foldl_app. simpl. apply gbm_step_rows; [lia|]. apply IH. lia.
Qed.

Lemma gbm_initial_rows (D : nat) (shocks : list (list Q)) :
  (0 < D)%nat →
  Forall2 (gbm_row_upto np_sqrt np_exp mu sigma dt S0 D 0) shocks
          (map (λ row, <[0%nat := S0]> row) (replicate (length shocks) (np_zeros D))).
Proof.
  intros HD. induction shocks as [|z shocks IH]; simpl; constructor; [|done].
  unfold gbm_row_upto, np_zeros. rewrite length_insert, length_replicate.
  split; [done|]. split; [apply list_lookup_insert_eq; by rewrite length_replicate|].
  split; [intros; lia|].
  intros t Ht1 Ht2. rewrite list_lookup_insert_ne by lia.
  by apply lookup_replicate_2.
Qed.

(** A finished row is positive when the initial price and the
    exponential are. *)
Lemma gbm_row_positive (D : nat) (z row : list Q) :
  0 < S0 → (∀ x, 0 < np_exp x) →
  gbm_row_upto np_sqrt np_exp mu sigma dt S0 D (D - 1) z row →
  Forall (λ p, 0 < p) row.
Proof.
  intros HS0 Hexp (Hlen & H0 & Hdone & _).
  assert (Hpos : ∀ t, (t < D)%nat → 0 < row !!! t).
  { induction t as [|t IH]; intros Ht.
    - by rewrite (list_lookup_total_correct _ _ _ H0).
    - rewrite Hdone by lia. replace (S t - 1)%nat with t by lia.
      apply Qmult_lt_0_compat; [apply IH; lia|apply Hexp]. }
  apply Forall_lookup. intros t p Hp.
  rewrite <- (list_lookup_total_correct _ _ _ Hp). apply Hpos.
  rewrite <- Hlen. by eapply lookup_lt_Some.
Qed.

End GbmPaths.

(** What [simulate_gbm_paths] returns for valid dimensions, given that
    the generator draws one row of shocks per simulation. *)
Lemma simulate_gbm_paths_rows (np_sqrt np_exp : Q → Q) (rng_state : Type)
    (np_random_seed : Z → rng_state)
    (np_random_standard_normal : rng_state → nat → nat → list (list Q) * rng_state)
    (g : rng_state) (S0 : Q) (num_days : Z) (drift_pct volatility_pct : Q)
    (num_simulations : Z) (random_seed : option Z) :
  (∀ g n d, length (np_random_standard_normal g n d).1 = n) →
  (0 ≤ num_simulations)%Z → (1 ≤ num_days)%Z →
  (∀ seed, random_seed = Some seed → (0 ≤ seed < 2 ^ 32)%Z) →
  let g0 := match random_seed with Some seed => np_random_seed seed | None => g end in
  let draw := np_random_standard_normal g0 (Z.to_nat num_simulations)
                                        (Z.to_nat (num_days - 1)) in
  ∃ prices,
    simulate_gbm_paths np_sqrt np_exp rng_state np_random_seed
      np_random_standard_normal g S0 num_days drift_pct volatility_pct
      num_simulations random_seed = (Ok prices, draw.2)
    ∧ Forall2 (gbm_row_upto np_sqrt np_exp (drift_pct / 100) (volatility_pct / 100)
                            (1 / 252) S0 (Z.to_nat num_days) (Z.to_nat num_days - 1))
              draw.1 prices.
Proof.
  intros Hgen HN HD Hseed g0 draw. unfold simulate_gbm_paths, np_zeros2.
  assert (Hseeded : match random_seed with
                    | Some seed =>
                      if (0 <=? seed)%Z && (seed <? 2 ^ 32)%Z
                      then Ok (np_random_seed seed) else Raise ValueError
                    | None => Ok g
                    end = Ok g0).
  { subst g0. destruct random_seed as [seed|]; [|done].
    destruct (Hseed seed eq_refl) as [Hs1 Hs2].
    by rewrite (proj2 (Z.leb_le 0 seed) Hs1), (proj2 (Z.ltb_lt seed (2 ^ 32)) Hs2). }
  rewrite Hseeded.
  rewrite (proj2 (Z.ltb_ge num_simulations 0)), (proj2 (Z.ltb_ge num_days 0)) by lia.
  simpl. rewrite (proj2 (Z.eqb_neq num_days 0)) by lia.
  fold draw. destruct draw as [shocks g'] eqn:Hdraw. simpl.
  eexists. split; [reflexivity|].
  assert (Hshocks : length shocks = Z.to_nat num_simulations).
  { pose proof (Hgen g0 (Z.to_nat num_simulations) (Z.to_nat (num_days - 1))) as Hl.
    fold draw in Hl. by rewrite Hdraw in Hl. }
  apply gbm_loop_rows; [lia|]. rewrite <- Hshocks.
  apply gbm_initial_rows. lia.
Qed.

(** X13. For a seed in range (or none), a simulation count that is not
    negative and at least one day, and a generator that draws one row of
    shocks per simulation, [simulate_gbm_paths] returns an array with one
    row per simulation and one column per day, leaves the generator in the
    state after one draw, starts every path at [S0], and moves every path
    from each day to the next by the factor
    exp((mu - sigma^2/2) dt + sigma sqrt(dt) Z) of that day's shock. *)
Theorem gbm_paths_follow_recurrence (np_sqrt np_exp : Q → Q) (rng_state : Type)
    (np_random_seed : Z → rng_state)
    (np_random_standard_normal : rng_state → nat → nat → list (list Q) * rng_state)
    (g : rng_state) (S0 : Q) (num_days : Z) (drift_pct volatility_pct : Q)
    (num_simulations : Z) (random_seed : option Z) :
  (∀ g n d, length (np_random_standard_normal g n d).1 = n) →
  (0 ≤ num_simulations)%Z → (1 ≤ num_days)%Z →
  (∀ seed, random_seed = Some seed → (0 ≤ seed < 2 ^ 32)%Z) →
  let g0 := match random_seed with Some seed => np_random_seed seed | None => g end in
  let draw := np_random_standard_normal g0 (Z.to_nat num_simulations)
                                        (Z.to_nat (num_days - 1)) in
  ∃ prices,
    simulate_gbm_paths np_sqrt np_exp rng_state np_random_seed
      np_random_standard_normal g S0 num_days drift_pct volatility_pct
      num_simulations random_seed = (Ok prices, draw.2)
    ∧ length prices = Z.to_nat num_simulations
    ∧ ∀ sim row, prices !! sim = Some row →
        length row = Z.to_nat num_days
        ∧ row !! 0%nat = Some S0
        ∧ ∀ t, (1 ≤ t)%nat → (t < Z.to_nat num_days)%nat →
            row !!! t
            = row !!! (t - 1)%nat
              * np_exp ((drift_pct / 100 - 0.5 * (volatility_pct / 100) ^ 2) * (1 / 252)
                        + volatility_pct / 100 * np_sqrt (1 / 252)
                          * ((draw.1 !!! sim) !!! (t - 1)%nat)).
Proof.
  intros Hgen HN HD Hseed g0 draw.
  destruct (simulate_gbm_paths_rows np_sqrt np_exp rng_state np_random_seed
              np_random_standard_normal g S0 num_days drift_pct volatility_pct
              num_simulations random_seed Hgen HN HD Hseed)
    as (prices & Hrun & Hrows).
  fold g0 in Hrun, Hrows. fold draw in Hrun, Hrows.
  exists prices. split; [done|]. split.
  - rewrite <- (Forall2_length _ _ _ Hrows). apply Hgen.
  - intros sim row Hrow.
    destruct (Forall2_lookup_r _ _ _ _ _ Hrows Hrow) as (z & Hz & Hlen & H0 & Hdone & _).
    split; [done|]. split; [done|].
    intros t Ht1 Ht2. rewrite (list_lookup_total_correct _ _ _ Hz).
    apply Hdone; lia.
Qed.

Lemma gbm_paths_follow_recurrence_witness :
  ∃ prices,
    simulate_gbm_paths (λ x, x) (λ x, 1 + x * x) unit (λ _, ())
      (λ g n d, (replicate n (replicate d 1), g)) () 100 3 10 20 2 (Some 42%Z)
    = (Ok prices, ())
    ∧ length prices = 2%nat.
Proof.
  assert (Hgen : ∀ (g : unit) (n d : nat),
            length ((λ g n d, (replicate n (replicate d (1 : Q)), g)) g n d).1 = n)
    by (intros; apply length_replicate).
  assert (HN : Z.le 0 2) by lia.
  assert (HD : Z.le 1 3) by lia.
  assert (Hseed : ∀ seed, Some 42%Z = Some seed → (0 ≤ seed < 2 ^ 32)%Z)
    by (intros seed [= <-]; lia).
  destruct (gbm_paths_follow_recurrence (λ x, x) (λ x, 1 + x * x) unit (λ _, ())
              (λ g n d, (replicate n (replicate d 1), g)) () 100 3 10 20 2 (Some 42%Z)
              Hgen HN HD Hseed) as (prices & Hrun & Hlen & _).
  exists prices. split; [exact Hrun|exact Hlen].
Defined.

(** X14. Under the same conditions, with a positive initial price and an
    exponential that is positive, the array that [simulate_gbm_paths]
    returns is a well-shaped batch of positive prices: the strategies can
    divide by every one of them. *)
Theorem gbm_paths_are_positive (np_sqrt np_exp : Q → Q) (rng_state : Type)
    (np_random_seed : Z → rng_state)
    (np_random_standard_normal : rng_state → nat → nat → list (list Q) * rng_state)
    (g : rng_state) (S0 : Q) (num_days : Z) (drift_pct volatility_pct : Q)
    (num_simulations : Z) (random_seed : option Z) :
  (∀ g n d, length (np_random_standard_normal g n d).1 = n) →
  (0 ≤ num_simulations)%Z → (1 ≤ num_days)%Z →
  (∀ seed, random_seed = Some seed → (0 ≤ seed < 2 ^ 32)%Z) →
  0 < S0 → (∀ x, 0 < np_exp x) →
  ∃ rows,
    (simulate_gbm_paths np_sqrt np_exp rng_state np_random_seed
       np_random_standard_normal g S0 num_days drift_pct volatility_pct
       num_simulations random_seed).1 = Ok rows
    ∧ prices_wf (mkPrices (Z.to_nat num_days) rows)
    ∧ Forall (Forall (λ p, 0 < p)) rows.
Proof.
  intros Hgen HN HD Hseed HS0 Hexp.
  destruct (simulate_gbm_paths_rows np_sqrt np_exp rng_state np_random_seed
              np_random_standard_normal g S0 num_days drift_pct volatility_pct
              num_simulations random_seed Hgen HN HD Hseed)
    as (prices & Hrun & Hrows).
  exists prices. split; [by rewrite Hrun|]. split.
  - unfold prices_wf. simpl. eapply Forall2_Forall_right; [exact Hrows|].
    by intros z row (Hlen & _).
  - eapply Forall2_Forall_right; [exact Hrows|].
    intros z row Hrow. by eapply gbm_row_positive.
Qed.

Lemma gbm_paths_are_positive_witness :
  ∃ rows,
    (simulate_gbm_paths (λ x, x) (λ x, 1 + x * x) unit (λ _, ())
       (λ g n d, (replicate n (replicate d 1), g)) () 100 3 10 20 2 (Some 42%Z)).1
    = Ok rows
    ∧ prices_wf (mkPrices 3 rows)
    ∧ Forall (Forall (λ p, 0 < p)) rows.
Proof.
  assert (Hgen : ∀ (g : unit) (n d : nat),
            length ((λ g n d, (replicate n (replicate d (1 : Q)), g)) g n d).1 = n)
    by (intros; apply length_replicate).
  assert (HN : Z.le 0 2) by lia.
  assert (HD : Z.le 1 3) by lia.
  assert (Hseed : ∀ seed, Some 42%Z = Some seed → (0 ≤ seed < 2 ^ 32)%Z)
    by (intros seed [= <-]; lia).
  assert (HS0 : 0 < 100) by lra.
  assert (Hexp : ∀ x : Q, 0 < 1 + x * x) by (intros x; nra).
  exact (gbm_paths_are_positive (λ x, x) (λ x, 1 + x * x) unit (λ _, ())
           (λ g n d, (replicate n (replicate d 1), g)) () 100 3 10 20 2 (Some 42%Z)
           Hgen HN HD Hseed HS0 Hexp).
Defined.

(** ** Daily price statistics and envelopes ([gbm.py]) *)

Lemma sum_over_S (n : nat) (f : nat → Q) : sum_over (S n) f == sum_over n f + f n.
Proof.
  unfold sum_over. rewrite seq_S, map_app, np_sum_app. simpl. ring.
Qed.

Lemma sum_over_plus (n : nat) (f g : nat → Q) :
  sum_over n (λ i, f i + g i) == sum_over n f + sum_over n g.
Proof.
  induction n as [|n IH]; [reflexivity|]. rewrite !sum_over_S, IH. ring.
Qed.

Lemma sum_over_ext (n : nat) (f g : nat → Q) :
  (∀ i, (i < n)%nat → f i == g i) → sum_over n f == sum_over n g.
Proof.
  intros Hfg. induction n as [|n IH]; [reflexivity|].
  rewrite !sum_over_S. rewrite IH by (intros; apply Hfg; lia).
  assert (Hn : f n == g n) by (apply Hfg; lia). rewrite Hn. reflexivity.
Qed.

Lemma sum_over_scale (n : nat) (f : nat → Q) (c : Q) :
  sum_over n (λ i, f i / c) == sum_over n f / c.
Proof.
  induction n as [|n IH]; [reflexivity|]. rewrite !sum_over_S, IH.
  unfold Qdiv. ring.
Qed.

Lemma sum_over_exchange (n k : nat) (f : nat → nat → Q) :
  sum_over n (λ i, sum_over k (λ j, f i j)) == sum_over k (λ j, sum_over n (λ i, f i j)).
Proof.
  induction k as [|k IH].
  - unfold sum_over at 2 3. simpl. rewrite (sum_over_const n _ 0); [ring|done].
  - rewrite sum_over_S, <- IH, <- sum_over_plus.
    apply sum_over_ext. intros i _. apply sum_over_S.
Qed.

Lemma np_sum_rows_as_sum_over (rows : list (list Q)) (f : list Q → Q) :
  np_sum (map f rows) = sum_over (length rows) (λ i, f (rows !!! i)).
Proof.
  unfold sum_over. rewrite (list_as_map rows) at 1. by rewrite map_map.
Qed.

(** X15. On a well-shaped batch with at least one simulation, the
    undiscounted decision benchmark of a day is the mean of the daily mean
    prices of [calculate_price_statistics] up to and including that day. *)
Theorem benchmark_is_mean_of_daily_means (np_sqrt : Q → Q) (prices : Prices) (d : nat) :
  prices_wf prices → (0 < num_simulations prices)%nat → (d < num_days prices)%nat →
  length (calculate_price_statistics np_sqrt prices).1 = num_days prices
  ∧ length (calculate_price_statistics np_sqrt prices).2 = num_days prices
  ∧ ∃ b, calculate_arithmetic_mean_benchmark prices 0 !! d = Some b
         ∧ b == np_mean (take (S d) (calculate_price_statistics np_sqrt prices).1).
Proof.
  intros Hwf HN Hd. unfold calculate_price_statistics. simpl.
  rewrite !length_map, !length_seq. split; [done|]. split; [done|].
  unfold calculate_arithmetic_mean_benchmark. rewrite benchmark_loop_cells.
  change (Qltb 0 0) with false. cbv iota.
  change (map ?f ?l) with (f <$> l) at 1.
  rewrite list_lookup_fmap, lookup_seq_lt by done. simpl.
  eexists. split; [reflexivity|].
  rewrite np_mean_columns_upto by done. unfold expanding_mean.
  rewrite firstn_map, take_seq, Nat.min_l by lia.
  unfold np_mean at 1. rewrite length_map, length_seq.
  fold (sum_over (S d) (λ day, np_mean (map (λ row : list Q, row !!! day)
                                           (price_rows prices)))).
  rewrite (sum_over_ext (S d) _
             (λ j, sum_over (num_simulations prices)
                     (λ i, (price_rows prices !!! i) !!! j)
                   / inject_Z (Z.of_nat (num_simulations prices)))).
  - rewrite sum_over_scale, sum_over_exchange.
    rewrite Nat2Z.inj_mul, inject_Z_mult. field.
    split; apply inject_Z_nat_nonzero; lia.
  - intros j _. unfold np_mean. rewrite length_map.
    by rewrite (np_sum_rows_as_sum_over (price_rows prices) (λ row, row !!! j)).
Qed.

Lemma benchmark_is_mean_of_daily_means_witness :
  ∃ b, calculate_arithmetic_mean_benchmark (mkPrices 2 [[100; 110]; [90; 100]]) 0 !! 1%nat
       = Some b
       ∧ b == np_mean (take 2 (calculate_price_statistics
                                 (λ x, x) (mkPrices 2 [[100; 110]; [90; 100]])).1).
Proof.
  assert (Hwf : prices_wf (mkPrices 2 [[100; 110]; [90; 100]])) by (repeat constructor).
  assert (HN : Nat.lt 0 (num_simulations (mkPrices 2 [[100; 110]; [90; 100]])))
    by (unfold num_simulations; simpl; lia).
  assert (Hd : Nat.lt 1 (num_days (mkPrices 2 [[100; 110]; [90; 100]])))
    by (simpl; lia).
  exact (proj2 (proj2 (benchmark_is_mean_of_daily_means (λ x, x)
                         (mkPrices 2 [[100; 110]; [90; 100]]) 1 Hwf HN Hd))).
Defined.

Lemma list_ascii_of_string_app (s t : string) :
  String.list_ascii_of_string (s +:+ t)
  = String.list_ascii_of_string s ++ String.list_ascii_of_string t.
Proof. induction s as [|c s IH]; simpl; [done|]. by rewrite IH. Qed.

Lemma string_app_inv_tail (s1 s2 t : string) : s1 +:+ t = s2 +:+ t → s1 = s2.
Proof.
  intros H. apply (f_equal String.list_ascii_of_string) in H.
  rewrite !list_ascii_of_string_app in H. apply app_inv_tail in H.
  apply (f_equal String.string_of_list_ascii) in H.
  by rewrite !String.string_of_list_ascii_of_string in H.
Qed.

(** The keys of two envelopes agree only for the same sign and level. *)
Lemma envelope_key_upper_inj (n1 n2 : Z) :
  envelope_key "+" n1 = envelope_key "+" n2 → n1 = n2.
Proof.
  unfold envelope_key. intros [= H]. apply (inj pretty).
  exact (string_app_inv_tail (pretty n1) (pretty n2) "σ" H).
Qed.

Lemma envelope_key_lower_inj (n1 n2 : Z) :
  envelope_key "-" n1 = envelope_key "-" n2 → n1 = n2.
Proof.
  unfold envelope_key. intros [= H]. apply (inj pretty).
  exact (string_app_inv_tail (pretty n1) (pretty n2) "σ" H).
Qed.

Lemma envelope_key_signs (n1 n2 : Z) : envelope_key "-" n1 ≠ envelope_key "+" n2.
Proof. unfold envelope_key. discriminate. Qed.

Lemma calculate_envelopes_lookup (mean_prices std_prices : list Q) (levels : list Z) :
  let upper n := zip_with (λ m s, m + inject_Z n * s) mean_prices std_prices in
  let lower n := zip_with (λ m s, m - inject_Z n * s) mean_prices std_prices in
  let envelopes := calculate_envelopes mean_prices std_prices levels in
  (∀ n, n ∈ levels →
        envelopes !! envelope_key "+" n = Some (upper n)
        ∧ envelopes !! envelope_key "-" n = Some (lower n))
  ∧ (∀ key band, envelopes !! key = Some band →
       ∃ n, n ∈ levels ∧ (key = envelope_key "+" n ∨ key = envelope_key "-" n)).
Proof.
  intros upper lower. unfold calculate_envelopes.
  induction levels as [|n0 levels IH] using rev_ind; simpl.
  - split; [intros n Hn; by apply elem_of_nil in Hn|].
    intros key band Hkey. by rewrite lookup_empty in Hkey.
  - rewrite foldl_app. simpl. fold (upper n0) (lower n0).
    destruct IH as [IHin IHonly]. split.
    + intros n Hn. destruct (decide (n = n0)) as [->|Hne].
      * split; [|apply lookup_insert_eq].
        rewrite lookup_insert_ne by apply envelope_key_signs.
        apply lookup_insert_eq.
      * apply elem_of_app in Hn as [Hn|Hn%list_elem_of_singleton]; [|done].
        destruct (IHin n Hn) as [Hup Hlo]. split.
        -- rewrite lookup_insert_ne by apply envelope_key_signs.
           rewrite lookup_insert_ne; [done|].
           intros H. apply Hne. symmetry. by apply envelope_key_upper_inj.
        -- rewrite lookup_insert_ne.
           ++ rewrite lookup_insert_ne; [done|].
              intros H. symmetry in H. by apply envelope_key_signs in H.
           ++ intros H. apply Hne. symmetry. by apply envelope_key_lower_inj.
    + intros key band Hkey.
      apply lookup_insert_Some in Hkey as [[<- _]|[_ Hkey]].
      { exists n0. split; [apply elem_of_app; right; by apply list_elem_of_singleton|].
        by right. }
      apply lookup_insert_Some in Hkey as [[<- _]|[_ Hkey]].
      { exists n0. split; [apply elem_of_app; right; by apply list_elem_of_singleton|].
        by left. }
      destruct (IHonly key band Hkey) as (n & Hn & Hk).
      exists n. split; [apply elem_of_app; by left|done].
Qed.

(** X16. For mean and deviation series of one length,
    [calculate_envelopes] holds, for every requested integer level n, an
    upper band under the key +nσ and a lower band under the key -nσ, of the
    length of the series, whose entries are mean + n std and mean - n std
    (so the mean is their midpoint, and lies between them when n and the
    deviation are not negative); it holds no other key. *)
Theorem envelopes_are_symmetric_bands (mean_prices std_prices : list Q)
    (levels : list Z) :
  length mean_prices = length std_prices →
  let envelopes := calculate_envelopes mean_prices std_prices levels in
  (∀ n, n ∈ levels →
     ∃ upper lower,
       envelopes !! envelope_key "+" n = Some upper
       ∧ envelopes !! envelope_key "-" n = Some lower
       ∧ length upper = length mean_prices
       ∧ length lower = length mean_prices
       ∧ ∀ d m s, mean_prices !! d = Some m → std_prices !! d = Some s →
           ∃ u l, upper !! d = Some u ∧ lower !! d = Some l
                  ∧ u = m + inject_Z n * s
                  ∧ l = m - inject_Z n * s
                  ∧ u + l == 2 * m
                  ∧ ((0 ≤ n)%Z → 0 <= s → l <= m ∧ m <= u))
  ∧ (∀ key band, envelopes !! key = Some band →
       ∃ n, n ∈ levels ∧ (key = envelope_key "+" n ∨ key = envelope_key "-" n)).
Proof.
  intros Hlen envelopes.
  destruct (calculate_envelopes_lookup mean_prices std_prices levels) as [Hin Honly].
  split; [|exact Honly].
  intros n Hn. destruct (Hin n Hn) as [Hup Hlo].
  eexists _, _. split; [exact Hup|]. split; [exact Hlo|].
  rewrite !length_zip_with. split; [lia|]. split; [lia|].
  intros d m s Hm Hs. exists (m + inject_Z n * s), (m - inject_Z n * s).
  split; [by rewrite lookup_zip_with, Hm, Hs|].
  split; [by rewrite lookup_zip_with, Hm, Hs|].
  split; [done|]. split; [done|]. split; [ring|].
  intros Hn0 Hs0.
  assert (Hns : 0 <= inject_Z n * s).
  { apply Qmult_le_0_compat; [|done]. change 0 with (inject_Z 0).
    by rewrite <- Zle_Qle. }
  split; lra.
Qed.

Lemma envelopes_are_symmetric_bands_witness :
  ∃ upper lower,
    calculate_envelopes [100; 100; 100] [0; 10; 20] [1%Z; 2%Z] !! "+2σ" = Some upper
    ∧ calculate_envelopes [100; 100; 100] [0; 10; 20] [1%Z; 2%Z] !! "-2σ" = Some lower
    ∧ length upper = 3%nat ∧ length lower = 3%nat.
Proof.
  assert (Hlen : length [100; 100; 100] = length [0; 10; 20]) by reflexivity.
  assert (Hn : 2%Z ∈ [1%Z; 2%Z]) by (apply list_elem_of_In; simpl; auto).
  destruct (proj1 (envelopes_are_symmetric_bands [100; 100; 100] [0; 10; 20]
                     [1%Z; 2%Z] Hlen) 2%Z Hn)
    as (upper & lower & Hup & Hlo & Hl1 & Hl2 & _).
  exists upper, lower. split; [exact Hup|]. split; [exact Hlo|].
  split; [exact Hl1|exact Hl2].
Defined.

(** ** From the strategies to the metrics *)

Lemma execute_all_strategies_keys (prices : Prices) (total : Q) (target mn mx : Z)
    (discount_bps : Q) (results : gmap string StrategyResult) :
  execute_all_strategies prices total target mn mx discount_bps = Ok results →
  ∀ name, is_Some (results !! name)
          ↔ name = "strategy_1" ∨ name = "strategy_2" ∨ name = "strategy_3".
Proof.
  unfold execute_all_strategies. intros Hrun name.
  destruct (execute_strategy_1 prices total target) as [[[[u1 s1] c1] e1]|];
    [|discriminate].
  simpl in Hrun.
  destruct (execute_strategy_2 prices total target mn mx None)
    as [[[[u2 s2] c2] e2]|]; [|discriminate].
  simpl in Hrun.
  destruct (execute_strategy_3 prices total target mn mx discount_bps)
    as [[[[u3 s3] c3] e3]|]; [|discriminate].
  simpl in Hrun. injection Hrun as <-.
  split.
  - intros [r Hr].
    apply lookup_insert_Some in Hr as [[<- _]|[_ Hr]]; [auto|].
    apply lookup_insert_Some in Hr as [[<- _]|[_ Hr]]; [auto|].
    apply lookup_insert_Some in Hr as [[<- _]|[_ Hr]]; [auto|].
    by rewrite lookup_empty in Hr.
  - intros [->|[->| ->]].
    + rewrite !lookup_insert_ne by done. rewrite lookup_insert_eq. by eexists.
    + rewrite lookup_insert_ne by done. rewrite lookup_insert_eq. by eexists.
    + rewrite lookup_insert_eq. by eexists.
Qed.

(** X17. The records of [execute_all_strategies] passed on to
    [calculate_all_metrics], as the application does: for a target
    duration other than 0 the strategies return; the metrics then raise
    when the batch has no simulation, and otherwise return exactly the
    three entries strategy_1, strategy_2 and strategy_3, each with one
    VWAP, one evaluation benchmark and one score per simulation. *)
Theorem metrics_of_all_strategies (np_sqrt : Q → Q) (prices : Prices) (total : Q)
    (target mn mx : Z) (discount_bps : Q) :
  target ≠ 0%Z →
  ∃ results,
    execute_all_strategies prices total target mn mx discount_bps = Ok results
    ∧ (num_simulations prices = 0%nat →
       raises (calculate_all_metrics np_sqrt results prices discount_bps))
    ∧ ((0 < num_simulations prices)%nat →
       ∃ metrics,
         calculate_all_metrics np_sqrt results prices discount_bps = Ok metrics
         ∧ (∀ name, is_Some (metrics !! name)
                    ↔ name = "strategy_1" ∨ name = "strategy_2" ∨ name = "strategy_3")
         ∧ ∀ name m, metrics !! name = Some m →
             length (vwap m) = num_simulations prices
             ∧ length (benchmark_prices m) = num_simulations prices
             ∧ length (performance_bps m) = num_simulations prices).
Proof.
  intros Htarget.
  destruct (all_strategies_consistent prices total target mn mx discount_bps Htarget)
    as (results & Hrun & Hall).
  exists results. split; [done|].
  pose proof (execute_all_strategies_keys _ _ _ _ _ _ _ Hrun) as Hkeys.
  destruct (calculate_all_metrics_outcome np_sqrt results prices discount_bps)
    as [Hraise Hok].
  split.
  - intros HN. apply Hraise.
    destruct (proj2 (Hkeys "strategy_1")) as [r Hr]; [by left|].
    exists "strategy_1", r. split; [done|].
    apply strategy_metrics_raises. by right.
  - intros HN.
    destruct (raises_or_returns
                (calculate_all_metrics np_sqrt results prices discount_bps))
      as [Hyes|[metrics Hmetrics]].
    { apply Hraise in Hyes as (name & r & Hr & Hyes).
      apply strategy_metrics_raises in Hyes as [Hyes|Hyes]; [|lia].
      destruct (Hall name r Hr) as [Hlen _]. rewrite Hyes in Hlen. simpl in Hlen. lia. }
    exists metrics. split; [done|]. split.
    + intros name. rewrite <- Hkeys. specialize (Hok metrics Hmetrics name).
      destruct (results !! name) as [r|].
      * destruct Hok as (m & _ & ->). split; intros _; by eexists.
      * rewrite Hok. split; intros [? ?]; discriminate.
    + intros name m Hm. specialize (Hok metrics Hmetrics name).
      destruct (results !! name) as [r|] eqn:Hr; [|congruence].
      destruct Hok as (m' & Hbody & Hlook). rewrite Hm in Hlook. injection Hlook as <-.
      destruct (Hall name r Hr) as [Hlen _].
      unfold strategy_metrics in Hbody.
      destruct (match mapM finite_value _ with Some _ => _ | None => _ end);
        [|discriminate].
      simpl in Hbody. injection Hbody as <-. simpl.
      rewrite performance_length, calculate_vwap_length, Hlen.
      destruct (String.eqb name "strategy_3");
        rewrite calculate_benchmark_price_length; repeat split; lia.
Qed.

Lemma metrics_of_all_strategies_witness :
  ∃ results,
    execute_all_strategies (mkPrices 3 [[100; 90; 110]; [100; 105; 95]]) 300 2 1 3 50
    = Ok results
    ∧ ∃ metrics,
        calculate_all_metrics (λ x, x) results
          (mkPrices 3 [[100; 90; 110]; [100; 105; 95]]) 50 = Ok metrics
        ∧ ∀ name, is_Some (metrics !! name)
                  ↔ name = "strategy_1" ∨ name = "strategy_2" ∨ name = "strategy_3".
Proof.
  assert (Htarget : 2%Z ≠ 0%Z) by lia.
  destruct (metrics_of_all_strategies (λ x, x)
              (mkPrices 3 [[100; 90; 110]; [100; 105; 95]]) 300 2 1 3 50 Htarget)
    as (results & Hrun & _ & Hok).
  exists results. split; [exact Hrun|].
  destruct Hok as (metrics & Hmetrics & Hkeys & _);
    [unfold num_simulations; simpl; lia|].
  exists metrics. split; [exact Hmetrics|exact Hkeys].
Defined.

(** ** The score of an execution lies within the spread of the prices *)

(** The end day of every simulation of every record is a day count
    between 1 and the number of days. *)
Lemma all_strategies_end_days (prices : Prices) (total : Q) (target mn mx : Z)
    (discount_bps : Q) :
  (1 ≤ target)%Z → (1 ≤ mx)%Z → (mx ≤ Z.of_nat (num_days prices))%Z →
  ∃ results,
    execute_all_strategies prices total target mn mx discount_bps = Ok results
    ∧ ∀ name r, results !! name = Some r →
        ∀ sim e, actual_end_days r !! sim = Some e →
                 (1 ≤ e)%Z ∧ (e ≤ Z.of_nat (num_days prices))%Z.
Proof.
  intros Htarget Hmx HD.
  unfold execute_all_strategies, execute_strategy_3.
  unfold execute_strategy_1. rewrite (proj2 (Z.eqb_neq target 0)) by lia. simpl.
  destruct (adaptive_end_days_bounded prices total target mn mx None)
    as (usd2 & shares2 & cum2 & ends2 & -> & _ & H2);
    [lia|by apply benchmark_nonempty|done..|].
  destruct (adaptive_end_days_bounded prices total target mn mx
              (Some (calculate_arithmetic_mean_benchmark prices discount_bps)))
    as (usd3 & shares3 & cum3 & ends3 & -> & _ & H3);
    [lia|by apply benchmark_nonempty|done..|].
  simpl. eexists. split; [reflexivity|].
  intros name r Hr sim e He.
  apply lookup_insert_Some in Hr as [[_ <-]|[_ Hr]].
  { simpl in He. pose proof (Forall_lookup_1 _ _ _ _ H3 He) as [? ?]. lia. }
  apply lookup_insert_Some in Hr as [[_ <-]|[_ Hr]].
  { simpl in He. pose proof (Forall_lookup_1 _ _ _ _ H2 He) as [? ?]. lia. }
  apply lookup_insert_Some in Hr as [[_ <-]|[_ Hr]];
    [|by rewrite lookup_empty in Hr].
  simpl in He. apply lookup_replicate in He as [-> _]. lia.
Qed.

(** A ratio of a difference of two prices to a price, all between [lo]
    and [hi], is at most the spread over [lo]. *)
Lemma relative_difference_bound (lo hi v b : Q) :
  0 < lo → lo <= v → v <= hi → lo <= b → b <= hi →
  - ((hi - lo) / lo) <= (v - b) / b ∧ (v - b) / b <= (hi - lo) / lo.
Proof.
  intros Hlo Hv1 Hv2 Hb1 Hb2.
  assert (Hx : (v - b) / b * b == v - b) by (field; lra).
  assert (Hy : (hi - lo) / lo * lo == hi - lo) by (field; lra).
  assert (Hy0 : 0 <= (hi - lo) / lo) by (apply Qle_shift_div_l; lra).
  set (x := (v - b) / b) in *. set (y := (hi - lo) / lo) in *.
  split.
  - destruct (Qlt_le_dec x (- y)) as [Hlt|]; [|done]. exfalso. nra.
  - destruct (Qlt_le_dec y x) as [Hlt|]; [|done]. exfalso. nra.
Qed.

(** X18. For a well-shaped batch with at least one simulation whose
    prices all lie between [lo] and [hi] with [lo] positive, a budget that
    is not negative, a target duration of at least one day and
    1 <= max_duration <= days: the strategies and then the metrics return,
    and for the strategies evaluated against the undiscounted benchmark
    (every name but strategy_3) the evaluation benchmark of a simulation
    lies between [lo] and [hi], the score is finite, and, when something was
    bought, the score is at most (hi - lo) / lo * 10000 basis points in
    absolute value. *)
Theorem score_bounded_by_price_spread (np_sqrt : Q → Q) (prices : Prices) (total : Q)
    (target mn mx : Z) (discount_bps lo hi : Q) :
  prices_wf prices →
  0 < lo →
  Forall (Forall (λ p, lo <= p ∧ p <= hi)) (price_rows prices) →
  0 <= total → (1 ≤ target)%Z → (1 ≤ mx)%Z → (mx ≤ Z.of_nat (num_days prices))%Z →
  (0 < num_simulations prices)%nat →
  ∃ results metrics,
    execute_all_strategies prices total target mn mx discount_bps = Ok results
    ∧ calculate_all_metrics np_sqrt results prices discount_bps = Ok metrics
    ∧ ∀ name m, name ≠ "strategy_3" → metrics !! name = Some m →
        ∀ sim, (sim < num_simulations prices)%nat →
          ∃ v b s,
            vwap m !! sim = Some v
            ∧ benchmark_prices m !! sim = Some b
            ∧ performance_bps m !! sim = Some (Finite s)
            ∧ lo <= b ∧ b <= hi
            ∧ (v = 0 ∨ (lo <= v ∧ v <= hi))
            ∧ s == performance_score v b
            ∧ (lo <= v →
               - ((hi - lo) / lo * 10000) <= s ∧ s <= (hi - lo) / lo * 10000).
Proof.
  intros Hwf Hlo Hrange Htotal Htarget Hmx HD HN.
  destruct (all_strategies_consistent prices total target mn mx discount_bps)
    as (results & Hrun & Hall); [lia|].
  destruct (vwap_range_of_records prices total target mn mx discount_bps lo hi
              Hwf Hlo Hrange Htotal Htarget Hmx HD) as (results' & Hrun' & Hvwap).
  rewrite Hrun in Hrun'. injection Hrun' as <-.
  destruct (all_strategies_end_days prices total target mn mx discount_bps
              Htarget Hmx HD) as (results' & Hrun' & Hends).
  rewrite Hrun in Hrun'. injection Hrun' as <-.
  destruct (calculate_all_metrics_outcome np_sqrt results prices discount_bps)
    as [Hraise Hok].
  destruct (raises_or_returns
              (calculate_all_metrics np_sqrt results prices discount_bps))
    as [Hyes|[metrics Hmetrics]].
  { exfalso. apply Hraise in Hyes as (name & r & Hr & Hyes).
    apply strategy_metrics_raises in Hyes as [Hyes|Hyes]; [|lia].
    destruct (Hall name r Hr) as [Hlen _]. rewrite Hyes in Hlen. simpl in Hlen. lia. }
  exists results, metrics. split; [done|]. split; [done|].
  intros name m Hname Hm sim Hsim.
  specialize (Hok metrics Hmetrics name).
  destruct (results !! name) as [r|] eqn:Hr; [|congruence].
  destruct Hok as (m' & Hbody & Hlook). rewrite Hm in Hlook. injection Hlook as <-.
  destruct (Hall name r Hr) as [Hlen Hrows].
  destruct (strategy_metrics_ok np_sqrt prices discount_bps name r)
    as [stats Hstats]; [lia|lia|].
  rewrite Hstats in Hbody. injection Hbody as <-. cbv zeta. simpl.
  rewrite (proj2 (String.eqb_neq name "strategy_3")) by done.
  destruct (Hvwap name r Hr) as [Hvlen Hvrange].
  destruct (lookup_lt_is_Some_2
              (calculate_vwap (usd_executed r) (shares_acquired r)
                              (Some (actual_end_days r))) sim) as [v Hv]; [lia|].
  destruct (calculate_benchmark_price_lookup prices (actual_end_days r) 0 sim Hsim)
    as (b & Hb & Hbval).
  specialize (Hbval ltac:(lra)).
  destruct (lookup_lt_is_Some_2 (price_rows prices) sim) as [row Hrow];
    [unfold num_simulations in *; lia|].
  destruct (Hrows sim row Hrow) as (usd & shares & cum & e & _ & _ & _ & He & _).
  destruct (Hends name r Hr sim e He) as [He1 He2].
  rewrite (list_lookup_total_correct _ _ _ He),
    (list_lookup_total_correct _ _ _ Hrow) in Hbval.
  assert (Hrowlen : length row = num_days prices)
    by exact (Forall_lookup_1 _ _ _ _ Hwf Hrow).
  assert (Hmean : lo <= np_mean (slice_to e row) ∧ np_mean (slice_to e row) <= hi).
  { apply np_mean_bounds.
    - rewrite slice_to_nonneg by lia. intros Hnil.
      apply (f_equal length) in Hnil. rewrite length_take in Hnil. simpl in Hnil. lia.
    - rewrite slice_to_nonneg by lia. apply Forall_take.
      exact (Forall_lookup_1 _ _ _ _ Hrange Hrow). }
  assert (Hbeq : b == np_mean (slice_to e row)).
  { rewrite Hbval. assert (Hf : 1 - 0 / 10000 == 1) by reflexivity.
    rewrite Hf. apply Qmult_1_r. }
  assert (Hb0 : ¬ b == 0) by (rewrite Hbeq; lra).
  destruct (performance_finite v b Hb0) as (s & Hs & Hsval).
  exists v, b, s. split; [done|]. split; [done|]. split.
  { etrans; [apply (performance_lookup _ _ sim v b Hv Hb)|by rewrite Hs]. }
  split; [rewrite Hbeq; tauto|]. split; [rewrite Hbeq; tauto|].
  split; [exact (Hvrange sim v Hv)|]. split; [done|].
  intros Hvlo.
  assert (Hvhi : v <= hi).
  { destruct (Hvrange sim v Hv) as [->|[_ H]]; [lra|done]. }
  destruct (relative_difference_bound lo hi v b) as [Hr1 Hr2];
    [done|done|done|rewrite Hbeq; tauto|rewrite Hbeq; tauto|].
  rewrite Hsval. unfold performance_score.
  set (x := (v - b) / b) in *. set (y := (hi - lo) / lo) in *.
  split; lra.
Qed.

Lemma score_bounded_by_price_spread_witness :
  ∃ results metrics,
    execute_all_strategies (mkPrices 3 [[100; 90; 110]; [100; 105; 95]]) 300 2 1 3 50
    = Ok results
    ∧ calculate_all_metrics (λ x, x) results
        (mkPrices 3 [[100; 90; 110]; [100; 105; 95]]) 50 = Ok metrics
    ∧ ∀ m, metrics !! "strategy_2" = Some m →
        ∃ v b s,
          vwap m !! 0%nat = Some v
          ∧ benchmark_prices m !! 0%nat = Some b
          ∧ performance_bps m !! 0%nat = Some (Finite s)
          ∧ 90 <= b ∧ b <= 110.
Proof.
  assert (Hwf : prices_wf (mkPrices 3 [[100; 90; 110]; [100; 105; 95]]))
    by (repeat constructor).
  assert (Hlo : 0 < 90) by lra.
  assert (Hrange : Forall (Forall (λ p, 90 <= p ∧ p <= 110))
                     (price_rows (mkPrices 3 [[100; 90; 110]; [100; 105; 95]]))).
  { simpl. repeat (constructor; [repeat (constructor; [split; lra|]); constructor|]).
    constructor. }
  assert (Htotal : 0 <= 300) by lra.
  assert (Htarget : Z.le 1 2) by lia.
  assert (Hmx : Z.le 1 3) by lia.
  assert (HD : Z.le 3 (Z.of_nat
                         (num_days (mkPrices 3 [[100; 90; 110]; [100; 105; 95]]))))
    by (simpl; lia).
  assert (HN : Nat.lt 0 (num_simulations (mkPrices 3 [[100; 90; 110]; [100; 105; 95]])))
    by (unfold num_simulations; simpl; lia).
  destruct (score_bounded_by_price_spread (λ x, x)
              (mkPrices 3 [[100; 90; 110]; [100; 105; 95]]) 300 2 1 3 50 90 110
              Hwf Hlo Hrange Htotal Htarget Hmx HD HN)
    as (results & metrics & Hrun & Hmetrics & Hall).
  exists results, metrics. split; [exact Hrun|]. split; [exact Hmetrics|].
  intros m Hm.
  destruct (Hall "strategy_2" m ltac:(discriminate) Hm 0%nat HN)
    as (v & b & s & Hv & Hb & Hs & Hb1 & Hb2 & _).
  exists v, b, s. split; [exact Hv|]. split; [exact Hb|]. split; [exact Hs|].
  split; [exact Hb1|exact Hb2].
Defined.
